(** * cs-tulip: a succinct bitvector with rank and select

    A shallow embedding of [src/bitvector.h] and [src/bitvector.cpp].

    - [uint64], [uint32_t], [uint16_t] and [uint8_t] values are integers of
      [Z]; every place where the C++ arithmetic can wrap is written with
      [u64], [u32], [u16] or [u8].
    - A [std::vector] is a [list Z]; [v[i]] is [vec_at v i].  The C++ subscript
      is unchecked: the model reads [0] outside the vector and a write
      outside the vector changes nothing.
    - [while] loops whose number of iterations is not fixed by the code take
      a fuel argument and answer [None] when it runs out. *)

From Stdlib Require Import ZArith Lia String Ascii List Bool Btauto.
From stdpp Require Import base list.
From coqutil Require Import Z.bitblast.
Import ListNotations.
Local Open Scope Z_scope.

(** ** Machine integers *)

Definition wrap (w x : Z) : Z := x mod 2 ^ w.
Definition u64 : Z -> Z := wrap 64.
Definition u32 : Z -> Z := wrap 32.
Definition u16 : Z -> Z := wrap 16.
Definition u8 : Z -> Z := wrap 8.

Notation "x >>> n" := (Z.shiftr x n) (at level 31, left associativity).
Notation "x <<< n" := (Z.shiftl x n) (at level 31, left associativity).
Notation "x .& y" := (Z.land x y) (at level 32, left associativity).
Notation "x .| y" := (Z.lor x y) (at level 33, left associativity).

(** [std::popcount] on an unsigned word. *)
Fixpoint pos_popcount (p : positive) : Z :=
  match p with
  | xH => 1
  | xO q => pos_popcount q
  | xI q => 1 + pos_popcount q
  end.

Definition popcount (x : Z) : Z :=
  match x with
  | Zpos p => pos_popcount p
  | _ => 0
  end.

(** [__builtin_clzll] on a non-zero 64-bit word: the number of zero bits
    above the highest set bit. *)
Definition clzll (x : Z) : Z := 63 - Z.log2 x.

(** [~x] on a [uint64]. *)
Definition not64 (x : Z) : Z := u64 (Z.lnot x).

(** ** Constants of [bitvector.h] and [buildHelpers] *)

Definition EVERY_OTHER_1_POS : Z := 8192.
Definition BLOCK_SIZE : Z := 512.
Definition L0BLOCK_SIZE : Z := 0xFFFFFFFFFFF.
Definition BLOCKS_IN_SUPERBLOCK : Z := 8.
Definition WORDS_IN_BLOCK : Z := 8.
Definition SUPERBLOCKS_PER_L0 : Z := 0x7FFFFFFF.

(** ** Vectors *)

Definition vec_at (v : list Z) (i : Z) : Z :=
  if i <? 0 then 0 else default 0 (v !! Z.to_nat i).

Definition vec_set (v : list Z) (i x : Z) : list Z :=
  if i <? 0 then v else <[Z.to_nat i := x]> v.

Definition vec_size (v : list Z) : Z := Z.of_nat (length v).

(** ** The class *)

Record bitvector : Type := Bitvector {
  L0SingleBlockData : Z;
  oneCount : Z;
  zeroCount : Z;
  lastOnePos : Z;
  lastZeroPos : Z;
  vector : list Z;
  superBlocks : list Z;
  selectCache_0 : list Z;
  selectCache_1 : list Z
}.

(** ** [bitvector::bitvector(std::string&)] *)

Record ctor_state : Type := CtorState {
  innerIndex : Z;
  outerIndex : Z;
  currentConstruction : Z;
  ctor_vector : list Z
}.

(** The value of a [char]; the test of the constructor accepts the codes 48
    and 49 only, whether [char] is signed or not. *)
Definition char_code (c : ascii) : Z := Z.of_N (N_of_ascii c).

Definition ctor_step (st : ctor_state) (c : ascii) : ctor_state :=
  if (char_code c >? 49) || (char_code c <? 48) then st
  else
    let cur := currentConstruction st .| u64 ((char_code c - 48) <<< innerIndex st) in
    let inner := innerIndex st + 1 in
    if inner >=? 64 then
      {| innerIndex := 0;
         outerIndex := u64 (outerIndex st + 1);
         currentConstruction := 0;
         ctor_vector := vec_set (ctor_vector st) (outerIndex st) cur |}
    else
      {| innerIndex := inner;
         outerIndex := outerIndex st;
         currentConstruction := cur;
         ctor_vector := ctor_vector st |}.

Fixpoint ctor_loop (str : string) (st : ctor_state) : ctor_state :=
  match str with
  | EmptyString => st
  | String c rest => ctor_loop rest (ctor_step st c)
  end.

Definition str_length (str : string) : Z := Z.of_nat (String.length str).

Definition bitvector_ctor (str : string) : bitvector :=
  let v := replicate (Z.to_nat (u64 ((str_length str >>> 6) + 1))) 0 in
  let st := ctor_loop str
              {| innerIndex := 0; outerIndex := 0;
                 currentConstruction := 0; ctor_vector := v |} in
  {| L0SingleBlockData := 0;
     oneCount := 0;
     zeroCount := 0;
     lastOnePos := 0;
     lastZeroPos := 0;
     vector := vec_set (ctor_vector st) (outerIndex st) (currentConstruction st);
     superBlocks := [];
     selectCache_0 := [];
     selectCache_1 := [] |}.

(** ** [bitvector::access] *)

Definition access (bv : bitvector) (ptr : Z) : Z :=
  u16 ((vec_at (vector bv) (ptr >>> 6) >>> (ptr .& ((1 <<< 6) - 1))) .& 1).

(** ** [bitvector::rank_1] and [bitvector::rank] *)

Definition rank_1 (bv : bitvector) (ptr : Z) : Z :=
  let superblockIndex := u64 ((ptr >>> 12) <<< 1) in
  let metadata1 := vec_at (superBlocks bv) superblockIndex in
  let metadata2 := vec_at (superBlocks bv) (u64 (superblockIndex + 1)) in
  let blockId := u8 ((ptr >>> 9) .& 7) in
  let preOnesCount :=
    u64 ((metadata1 >>> 20)
         + (if ptr >? L0BLOCK_SIZE then L0SingleBlockData bv else 0)) in
  let preOnesCount :=
    if blockId =? 1 then
      u64 (preOnesCount + ((metadata1 >>> 8) .& 0xFFF))
    else if blockId =? 2 then
      u64 (preOnesCount + (((metadata1 .& 0xFF) <<< 4) .| (metadata2 >>> 60)))
    else if blockId >? 2 then
      u64 (preOnesCount + ((metadata2 >>> ((blockId - 3) * 12)) .& 0xFFF))
    else preOnesCount in
  let beginBlockIndex := u64 ((ptr >>> 9) <<< 3) in
  let which64BitWord := u8 ((ptr >>> 6) .& 0x7) in
  let blockSum :=
    fold_left
      (fun s k => u16 (s + popcount (vec_at (vector bv) (u64 (beginBlockIndex + k)))))
      (seqZ 0 which64BitWord) 0 in
  let wordCoverageMask := u64 ((1 <<< (ptr .& 0x3F)) - 1) in
  let blockSum :=
    u16 (blockSum
         + popcount (vec_at (vector bv) (u64 (beginBlockIndex + which64BitWord))
                     .& wordCoverageMask)) in
  u64 (preOnesCount + blockSum).

Definition rank (bv : bitvector) (ptr bitValue : Z) : Z :=
  if ptr <=? 0 then 0
  else
    let top := u64 (u64 (vec_size (vector bv) <<< 6) - 1) in
    let ptr := if ptr >? top then top else ptr in
    if bitValue =? 1 then rank_1 bv ptr
    else u64 (ptr - rank_1 bv ptr).

(** ** [bitvector::superRank] *)

Definition superRank (bv : bitvector) (ptr : Z) : Z :=
  let metadata1 := vec_at (superBlocks bv) (u64 (ptr <<< 1)) in
  u64 ((if ptr >? L0BLOCK_SIZE then L0SingleBlockData bv else 0)
       + (metadata1 >>> 20)).

(** ** [bitvector::select_1_iterative] and [bitvector::select_0_iterative]

    The binary searches over superblock numbers.  Every round halves the
    distance between [start] and [end], so 64 rounds are enough for any pair
    of [uint64] bounds whose sum does not wrap. *)

Fixpoint select_1_iterative_loop (fuel : nat) (bv : bitvector)
    (num start end_ : Z) : option Z :=
  if end_ >? start then
    match fuel with
    | O => None
    | S fuel' =>
        let middle := u64 (start + end_) >>> 1 in
        if superRank bv middle <? num then
          select_1_iterative_loop fuel' bv num (u64 (middle + 1)) end_
        else
          select_1_iterative_loop fuel' bv num start middle
    end
  else Some (u64 (start - 1)).

Definition select_1_iterative (bv : bitvector) (num start end_ : Z) : option Z :=
  select_1_iterative_loop 64 bv num start end_.

Fixpoint select_0_iterative_loop (fuel : nat) (bv : bitvector)
    (num start end_ : Z) : option Z :=
  if end_ >? start then
    match fuel with
    | O => None
    | S fuel' =>
        let middle := u64 (start + end_) >>> 1 in
        if u64 (u64 (middle <<< 12) - superRank bv middle) <? num then
          select_0_iterative_loop fuel' bv num (u64 (middle + 1)) end_
        else
          select_0_iterative_loop fuel' bv num start middle
    end
  else Some (u64 (start - 1)).

Definition select_0_iterative (bv : bitvector) (num start end_ : Z) : option Z :=
  select_0_iterative_loop 64 bv num start end_.

(** ** The pieces of [bitvector::select_1] and [bitvector::select_0] *)

(** The innermost [while (remaining > 0)] of both functions.  It shifts the
    word to the right once per round, so a run that ends does so within 64
    rounds; with [remaining] above the number of set bits the C++ loop does
    not end, and the model answers [None]. *)
Fixpoint bit_loop (fuel : nat) (remaining bitword bitIndex : Z) : option Z :=
  if remaining >? 0 then
    match fuel with
    | O => None
    | S fuel' =>
        bit_loop fuel' (u64 (remaining - (bitword .& 1))) (bitword >>> 1)
          (u8 (bitIndex + 1))
    end
  else Some bitIndex.

(** The [for (uint8_t index = 0; index < 8; ++index)] of [select_1]; [n] is
    the number of rounds left, [8 - index]. *)
Fixpoint select_1_words (n : nat) (v : list Z)
    (wordIndex finalPosition index remaining : Z) : option Z :=
  match n with
  | O => Some finalPosition
  | S n' =>
      let bitword := vec_at v (u64 (wordIndex + index)) in
      let onesInWord := u8 (popcount bitword) in
      if remaining >? onesInWord then
        select_1_words n' v wordIndex finalPosition (u8 (index + 1))
          (u64 (remaining - onesInWord))
      else
        let bitIndex := u8 (0 - (if remaining >? 0 then 1 else 0)) in
        match bit_loop 64 remaining bitword bitIndex with
        | None => None
        | Some bitIndex =>
            Some (u64 (u64 (finalPosition + (index <<< 6)) + bitIndex))
        end
  end.

Fixpoint select_0_words (n : nat) (v : list Z)
    (wordIndex finalPosition index remaining : Z) : option Z :=
  match n with
  | O => Some finalPosition
  | S n' =>
      let bitword := not64 (vec_at v (u64 (wordIndex + index))) in
      let zerosInWord := u8 (popcount bitword) in
      if remaining >? zerosInWord then
        select_0_words n' v wordIndex finalPosition (u8 (index + 1))
          (u64 (remaining - zerosInWord))
      else
        let bitIndex := u8 (0 - (if remaining >? 0 then 1 else 0)) in
        match bit_loop 64 remaining bitword bitIndex with
        | None => None
        | Some bitIndex =>
            Some (u64 (u64 (finalPosition + (index <<< 6)) + bitIndex))
        end
  end.

(** The [do { ... } while (false)] of [select_1]: the pair of [remaining] and
    [blockIndex] it leaves. *)
Definition select_1_blocks (metadata1 metadata2 remaining : Z) : Z * Z :=
  let previousMetadataValue := 0 in
  let currentMetadataValue := (metadata1 >>> 8) .& 0xFFF in
  if currentMetadataValue >=? remaining
  then (u64 (remaining - previousMetadataValue), 0) else
  let previousMetadataValue := currentMetadataValue in
  let currentMetadataValue := ((metadata1 .& 0xFF) <<< 4) .| (metadata2 >>> 60) in
  if currentMetadataValue >=? remaining
  then (u64 (remaining - previousMetadataValue), 1) else
  let previousMetadataValue := currentMetadataValue in
  let currentMetadataValue := metadata2 .& 0xFFF in
  if currentMetadataValue >=? remaining
  then (u64 (remaining - previousMetadataValue), 2) else
  let previousMetadataValue := currentMetadataValue in
  let currentMetadataValue := (metadata2 >>> 12) .& 0xFFF in
  if currentMetadataValue >=? remaining
  then (u64 (remaining - previousMetadataValue), 3) else
  let previousMetadataValue := currentMetadataValue in
  let currentMetadataValue := (metadata2 >>> 24) .& 0xFFF in
  if currentMetadataValue >=? remaining
  then (u64 (remaining - previousMetadataValue), 4) else
  let previousMetadataValue := currentMetadataValue in
  let currentMetadataValue := (metadata2 >>> 36) .& 0xFFF in
  if currentMetadataValue >=? remaining
  then (u64 (remaining - previousMetadataValue), 5) else
  let previousMetadataValue := currentMetadataValue in
  let currentMetadataValue := (metadata2 >>> 48) .& 0xFFF in
  if currentMetadataValue >=? remaining
  then (u64 (remaining - previousMetadataValue), 6) else
  (u64 (remaining - currentMetadataValue), 7).

(** The [do { ... } while (false)] of [select_0]. *)
Definition select_0_blocks (metadata1 metadata2 remaining : Z) : Z * Z :=
  let previousMetadataValue := 0 in
  let currentMetadataValue := u64 (BLOCK_SIZE - ((metadata1 >>> 8) .& 0xFFF)) in
  let blockTotalBitsTillHere := BLOCK_SIZE in
  if currentMetadataValue >=? remaining
  then (u64 (remaining - previousMetadataValue), 0) else
  let blockTotalBitsTillHere := u16 (blockTotalBitsTillHere + BLOCK_SIZE) in
  let previousMetadataValue := currentMetadataValue in
  let currentMetadataValue :=
    u64 (blockTotalBitsTillHere
         - (((metadata1 .& 0xFF) <<< 4) .| (metadata2 >>> 60))) in
  if currentMetadataValue >=? remaining
  then (u64 (remaining - previousMetadataValue), 1) else
  let blockTotalBitsTillHere := u16 (blockTotalBitsTillHere + BLOCK_SIZE) in
  let previousMetadataValue := currentMetadataValue in
  let currentMetadataValue := u64 (blockTotalBitsTillHere - (metadata2 .& 0xFFF)) in
  if currentMetadataValue >=? remaining
  then (u64 (remaining - previousMetadataValue), 2) else
  let blockTotalBitsTillHere := u16 (blockTotalBitsTillHere + BLOCK_SIZE) in
  let previousMetadataValue := currentMetadataValue in
  let currentMetadataValue :=
    u64 (blockTotalBitsTillHere - ((metadata2 >>> 12) .& 0xFFF)) in
  if currentMetadataValue >=? remaining
  then (u64 (remaining - previousMetadataValue), 3) else
  let blockTotalBitsTillHere := u16 (blockTotalBitsTillHere + BLOCK_SIZE) in
  let previousMetadataValue := currentMetadataValue in
  let currentMetadataValue :=
    u64 (blockTotalBitsTillHere - ((metadata2 >>> 24) .& 0xFFF)) in
  if currentMetadataValue >=? remaining
  then (u64 (remaining - previousMetadataValue), 4) else
  let blockTotalBitsTillHere := u16 (blockTotalBitsTillHere + BLOCK_SIZE) in
  let previousMetadataValue := currentMetadataValue in
  let currentMetadataValue :=
    u64 (blockTotalBitsTillHere - ((metadata2 >>> 36) .& 0xFFF)) in
  if currentMetadataValue >=? remaining
  then (u64 (remaining - previousMetadataValue), 5) else
  let blockTotalBitsTillHere := u16 (blockTotalBitsTillHere + BLOCK_SIZE) in
  let previousMetadataValue := currentMetadataValue in
  let currentMetadataValue :=
    u64 (blockTotalBitsTillHere - ((metadata2 >>> 48) .& 0xFFF)) in
  if currentMetadataValue >=? remaining
  then (u64 (remaining - previousMetadataValue), 6) else
  (u64 (remaining - currentMetadataValue), 7).

(** The choice of the superblock at the head of [select_1]: the index into
    [superBlocks], twice the superblock number. *)
Definition select_1_superblock (bv : bitvector) (num : Z) : option Z :=
  let n := vec_size (superBlocks bv) in
  if (n <=? 2) || (num <=? (vec_at (superBlocks bv) 2 >>> 20)) then Some 0
  else if num >? (vec_at (superBlocks bv) (u64 (n - 2)) >>> 20) then
    Some (u64 (n - 2))
  else
    let start := num >>> 13 in
    let '(start, end_) :=
      if u64 (start + 1) >=? vec_size (selectCache_1 bv) then
        (start, u64 ((n >>> 1) - 1))
      else
        (if start =? 0 then 0
         else u32 (vec_at (selectCache_1 bv) (u64 (start - 1)) - 1),
         u32 (vec_at (selectCache_1 bv) start + 1)) in
    match select_1_iterative bv num start end_ with
    | None => None
    | Some r => Some (u64 (r <<< 1))
    end.

Definition select_0_superblock (bv : bitvector) (num : Z) : option Z :=
  let n := vec_size (superBlocks bv) in
  if (n <=? 2)
     || (num <=? u64 ((1 <<< 12) - (vec_at (superBlocks bv) 2 >>> 20)))
  then Some 0
  else if num >? u64 (u64 (u64 (n - 2) <<< 11)
                      - (vec_at (superBlocks bv) (u64 (n - 2)) >>> 20)) then
    Some (u64 (n - 2))
  else
    let start := num >>> 13 in
    let '(start, end_) :=
      if start >=? vec_size (selectCache_0 bv) then
        (start, u64 ((n >>> 1) - 1))
      else
        (if start =? 0 then 0
         else u32 (vec_at (selectCache_0 bv) (u64 (start - 1)) - 1),
         u32 (vec_at (selectCache_0 bv) start + 1)) in
    match select_0_iterative bv num start end_ with
    | None => None
    | Some r => Some (u64 (r <<< 1))
    end.

(** ** [bitvector::select_1], [bitvector::select_0], [bitvector::select] *)

Definition select_1 (bv : bitvector) (num : Z) : option Z :=
  if num =? oneCount bv then Some (lastOnePos bv)
  else
    match select_1_superblock bv num with
    | None => None
    | Some superblockIndex =>
        let metadata1 := vec_at (superBlocks bv) superblockIndex in
        let metadata2 := vec_at (superBlocks bv) (u64 (superblockIndex + 1)) in
        let remaining := u64 (num - (metadata1 >>> 20)) in
        let remaining :=
          if u64 (superblockIndex <<< 11) >? L0BLOCK_SIZE
          then u64 (remaining - L0SingleBlockData bv) else remaining in
        let '(remaining, blockIndex) :=
          select_1_blocks metadata1 metadata2 remaining in
        let wordIndex := u64 (u64 (superblockIndex <<< 5) + (blockIndex <<< 3)) in
        let finalPosition := u64 (wordIndex <<< 6) in
        select_1_words 8 (vector bv) wordIndex finalPosition 0 remaining
    end.

Definition select_0 (bv : bitvector) (num : Z) : option Z :=
  if num =? zeroCount bv then Some (lastZeroPos bv)
  else
    match select_0_superblock bv num with
    | None => None
    | Some superblockIndex =>
        let metadata1 := vec_at (superBlocks bv) superblockIndex in
        let metadata2 := vec_at (superBlocks bv) (u64 (superblockIndex + 1)) in
        let remaining :=
          u64 (num - u64 (u64 (superblockIndex <<< 11) - (metadata1 >>> 20))) in
        let remaining :=
          if u64 (superblockIndex <<< 11) >? L0BLOCK_SIZE
          then u64 (remaining - u64 (L0BLOCK_SIZE - L0SingleBlockData bv))
          else remaining in
        let '(remaining, blockIndex) :=
          select_0_blocks metadata1 metadata2 remaining in
        let wordIndex := u64 (u64 (superblockIndex <<< 5) + (blockIndex <<< 3)) in
        let finalPosition := u64 (wordIndex <<< 6) in
        select_0_words 8 (vector bv) wordIndex finalPosition 0 remaining
    end.

Definition select (bv : bitvector) (i byteValue : Z) : option Z :=
  if byteValue =? 1 then select_1 bv i else select_0 bv i.

(** ** [bitvector::buildHelpers] *)

(** The local variables of [buildHelpers] together with the object. *)
Record build_state : Type := BuildState {
  wordIndex : Z;
  blockIndex : Z;
  metadata1Builder : Z;
  metadata2Builder : Z;
  L0BlockOneCounter : Z;
  superBlockOneCounter : Z;
  superblockIndex : Z;
  nextSelectCacheThreshold_0 : Z;
  nextSelectCacheThreshold_1 : Z;
  this : bitvector
}.

(** One round of the [for] loop over the words; [n] is [vector.size()]. *)
Definition build_step (n : Z) (st : build_state) (vectorIndex : Z) : build_state :=
  let bv := this st in
  let word := vec_at (vector bv) vectorIndex in
  let wordIndex' := u8 (wordIndex st + 1) in
  let onesInBlock := u8 (popcount word) in
  let superBlockOneCounter' := u64 (superBlockOneCounter st + onesInBlock) in
  let L0BlockOneCounter' := u64 (L0BlockOneCounter st + onesInBlock) in
  let oneCount' := u64 (oneCount bv + onesInBlock) in
  let zeroCount' := u64 (zeroCount bv + (64 - onesInBlock)) in
  let lastOnePos' :=
    if onesInBlock >? 0
    then u64 (u64 (vectorIndex <<< 6) + (63 - clzll word))
    else lastOnePos bv in
  let lastZeroPos' :=
    if onesInBlock <? 64
    then u64 (u64 (vectorIndex <<< 6) + (63 - clzll (not64 word)))
    else lastZeroPos bv in
  let '(threshold_1, cache_1) :=
    if oneCount' >=? nextSelectCacheThreshold_1 st
    then (u64 (nextSelectCacheThreshold_1 st + EVERY_OTHER_1_POS),
          selectCache_1 bv ++ [u32 (superblockIndex st >>> 1)])
    else (nextSelectCacheThreshold_1 st, selectCache_1 bv) in
  let '(threshold_0, cache_0) :=
    if zeroCount' >=? nextSelectCacheThreshold_0 st
    then (u64 (nextSelectCacheThreshold_0 st + EVERY_OTHER_1_POS),
          selectCache_0 bv ++ [u32 (superblockIndex st >>> 1)])
    else (nextSelectCacheThreshold_0 st, selectCache_0 bv) in
  if (wordIndex' =? WORDS_IN_BLOCK) || (vectorIndex =? u64 (n - 1)) then
    if blockIndex st =? BLOCKS_IN_SUPERBLOCK - 1 then
      let blocks :=
        vec_set (vec_set (superBlocks bv) (superblockIndex st) (metadata1Builder st))
          (u64 (superblockIndex st + 1)) (metadata2Builder st) in
      let superblockIndex' := u64 (superblockIndex st + 2) in
      let '(L0data, L0counter) :=
        if (superblockIndex' >>> 1) =? SUPERBLOCKS_PER_L0
        then (oneCount', 0)
        else (L0SingleBlockData bv, L0BlockOneCounter') in
      {| wordIndex := 0;
         blockIndex := 0;
         metadata1Builder := u64 (L0counter <<< 20);
         metadata2Builder := 0;
         L0BlockOneCounter := L0counter;
         superBlockOneCounter := 0;
         superblockIndex := superblockIndex';
         nextSelectCacheThreshold_0 := threshold_0;
         nextSelectCacheThreshold_1 := threshold_1;
         this :=
           {| L0SingleBlockData := L0data;
              oneCount := oneCount';
              zeroCount := zeroCount';
              lastOnePos := lastOnePos';
              lastZeroPos := lastZeroPos';
              vector := vector bv;
              superBlocks := blocks;
              selectCache_0 := cache_0;
              selectCache_1 := cache_1 |} |}
    else
      let '(m1, m2) :=
        if blockIndex st =? 0 then
          (metadata1Builder st .| u64 ((superBlockOneCounter' .& 0xFFF) <<< 8),
           metadata2Builder st)
        else if blockIndex st =? 1 then
          (metadata1Builder st .| ((superBlockOneCounter' >>> 4) .& 0xFF),
           metadata2Builder st .| u64 ((superBlockOneCounter' .& 0xF) <<< 60))
        else
          (metadata1Builder st,
           metadata2Builder st
           .| u64 ((superBlockOneCounter' .& 0xFFF)
                   <<< ((blockIndex st - 2) * 12))) in
      {| wordIndex := 0;
         blockIndex := u8 (blockIndex st + 1);
         metadata1Builder := m1;
         metadata2Builder := m2;
         L0BlockOneCounter := L0BlockOneCounter';
         superBlockOneCounter := superBlockOneCounter';
         superblockIndex := superblockIndex st;
         nextSelectCacheThreshold_0 := threshold_0;
         nextSelectCacheThreshold_1 := threshold_1;
         this :=
           {| L0SingleBlockData := L0SingleBlockData bv;
              oneCount := oneCount';
              zeroCount := zeroCount';
              lastOnePos := lastOnePos';
              lastZeroPos := lastZeroPos';
              vector := vector bv;
              superBlocks := superBlocks bv;
              selectCache_0 := cache_0;
              selectCache_1 := cache_1 |} |}
  else
    {| wordIndex := wordIndex';
       blockIndex := blockIndex st;
       metadata1Builder := metadata1Builder st;
       metadata2Builder := metadata2Builder st;
       L0BlockOneCounter := L0BlockOneCounter';
       superBlockOneCounter := superBlockOneCounter';
       superblockIndex := superblockIndex st;
       nextSelectCacheThreshold_0 := threshold_0;
       nextSelectCacheThreshold_1 := threshold_1;
       this :=
         {| L0SingleBlockData := L0SingleBlockData bv;
            oneCount := oneCount';
            zeroCount := zeroCount';
            lastOnePos := lastOnePos';
            lastZeroPos := lastZeroPos';
            vector := vector bv;
            superBlocks := superBlocks bv;
            selectCache_0 := cache_0;
            selectCache_1 := cache_1 |} |}.

(** The state before the first round: the freshly allocated [superBlocks]
    and the initial values of the locals. *)
Definition build_init (bv : bitvector) : build_state :=
  let n := vec_size (vector bv) in
  {| wordIndex := 0;
     blockIndex := 0;
     metadata1Builder := 0;
     metadata2Builder := 0;
     L0BlockOneCounter := 0;
     superBlockOneCounter := 0;
     superblockIndex := 0;
     nextSelectCacheThreshold_0 := EVERY_OTHER_1_POS;
     nextSelectCacheThreshold_1 := EVERY_OTHER_1_POS;
     this :=
       {| L0SingleBlockData := L0SingleBlockData bv;
          oneCount := oneCount bv;
          zeroCount := zeroCount bv;
          lastOnePos := lastOnePos bv;
          lastZeroPos := lastZeroPos bv;
          vector := vector bv;
          superBlocks :=
            replicate (Z.to_nat (u64 (u64 ((n >>> 6) <<< 1) + 2))) 0;
          selectCache_0 := selectCache_0 bv;
          selectCache_1 := selectCache_1 bv |} |}.

(** The [if] after the loop: the builders of the unfinished superblock are
    stored when there is room for them. *)
Definition build_finish (st : build_state) : bitvector :=
  let bv := this st in
  if superblockIndex st <? vec_size (superBlocks bv) then
    {| L0SingleBlockData := L0SingleBlockData bv;
       oneCount := oneCount bv;
       zeroCount := zeroCount bv;
       lastOnePos := lastOnePos bv;
       lastZeroPos := lastZeroPos bv;
       vector := vector bv;
       superBlocks :=
         vec_set (vec_set (superBlocks bv) (superblockIndex st) (metadata1Builder st))
           (u64 (superblockIndex st + 1)) (metadata2Builder st);
       selectCache_0 := selectCache_0 bv;
       selectCache_1 := selectCache_1 bv |}
  else bv.

(** The state after the first [v] rounds of the loop. *)
Definition build_upto (bv : bitvector) (v : Z) : build_state :=
  fold_left (build_step (vec_size (vector bv))) (seqZ 0 v) (build_init bv).

Definition build_loop (bv : bitvector) : build_state :=
  build_upto bv (vec_size (vector bv)).

Definition buildHelpers (bv : bitvector) : bitvector :=
  build_finish (build_loop bv).

(** The driver's use of the class: construct, then build the helpers. *)
Definition built (str : string) : bitvector := buildHelpers (bitvector_ctor str).

(** ** Reading the structure back *)

(** [read_back bv n] is the string of the answers of [access] at the
    positions [0], ..., [n - 1], written with the characters 0 and 1. *)
Definition bit_char (b : Z) : ascii := if b =? 0 then "0"%char else "1"%char.

Fixpoint read_from (bv : bitvector) (pos : Z) (n : nat) : string :=
  match n with
  | O => EmptyString
  | S n' => String (bit_char (access bv pos)) (read_from bv (pos + 1) n')
  end.

Definition read_back (bv : bitvector) (n : nat) : string := read_from bv 0 n.

(** ** The bit sequence of a string and what rank and select mean on it *)

(** The accepted characters of a string, in order: the sequence [B]. *)
Fixpoint bits (str : string) : list bool :=
  match str with
  | EmptyString => []
  | String c rest =>
      if Ascii.eqb c "1" then true :: bits rest
      else if Ascii.eqb c "0" then false :: bits rest
      else bits rest
  end.

(** [N], the number of accepted characters. *)
Definition bit_length (str : string) : Z := Z.of_nat (length (bits str)).

(** A string over the characters 0 and 1 only. *)
Fixpoint binary (str : string) : bool :=
  match str with
  | EmptyString => true
  | String c rest => (Ascii.eqb c "0" || Ascii.eqb c "1") && binary rest
  end.

(** The number of bits equal to [b] in a list. *)
Fixpoint count_bit (b : bool) (l : list bool) : Z :=
  match l with
  | [] => 0
  | x :: rest => (if Bool.eqb x b then 1 else 0) + count_bit b rest
  end.

(** The number of bits equal to [b] in [B[0..i)]. *)
Definition true_rank (str : string) (i : Z) (b : bool) : Z :=
  count_bit b (take (Z.to_nat i) (bits str)).

(** The number of bits equal to [b] in the whole of [B]. *)
Definition total_count (str : string) (b : bool) : Z := count_bit b (bits str).

(** [B[i]]; [false] outside the sequence. *)
Definition true_bit (str : string) (i : Z) : bool :=
  if i <? 0 then false else nth (Z.to_nat i) (bits str) false.

(** The bit value that a [uint8_t] argument of [rank] and [select] stands
    for. *)
Definition bit_value (b : bool) : Z := if b then 1 else 0.

(** ** Counting in the word array *)

(** Bit [i] of the word array, least significant bit of a word first. *)
Definition bit_at (v : list Z) (i : Z) : bool :=
  Z.testbit (vec_at v (i / 64)) (i mod 64).

(** The number of set bits in the first [m] words. *)
Fixpoint ones_in_words (v : list Z) (m : nat) : Z :=
  match m with
  | O => 0
  | S m' => ones_in_words v m' + popcount (vec_at v (Z.of_nat m'))
  end.

Definition ones_words (v : list Z) (m : Z) : Z := ones_in_words v (Z.to_nat m).

(** The number of set bits at the positions below [i]. *)
Definition ones_before (v : list Z) (i : Z) : Z :=
  ones_words v (i / 64) + popcount (vec_at v (i / 64) .& (2 ^ (i mod 64) - 1)).

(** The number of set bits in the words [a], ..., [b - 1]. *)
Definition ones_between (v : list Z) (a b : Z) : Z := ones_words v b - ones_words v a.

(** A string as long as a [std::string] can be. *)
Definition string_fits (str : string) : Prop := str_length str < 2 ^ 63.

(** ** Where the first L0 region ends in [buildHelpers] *)

(** The word at which the counter of the L0 region of superblock [q] was
    last set to zero. *)
Definition L0_start (q : Z) : Z :=
  if q <? SUPERBLOCKS_PER_L0 then 0 else 64 * SUPERBLOCKS_PER_L0.

(** The number of superblocks that the loop of [buildHelpers] stores for a
    vector of [n] words: one for every 64 words, and one more when the last
    word lies in the last block of a superblock. *)
Definition stored_in_loop (n : Z) : Z :=
  (n - 1) / 64 + (if ((n - 1) / 8) mod 8 =? 7 then 1 else 0).

(** ** Well-formed data *)

(** Every word is a [uint64]. *)
Definition words_ok (v : list Z) : Prop := Forall (fun w => 0 <= w < 2 ^ 64) v.

(** The constructor's state once the bits [l] have been accepted, for a
    vector of [n] words: the finished words hold the first bits of [l], the
    word under construction holds the rest, and the words after it are still
    zero. *)
Record ctor_inv (n : Z) (l : list bool) (st : ctor_state) : Prop := CtorInv {
  ci_inner : innerIndex st = Z.of_nat (length l) mod 64;
  ci_outer : outerIndex st = Z.of_nat (length l) / 64;
  ci_cur : 0 <= currentConstruction st < 2 ^ (Z.of_nat (length l) mod 64);
  ci_size : vec_size (ctor_vector st) = n;
  ci_words : words_ok (ctor_vector st);
  ci_done : forall i, 0 <= i < 64 * (Z.of_nat (length l) / 64) ->
            bit_at (ctor_vector st) i = nth (Z.to_nat i) l false;
  ci_part : forall b, 0 <= b < 64 ->
            Z.testbit (currentConstruction st) b
            = nth (Z.to_nat (64 * (Z.of_nat (length l) / 64) + b)) l false;
  ci_rest : forall j, Z.of_nat (length l) / 64 <= j -> vec_at (ctor_vector st) j = 0
}.

(** The number of words of a constructed vector. *)
Definition word_count (str : string) : Z := str_length str / 64 + 1.

(** ** The rounds of [buildHelpers] *)

(** The number of set bits of the word read in a round. *)
Definition step_ones (st : build_state) (v : Z) : Z :=
  u8 (popcount (vec_at (vector (this st)) v)).

(** The round ends a block: the eighth word of a block, or the last word. *)
Definition block_ends (n : Z) (st : build_state) (v : Z) : bool :=
  (u8 (wordIndex st + 1) =? WORDS_IN_BLOCK) || (v =? u64 (n - 1)).

(** The round ends a superblock and stores its two metadata words. *)
Definition superblock_ends (n : Z) (st : build_state) (v : Z) : bool :=
  block_ends n st v && (blockIndex st =? BLOCKS_IN_SUPERBLOCK - 1).

(** The round is the one that closes the first L0 region. *)
Definition region_ends (n : Z) (st : build_state) (v : Z) : bool :=
  superblock_ends n st v
  && ((u64 (superblockIndex st + 2) >>> 1) =? SUPERBLOCKS_PER_L0).

(** ** The metadata words of a superblock *)

(** The two words for the base [base], already shifted into place, and the
    cumulative block counts [f 0], ..., [f 6], in the order in which
    [buildHelpers] puts the fields together. *)
Definition meta1 (base : Z) (f : Z -> Z) : Z :=
  base .| u64 ((f 0 .& 0xFFF) <<< 8) .| ((f 1 >>> 4) .& 0xFF).

Definition meta2 (f : Z -> Z) : Z :=
  0 .| u64 ((f 1 .& 0xF) <<< 60)
    .| u64 ((f 2 .& 0xFFF) <<< ((2 - 2) * 12))
    .| u64 ((f 3 .& 0xFFF) <<< ((3 - 2) * 12))
    .| u64 ((f 4 .& 0xFFF) <<< ((4 - 2) * 12))
    .| u64 ((f 5 .& 0xFFF) <<< ((5 - 2) * 12))
    .| u64 ((f 6 .& 0xFFF) <<< ((6 - 2) * 12)).

(** The counts of the blocks below [j] only. *)
Definition partial (j : Z) (f : Z -> Z) : Z -> Z :=
  fun t => if t <? j then f t else 0.

(** The number of set bits of superblock [q] up to the end of its block [t]. *)
Definition block_count (v : list Z) (q t : Z) : Z :=
  ones_between v (64 * q) (64 * q + 8 * (t + 1)).

(** The same, for the blocks that have a word in a vector of [n] words. *)
Definition stored_count (v : list Z) (n q t : Z) : Z :=
  if 64 * q + 8 * t <? n then block_count v q t else 0.

(** The base field of superblock [q], in place: the set bits since the start
    of its L0 region, as far as 44 bits hold them. *)
Definition block_base (v : list Z) (q : Z) : Z :=
  u64 (ones_between v (L0_start q) (64 * q) <<< 20).

(** ** The invariants of [buildHelpers] *)

(** The object as the constructor leaves it, with a vector of at least one
    and at most [2 ^ 57] words. *)
Record constructed (bv : bitvector) : Prop := Constructed {
  cn_words : words_ok (vector bv);
  cn_size : 1 <= vec_size (vector bv) <= 2 ^ 57;
  cn_L0 : L0SingleBlockData bv = 0;
  cn_one : oneCount bv = 0;
  cn_zero : zeroCount bv = 0;
  cn_lastOne : lastOnePos bv = 0;
  cn_lastZero : lastZeroPos bv = 0;
  cn_cache_0 : selectCache_0 bv = [];
  cn_cache_1 : selectCache_1 bv = []
}.

(** The counters of the loop before the round of word [v]. *)
Record shape (bv : bitvector) (v : Z) (st : build_state) : Prop := Shape {
  sh_vector : vector (this st) = vector bv;
  sh_word : wordIndex st = v mod 8;
  sh_block : blockIndex st = (v / 8) mod 8;
  sh_super : superblockIndex st = 2 * (v / 64);
  sh_size : vec_size (superBlocks (this st)) = 2 * (vec_size (vector bv) / 64) + 2
}.

(** The running counts before the round of word [v]. *)
Record counts (bv : bitvector) (v : Z) (st : build_state) : Prop := Counts {
  ct_one : oneCount (this st) = ones_words (vector bv) v;
  ct_zero : zeroCount (this st) = 64 * v - ones_words (vector bv) v;
  ct_super : superBlockOneCounter st = ones_between (vector bv) (64 * (v / 64)) v;
  ct_L0 : L0BlockOneCounter st = ones_between (vector bv) (L0_start (v / 64)) v;
  ct_data : L0SingleBlockData (this st)
            = if v / 64 <? SUPERBLOCKS_PER_L0 then 0
              else ones_words (vector bv) (64 * SUPERBLOCKS_PER_L0)
}.

(** The metadata before the round of word [v]: the builders hold the fields
    of the finished blocks of the current superblock, and the superblocks
    before it are stored. *)
Record metadata (bv : bitvector) (v : Z) (st : build_state) : Prop := Metadata {
  md_1 : metadata1Builder st
         = meta1 (block_base (vector bv) (v / 64))
             (partial ((v / 8) mod 8) (block_count (vector bv) (v / 64)));
  md_2 : metadata2Builder st
         = meta2 (partial ((v / 8) mod 8) (block_count (vector bv) (v / 64)));
  md_stored : forall q, 0 <= q < v / 64 ->
      vec_at (superBlocks (this st)) (2 * q)
      = meta1 (block_base (vector bv) q) (partial 7 (block_count (vector bv) q))
      /\ vec_at (superBlocks (this st)) (2 * q + 1)
         = meta2 (partial 7 (block_count (vector bv) q))
}.

(** A round in which a block ends only with its eighth word: every round
    but the last, and the last one too when the last word is the eighth of
    its block. *)
Definition regular (n v : Z) : Prop :=
  0 <= v < n /\ (v = n - 1 -> v mod 8 = 7).

(** What [buildHelpers] makes of a constructed object [bv]. *)
Record helpers (bv r : bitvector) : Prop := Helpers {
  hp_vector : vector r = vector bv;
  hp_one : oneCount r = ones_words (vector bv) (vec_size (vector bv));
  hp_zero : zeroCount r
            = 64 * vec_size (vector bv) - ones_words (vector bv) (vec_size (vector bv));
  hp_data : L0SingleBlockData r
            = if SUPERBLOCKS_PER_L0 <=? stored_in_loop (vec_size (vector bv))
              then ones_words (vector bv) (64 * SUPERBLOCKS_PER_L0) else 0;
  hp_size : vec_size (superBlocks r) = 2 * (vec_size (vector bv) / 64) + 2;
  hp_meta : forall q, 0 <= q <= vec_size (vector bv) / 64 ->
      vec_at (superBlocks r) (2 * q)
      = meta1 (block_base (vector bv) q)
          (stored_count (vector bv) (vec_size (vector bv)) q)
      /\ vec_at (superBlocks r) (2 * q + 1)
         = meta2 (stored_count (vector bv) (vec_size (vector bv)) q)
}.

(** Every round before round [v] is regular. *)
Definition regular_upto (n v : Z) : Prop :=
  0 <= v <= n /\ (v = n -> n mod 8 = 0).

(** [p] is what [lastOnePos] must hold after the first [m] words: zero
    while no bit is set, and afterwards the position of the last set bit. *)
Definition last_one_inv (v : list Z) (m p : Z) : Prop :=
  (p = 0 /\ forall i, 0 <= i < 64 * m -> bit_at v i = false)
  \/ (0 <= p < 64 * m /\ bit_at v p = true
      /\ forall i, p < i < 64 * m -> bit_at v i = false).

(** ** An input that reaches the second L0 region *)

(** The string of [n] characters 1. *)
Fixpoint ones_string (n : nat) : string :=
  match n with
  | O => EmptyString
  | S k => String "1" (ones_string k)
  end.

(** The number of bits before superblock number [SUPERBLOCKS_PER_L0], where
    [buildHelpers] takes its snapshot. *)
Definition first_region_bits : Z := 4096 * SUPERBLOCKS_PER_L0.

(** One bit more than the first region, all of them 1. *)
Definition long_ones : string := ones_string (Z.to_nat (first_region_bits + 1)).

(** The loop state in front of the round that completes superblock number
    [SUPERBLOCKS_PER_L0 - 1]: the eighth word of the eighth block is next. *)
Definition closing_round : build_state :=
  {| wordIndex := 7; blockIndex := 7;
     metadata1Builder := 0; metadata2Builder := 0;
     L0BlockOneCounter := 5; superBlockOneCounter := 5;
     superblockIndex := 2 * (SUPERBLOCKS_PER_L0 - 1);
     nextSelectCacheThreshold_0 := 8192;
     nextSelectCacheThreshold_1 := 8192;
     this := bitvector_ctor "1" |}.

(** ** The select caches *)

(** The number of bits that are not set in the first [m] words. *)
Definition zeros_words (v : list Z) (m : Z) : Z := 64 * m - ones_words v m.

(** What an entry [c] at index [j] of a select cache says once the first
    [v] words are read: [c] is the number of the superblock in whose words
    the running count [cum] reaches [8192 * (j + 1)]. *)
Definition cache_entry (cum : Z -> Z) (v j c : Z) : Prop :=
  0 <= c /\ 64 * c < v /\ cum (64 * c) < 8192 * (j + 1) <= cum (64 * (c + 1)).

(** A select cache and its next threshold before the round of word [v]. *)
Record cache_inv (cum : Z -> Z) (v threshold : Z) (cache : list Z) : Prop := CacheInv {
  ch_next : threshold = 8192 * (vec_size cache + 1);
  ch_range : threshold - 8192 <= cum v < threshold;
  ch_entry : forall j, 0 <= j < vec_size cache -> cache_entry cum v j (vec_at cache j)
}.

(** ** Strings that stay within the first L0 region *)

(** The word array of the string ends before superblock number
    [SUPERBLOCKS_PER_L0], so that [buildHelpers] takes no snapshot. *)
Definition in_first_region (str : string) : Prop :=
  str_length str < 4096 * SUPERBLOCKS_PER_L0 - 64.

(** ** The block fields of a superblock *)

(** Field [t] of the two metadata words of a superblock, for [t] from 0 to
    6, as [rank_1] reads it for the block [t + 1]. *)
Definition block_field (metadata1 metadata2 t : Z) : Z :=
  if t =? 0 then (metadata1 >>> 8) .& 0xFFF
  else if t =? 1 then ((metadata1 .& 0xFF) <<< 4) .| (metadata2 >>> 60)
  else (metadata2 >>> ((t - 2) * 12)) .& 0xFFF.

(** The string of [n] characters 0. *)
Fixpoint zeros_string (n : nat) : string :=
  match n with
  | O => EmptyString
  | S k => String "0" (zeros_string k)
  end.

(** * The driver, [src/main.cpp] *)

(** ** [struct command] *)

Record command : Type := Command {
  cmd : ascii;
  bitValue : Z;
  position : Z;
  reply : Z
}.

(** ** The pattern of [getCommand]

    [std::regex_search] with the ECMAScript pattern
    [^(\baccess\b|\brank\b|\bselect\b) (\d+)(?: (\d+))?\r?$], where [^] and
    [$] stand for the two ends of the line.  A keyword at the start of the
    line that is followed by a space always lies between two word
    boundaries, and a run of digits that is followed by a space, by a
    carriage return or by the end of the line can only be matched whole, so
    the match is found by reading the line from left to right. *)

(** [\d] in the classic locale. *)
Definition is_digit (c : ascii) : bool :=
  (48 <=? char_code c) && (char_code c <=? 57).

(** The longest run of digits at the start of a string, and what follows. *)
Fixpoint span_digits (s : string) : string * string :=
  match s with
  | EmptyString => (EmptyString, EmptyString)
  | String c rest =>
      if is_digit c then
        let '(d, r) := span_digits rest in (String c d, r)
      else (EmptyString, s)
  end.

(** The string after a literal prefix. *)
Fixpoint after_prefix (p s : string) : option string :=
  match p with
  | EmptyString => Some s
  | String a p' =>
      match s with
      | EmptyString => None
      | String b s' => if Ascii.eqb a b then after_prefix p' s' else None
      end
  end.

Definition is_empty (s : string) : bool :=
  match s with
  | EmptyString => true
  | String _ _ => false
  end.

(** The first group and the space after it. *)
Definition match_keyword (line : string) : option (string * string) :=
  match after_prefix "access " line with
  | Some r => Some ("access"%string, r)
  | None =>
      match after_prefix "rank " line with
      | Some r => Some ("rank"%string, r)
      | None =>
          match after_prefix "select " line with
          | Some r => Some ("select"%string, r)
          | None => None
          end
      end
  end.

(** The carriage return of a line that was written on Windows. *)
Definition carriage_return : string := String "013" EmptyString.

(** The three groups of a match: [matches[1]], [matches[2]], and
    [matches[3]] when it took part in the match. *)
Definition regex_search (line : string) : option (string * string * option string) :=
  match match_keyword line with
  | None => None
  | Some (keyword, r) =>
      let '(first, r1) := span_digits r in
      if is_empty first then None
      else
        let '(second, r2) :=
          match after_prefix " " r1 with
          | None => (None, r1)
          | Some r1' =>
              let '(d, r') := span_digits r1' in
              if is_empty d then (None, r1) else (Some d, r')
          end in
        if is_empty r2 || String.eqb r2 carriage_return
        then Some (keyword, first, second)
        else None
  end.

(** ** [std::stoll] and [std::stoi] on a string of digits *)

Fixpoint digits_value_from (acc : Z) (s : string) : Z :=
  match s with
  | EmptyString => acc
  | String c rest => digits_value_from (10 * acc + (char_code c - 48)) rest
  end.

Definition digits_value (s : string) : Z := digits_value_from 0 s.

(** [None] stands for the [std::out_of_range] that both functions throw for
    a value that the result type does not hold. *)
Definition stoll (s : string) : option Z :=
  if digits_value s <=? 2 ^ 63 - 1 then Some (digits_value s) else None.

Definition stoi (s : string) : option Z :=
  if digits_value s <=? 2 ^ 31 - 1 then Some (digits_value s) else None.

(** The conversion of a [long long] to [int]. *)
Definition int_of (x : Z) : Z := (x + 2 ^ 31) mod 2 ^ 32 - 2 ^ 31.

(** ** [getCommand] *)

Definition first_char (s : string) : ascii :=
  match s with
  | EmptyString => zero
  | String c _ => c
  end.

(** [None] when [std::stoll] or [std::stoi] throws. *)
Definition getCommand (line : string) : option command :=
  match regex_search line with
  | Some (keyword, first, second) =>
      let commandChar := first_char keyword in
      if Ascii.eqb commandChar "a" then
        match stoll first with
        | None => None
        | Some p =>
            Some {| cmd := commandChar; bitValue := 0;
                    position := u64 p; reply := 0 |}
        end
      else
        match stoi first with
        | None => None
        | Some b =>
            match (match second with
                   | Some d => stoll d
                   | None => Some 0
                   end) with
            | None => None
            | Some p =>
                Some {| cmd := commandChar; bitValue := u8 b;
                        position := u64 (int_of p); reply := 0 |}
            end
        end
  | None => Some {| cmd := "a"; bitValue := 0; position := 0; reply := 0 |}
  end.

(** ** [processCommand]

    [None] when the model of [select] runs out of fuel. *)
Definition processCommand (c : command) (vect : bitvector) : option command :=
  if Ascii.eqb (cmd c) "a" then
    Some {| cmd := cmd c; bitValue := bitValue c; position := position c;
            reply := access vect (position c) |}
  else if Ascii.eqb (cmd c) "r" then
    Some {| cmd := cmd c; bitValue := bitValue c; position := position c;
            reply := rank vect (position c) (bitValue c) |}
  else if Ascii.eqb (cmd c) "s" then
    match select vect (position c) (bitValue c) with
    | None => None
    | Some p =>
        Some {| cmd := cmd c; bitValue := bitValue c; position := position c;
                reply := p |}
    end
  else Some c.

(** ** The replies of [main]

    The number that [main] prints for a command line: the line is parsed
    by [getCommand], the bit string is constructed and [buildHelpers] is
    called, and [processCommand] fills in the reply. *)
Definition main_reply (vectorStr line : string) : option Z :=
  match getCommand line with
  | None => None
  | Some c =>
      match processCommand c (built vectorStr) with
      | None => None
      | Some c' => Some (reply c')
      end
  end.

(** ** Command lines *)

(** A string of digits only. *)
Fixpoint all_digits (s : string) : bool :=
  match s with
  | EmptyString => true
  | String c rest => is_digit c && all_digits rest
  end.

(** A number as the driver's input has it: one digit at least. *)
Definition number (s : string) : Prop := all_digits s = true /\ is_empty s = false.

(** The end of a line, with the carriage return of Windows or without. *)
Definition line_end (cr : bool) : string := if cr then carriage_return else EmptyString.

(** * Machine integers and words *)

Lemma wrap_small w x : 0 <= x < 2 ^ w -> wrap w x = x.
Proof. intros H. unfold wrap. apply Z.mod_small. exact H. Qed.

Lemma wrap_range w x : 0 <= w -> 0 <= wrap w x < 2 ^ w.
Proof. intros H. unfold wrap. apply Z.mod_pos_bound. apply Z.pow_pos_nonneg; lia. Qed.

Lemma u64_small x : 0 <= x < 2 ^ 64 -> u64 x = x.
Proof. apply wrap_small. Qed.

Lemma u32_small x : 0 <= x < 2 ^ 32 -> u32 x = x.
Proof. apply wrap_small. Qed.

Lemma u16_small x : 0 <= x < 2 ^ 16 -> u16 x = x.
Proof. apply wrap_small. Qed.

Lemma u8_small x : 0 <= x < 2 ^ 8 -> u8 x = x.
Proof. apply wrap_small. Qed.

Lemma u64_range x : 0 <= u64 x < 2 ^ 64.
Proof. apply wrap_range. lia. Qed.

Lemma pos_popcount_pos p : 0 < pos_popcount p.
Proof. induction p; simpl; lia. Qed.

Lemma popcount_nonneg x : 0 <= popcount x.
Proof. destruct x; simpl; try lia. pose proof (pos_popcount_pos p). lia. Qed.

Lemma popcount_double x : 0 <= x -> popcount (2 * x) = popcount x.
Proof. destruct x; intros; try reflexivity; lia. Qed.

Lemma popcount_succ_double x : 0 <= x -> popcount (2 * x + 1) = 1 + popcount x.
Proof. destruct x; intros; try reflexivity; lia. Qed.

(** A non-negative number is twice its half plus its lowest bit. *)
Lemma half_and_bit x : x = 2 * (x / 2) + Z.b2z (Z.testbit x 0).
Proof.
  rewrite Z.bit0_odd. pose proof (Z.div_mod x 2).
  rewrite Zmod_odd in H. destruct (Z.odd x); simpl; lia.
Qed.

Lemma popcount_half x :
  0 <= x -> popcount x = popcount (x / 2) + Z.b2z (Z.testbit x 0).
Proof.
  intros Hx. assert (Hh : 0 <= x / 2) by (apply Z.div_pos; lia).
  rewrite (half_and_bit x) at 1.
  destruct (Z.testbit x 0); simpl Z.b2z.
  - rewrite popcount_succ_double by exact Hh. lia.
  - rewrite Z.add_0_r, popcount_double by exact Hh. lia.
Qed.

Lemma popcount_bound k x : 0 <= k -> 0 <= x < 2 ^ k -> popcount x <= k.
Proof.
  intros Hk. revert x. pattern k. apply natlike_ind; [| | exact Hk].
  - intros x Hx. assert (x = 0) by (simpl in Hx; lia). subst. simpl. lia.
  - intros j Hj IH x Hx. rewrite Z.pow_succ_r in Hx by lia.
    rewrite popcount_half by lia.
    assert (0 <= x / 2 < 2 ^ j) by (split; [apply Z.div_pos; lia | apply Z.div_lt_upper_bound; lia]).
    specialize (IH (x / 2) H).
    destruct (Z.testbit x 0); simpl Z.b2z; lia.
Qed.

Lemma popcount_word x : 0 <= x < 2 ^ 64 -> 0 <= popcount x <= 64.
Proof.
  intros H. split; [apply popcount_nonneg | apply popcount_bound; lia].
Qed.

(** The number of set bits below position [b + 1]. *)
Lemma popcount_low_succ b x :
  0 <= b -> 0 <= x ->
  popcount (x mod 2 ^ (b + 1)) = popcount (x mod 2 ^ b) + Z.b2z (Z.testbit x b).
Proof.
  intros Hb. revert x. pattern b. apply natlike_ind; [| | exact Hb].
  - intros x Hx. change (2 ^ (0 + 1)) with 2. change (2 ^ 0) with 1.
    rewrite Z.mod_1_r. rewrite Z.bit0_odd, Zmod_odd.
    destruct (Z.odd x); reflexivity.
  - intros j Hj IH x Hx.
    assert (Hh : 0 <= x / 2) by (apply Z.div_pos; lia).
    assert (Hs : forall k, 0 <= k ->
              x mod 2 ^ (Z.succ k) = 2 * ((x / 2) mod 2 ^ k) + Z.b2z (Z.testbit x 0)).
    { intros k Hk. rewrite Z.pow_succ_r by lia.
      pose proof (Z.pow_pos_nonneg 2 k ltac:(lia) Hk) as Hp.
      rewrite Z.rem_mul_r by lia.
      rewrite Z.bit0_odd, Zmod_odd. destruct (Z.odd x); simpl Z.b2z; lia. }
    replace (Z.succ j + 1) with (Z.succ (j + 1)) by lia.
    rewrite (Hs (j + 1)) by lia. rewrite (Hs j) by lia.
    assert (Hm : forall k, 0 <= k -> 0 <= (x / 2) mod 2 ^ k).
    { intros k Hk. apply Z.mod_pos_bound. apply Z.pow_pos_nonneg; lia. }
    assert (Hpc : forall y, 0 <= y ->
              popcount (2 * y + Z.b2z (Z.testbit x 0)) = popcount y + Z.b2z (Z.testbit x 0)).
    { intros y Hy. destruct (Z.testbit x 0); simpl Z.b2z.
      - rewrite popcount_succ_double by lia. lia.
      - rewrite Z.add_0_r, popcount_double by lia. lia. }
    rewrite !Hpc by (apply Hm; lia).
    rewrite IH by exact Hh.
    assert (Ht : Z.testbit x (Z.succ j) = Z.testbit (x / 2) j).
    { rewrite <- Z.div2_div, Z.div2_spec, Z.shiftr_spec by lia. reflexivity. }
    rewrite Ht. lia.
Qed.

Lemma land_low x b : 0 <= b -> x .& (2 ^ b - 1) = x mod 2 ^ b.
Proof.
  intros Hb. rewrite <- Z.land_ones by exact Hb. f_equal.
  rewrite Z.ones_equiv. lia.
Qed.

(** * The word array as a sequence of bits *)

Lemma vec_at_range v i : words_ok v -> 0 <= vec_at v i < 2 ^ 64.
Proof.
  intros Hv. unfold vec_at. destruct (i <? 0); [lia |].
  destruct (v !! Z.to_nat i) as [w |] eqn:E; simpl; [| lia].
  eapply Forall_lookup_1 in Hv; [exact Hv | exact E].
Qed.

Lemma vec_at_lookup v i w :
  0 <= i -> v !! Z.to_nat i = Some w -> vec_at v i = w.
Proof.
  intros Hi E. unfold vec_at. destruct (i <? 0) eqn:L; [lia |]. rewrite E. reflexivity.
Qed.

Lemma vec_at_outside v i : vec_size v <= i -> vec_at v i = 0.
Proof.
  intros Hi. unfold vec_at, vec_size in *. destruct (i <? 0); [reflexivity |].
  rewrite lookup_ge_None_2; [reflexivity | lia].
Qed.

Lemma ones_words_succ v m :
  0 <= m -> ones_words v (m + 1) = ones_words v m + popcount (vec_at v m).
Proof.
  intros Hm. unfold ones_words.
  replace (Z.to_nat (m + 1)) with (S (Z.to_nat m)) by lia.
  simpl. rewrite Z2Nat.id by exact Hm. reflexivity.
Qed.

Lemma ones_words_0 v : ones_words v 0 = 0.
Proof. reflexivity. Qed.

Lemma ones_before_succ v i :
  words_ok v -> 0 <= i ->
  ones_before v (i + 1) = ones_before v i + Z.b2z (bit_at v i).
Proof.
  intros Hv Hi. unfold ones_before, bit_at.
  pose proof (Z.mod_pos_bound i 64 ltac:(lia)) as Hb.
  pose proof (Z.div_mod i 64 ltac:(lia)) as Hdm.
  assert (Hq : 0 <= i / 64) by (apply Z.div_pos; lia).
  pose proof (vec_at_range v (i / 64) Hv) as Hw.
  destruct (Z.eq_dec (i mod 64) 63) as [E | E].
  - assert (Hd : (i + 1) / 64 = i / 64 + 1).
    { symmetry. apply Z.div_unique with (r := 0); lia. }
    assert (Hm : (i + 1) mod 64 = 0).
    { symmetry. apply Z.mod_unique with (q := i / 64 + 1); lia. }
    rewrite Hd, Hm, E. rewrite ones_words_succ by exact Hq.
    change (2 ^ 0 - 1) with 0. rewrite Z.land_0_r. simpl (popcount 0).
    rewrite land_low by lia.
    pose proof (popcount_low_succ 63 (vec_at v (i / 64)) ltac:(lia) ltac:(lia)) as Hp.
    change (63 + 1) with 64 in Hp. rewrite Z.mod_small in Hp by exact Hw. lia.
  - assert (Hd : (i + 1) / 64 = i / 64).
    { symmetry. apply Z.div_unique with (r := i mod 64 + 1); lia. }
    assert (Hm : (i + 1) mod 64 = i mod 64 + 1).
    { symmetry. apply Z.mod_unique with (q := i / 64); lia. }
    rewrite Hd, Hm. rewrite !land_low by lia.
    rewrite popcount_low_succ by lia. lia.
Qed.

Lemma ones_before_words v m : 0 <= m -> ones_before v (64 * m) = ones_words v m.
Proof.
  intros Hm. unfold ones_before.
  replace (64 * m) with (m * 64) by lia.
  rewrite Z.div_mul, Z.mod_mul by lia.
  change (2 ^ 0 - 1) with 0. rewrite Z.land_0_r. simpl. lia.
Qed.

(** * Vectors *)

Lemma vec_size_set v j w : vec_size (vec_set v j w) = vec_size v.
Proof.
  unfold vec_set, vec_size. destruct (j <? 0); [reflexivity |].
  rewrite length_insert. reflexivity.
Qed.

Lemma vec_at_set_eq v j w : 0 <= j < vec_size v -> vec_at (vec_set v j w) j = w.
Proof.
  intros H. unfold vec_at, vec_set, vec_size in *.
  destruct (j <? 0) eqn:E; [lia |].
  rewrite list_lookup_insert_eq by lia. reflexivity.
Qed.

Lemma vec_at_set_ne v j k w : j <> k -> vec_at (vec_set v j w) k = vec_at v k.
Proof.
  intros H. unfold vec_at, vec_set.
  destruct (k <? 0) eqn:Ek; [reflexivity |].
  destruct (j <? 0) eqn:Ej; [reflexivity |].
  rewrite list_lookup_insert_ne by lia. reflexivity.
Qed.

Lemma words_ok_set v j w : words_ok v -> 0 <= w < 2 ^ 64 -> words_ok (vec_set v j w).
Proof.
  intros Hv Hw. unfold vec_set. destruct (j <? 0); [exact Hv |].
  unfold words_ok in *. rewrite Forall_lookup in *. intros i x Hx.
  destruct (decide (Z.to_nat j = i)) as [<- | Hne].
  - destruct (decide (Z.to_nat j < length v)%nat) as [Hl | Hl].
    + rewrite list_lookup_insert_eq in Hx by exact Hl. inversion Hx; subst. exact Hw.
    + rewrite list_insert_ge in Hx by lia. eapply Hv; eassumption.
  - rewrite list_lookup_insert_ne in Hx by exact Hne. eapply Hv; eassumption.
Qed.

Lemma words_ok_replicate k : words_ok (replicate k 0).
Proof. unfold words_ok. apply Forall_replicate. lia. Qed.

Lemma vec_at_replicate k i : vec_at (replicate k 0) i = 0.
Proof.
  unfold vec_at. destruct (i <? 0); [reflexivity |].
  destruct (replicate k 0 !! Z.to_nat i) eqn:E; [| reflexivity].
  apply lookup_replicate in E. destruct E as [-> _]. reflexivity.
Qed.

Lemma vec_size_replicate k : vec_size (replicate k 0) = Z.of_nat k.
Proof. unfold vec_size. rewrite length_replicate. reflexivity. Qed.

(** * The constructor *)

Lemma char_test c :
  ((char_code c >? 49) || (char_code c <? 48))
  = negb (Ascii.eqb c "1" || Ascii.eqb c "0").
Proof. destruct c as [[] [] [] [] [] [] [] []]; reflexivity. Qed.

Lemma char_code_1 c : Ascii.eqb c "1" = true -> char_code c - 48 = 1.
Proof. intros H. apply Ascii.eqb_eq in H. subst. reflexivity. Qed.

Lemma char_code_0 c : Ascii.eqb c "0" = true -> char_code c - 48 = 0.
Proof. intros H. apply Ascii.eqb_eq in H. subst. reflexivity. Qed.

(** A character other than 0 and 1 leaves the state as it is. *)
Lemma ctor_step_skip st c :
  Ascii.eqb c "1" = false -> Ascii.eqb c "0" = false -> ctor_step st c = st.
Proof.
  intros H1 H0. unfold ctor_step. rewrite char_test, H1, H0. reflexivity.
Qed.

Lemma nth_snoc_old (l : list bool) x i :
  (i < length l)%nat -> nth i (l ++ [x]) false = nth i l false.
Proof. intros H. apply app_nth1. exact H. Qed.

Lemma nth_snoc_new (l : list bool) x : nth (length l) (l ++ [x]) false = x.
Proof. rewrite app_nth2 by lia. rewrite Nat.sub_diag. reflexivity. Qed.

Lemma nth_snoc_out (l : list bool) x i :
  (length l < i)%nat -> nth i (l ++ [x]) false = false.
Proof. intros H. apply nth_overflow. rewrite length_app. simpl. lia. Qed.

Lemma bit_at_set v j w i :
  0 <= i -> 0 <= j < vec_size v ->
  bit_at (vec_set v j w) i
  = if i / 64 =? j then Z.testbit w (i mod 64) else bit_at v i.
Proof.
  intros Hi Hj. unfold bit_at. destruct (Z.eqb_spec (i / 64) j) as [E | E].
  - rewrite E, vec_at_set_eq by exact Hj. reflexivity.
  - rewrite vec_at_set_ne by lia. reflexivity.
Qed.

Lemma lor_below k a b :
  0 <= k -> 0 <= a < 2 ^ k -> 0 <= b < 2 ^ k -> 0 <= a .| b < 2 ^ k.
Proof.
  intros Hk Ha Hb. split; [apply Z.lor_nonneg; lia |].
  destruct (Z.eq_dec a 0) as [-> | Na]; [rewrite Z.lor_0_l; lia |].
  destruct (Z.eq_dec b 0) as [-> | Nb]; [rewrite Z.lor_0_r; lia |].
  assert (0 < a .| b).
  { assert (0 <= a .| b) by (apply Z.lor_nonneg; lia).
    assert (a .| b <> 0) by (intros E; apply Z.lor_eq_0_iff in E; lia). lia. }
  apply Z.log2_lt_pow2; [lia |].
  rewrite Z.log2_lor by lia.
  assert (Z.log2 a < k) by (apply Z.log2_lt_pow2; lia).
  assert (Z.log2 b < k) by (apply Z.log2_lt_pow2; lia).
  lia.
Qed.

(** Accepting the bit [x] keeps the invariant, for the sequence extended by [x]. *)
Lemma ctor_inv_accept n l st c x :
  ctor_inv n l st ->
  Z.of_nat (length l) / 64 < n -> n <= 2 ^ 58 ->
  Ascii.eqb c "1" || Ascii.eqb c "0" = true ->
  char_code c - 48 = Z.b2z x ->
  ctor_inv n (l ++ [x]) (ctor_step st c).
Proof.
  intros [Hin Hout Hcur Hsize Hwords Hdone Hpart Hrest] Hn Hn58 Hacc Hx.
  set (m := Z.of_nat (length l)) in *.
  assert (Hm : 0 <= m) by (unfold m; lia).
  pose proof (Z.mod_pos_bound m 64 ltac:(lia)) as Hb.
  pose proof (Z.div_mod m 64 ltac:(lia)) as Hdm.
  assert (Hq : 0 <= m / 64) by (apply Z.div_pos; lia).
  assert (Hlen : Z.of_nat (length (l ++ [x])) = m + 1).
  { rewrite length_app. simpl. unfold m. lia. }
  unfold ctor_step. rewrite char_test, Hacc. simpl negb. cbv iota.
  rewrite Hx, Hin.
  assert (Hsh : 0 <= Z.b2z x <<< (m mod 64) < 2 ^ 64).
  { rewrite Z.shiftl_mul_pow2 by lia.
    assert (0 < 2 ^ (m mod 64) <= 2 ^ 63).
    { split; [apply Z.pow_pos_nonneg; lia | apply Z.pow_le_mono_r; lia]. }
    destruct x; simpl Z.b2z; lia. }
  rewrite (u64_small (Z.b2z x <<< (m mod 64))) by exact Hsh.
  set (cur' := currentConstruction st .| (Z.b2z x <<< (m mod 64))).
  assert (Hbits : forall b, 0 <= b < 64 ->
            Z.testbit cur' b
            = nth (Z.to_nat (64 * (m / 64) + b)) (l ++ [x]) false).
  { intros b Hb'. unfold cur'. rewrite Z.lor_spec, Z.shiftl_spec by lia.
    rewrite Hpart by exact Hb'.
    destruct (Z.lt_trichotomy b (m mod 64)) as [L | [L | L]].
    - rewrite nth_snoc_old by (unfold m in *; lia).
      rewrite (Z.testbit_neg_r _ (b - m mod 64)) by lia.
      apply orb_false_r.
    - replace (Z.to_nat (64 * (m / 64) + b)) with (length l) by (unfold m in *; lia).
      rewrite nth_snoc_new. rewrite nth_overflow by lia.
      replace (b - m mod 64) with 0 by lia. destruct x; reflexivity.
    - rewrite nth_snoc_out by (unfold m in *; lia).
      rewrite nth_overflow by (unfold m in *; lia).
      replace (Z.testbit (Z.b2z x) (b - m mod 64)) with false; [reflexivity |].
      destruct x; simpl Z.b2z.
      + symmetry. apply Z.bits_above_log2; simpl; lia.
      + rewrite Z.bits_0. reflexivity. }
  assert (Hcur' : 0 <= cur' < 2 ^ (m mod 64 + 1)).
  { unfold cur'. apply lor_below; [lia | |].
    - rewrite Z.pow_add_r by lia. lia.
    - rewrite Z.shiftl_mul_pow2, Z.pow_add_r by lia.
      assert (0 < 2 ^ (m mod 64)) by (apply Z.pow_pos_nonneg; lia).
      destruct x; simpl Z.b2z; lia. }
  destruct (Z.geb_spec (m mod 64 + 1) 64) as [G | G].
  - (* the word is complete *)
    assert (E63 : m mod 64 = 63) by lia.
    assert (Hd : (m + 1) / 64 = m / 64 + 1).
    { symmetry. apply Z.div_unique with (r := 0); lia. }
    assert (Hmm : (m + 1) mod 64 = 0).
    { symmetry. apply Z.mod_unique with (q := m / 64 + 1); lia. }
    split; simpl; rewrite ?Hlen, ?Hd, ?Hmm, ?Hout.
    + reflexivity.
    + apply u64_small. lia.
    + simpl. lia.
    + rewrite vec_size_set. exact Hsize.
    + apply words_ok_set; [exact Hwords |]. rewrite E63 in Hcur'. simpl in Hcur'. lia.
    + intros i Hi. rewrite bit_at_set by lia.
      destruct (Z.eqb_spec (i / 64) (m / 64)) as [E | E].
      * rewrite Hbits by (apply Z.mod_pos_bound; lia).
        f_equal. rewrite <- E. pose proof (Z.div_mod i 64). lia.
      * assert (i / 64 < m / 64).
        { assert (i / 64 < m / 64 + 1) by (apply Z.div_lt_upper_bound; lia). lia. }
        rewrite Hdone.
        -- rewrite nth_snoc_old; [reflexivity |].
           pose proof (Z.div_mod i 64 ltac:(lia)). pose proof (Z.mod_pos_bound i 64 ltac:(lia)).
           unfold m in *. lia.
        -- pose proof (Z.div_mod i 64 ltac:(lia)). pose proof (Z.mod_pos_bound i 64 ltac:(lia)). lia.
    + intros b Hb'. rewrite Z.bits_0. symmetry. apply nth_overflow.
      rewrite length_app. simpl. unfold m in *. lia.
    + intros j Hj. rewrite vec_at_set_ne by lia. apply Hrest. lia.
  - assert (Hd : (m + 1) / 64 = m / 64).
    { symmetry. apply Z.div_unique with (r := m mod 64 + 1); lia. }
    assert (Hmm : (m + 1) mod 64 = m mod 64 + 1).
    { symmetry. apply Z.mod_unique with (q := m / 64); lia. }
    split; simpl; rewrite ?Hlen, ?Hd, ?Hmm, ?Hout.
    + reflexivity.
    + reflexivity.
    + exact Hcur'.
    + exact Hsize.
    + exact Hwords.
    + intros i Hi. rewrite Hdone by exact Hi.
      rewrite nth_snoc_old; [reflexivity | unfold m in *; lia].
    + exact Hbits.
    + exact Hrest.
Qed.

Lemma ctor_inv_loop n str : forall l st,
  ctor_inv n l st ->
  Z.of_nat (length l) + str_length str < 64 * n -> n <= 2 ^ 58 ->
  ctor_inv n (l ++ bits str) (ctor_loop str st).
Proof.
  induction str as [| c rest IH]; intros l st Hinv Hlen Hn.
  - simpl. rewrite app_nil_r. exact Hinv.
  - unfold str_length in *. simpl String.length in Hlen.
    assert (Hq : Z.of_nat (length l) / 64 < n) by (apply Z.div_lt_upper_bound; lia).
    simpl ctor_loop. simpl bits.
    destruct (Ascii.eqb c "1") eqn:E1; [| destruct (Ascii.eqb c "0") eqn:E0].
    + replace (l ++ true :: bits rest) with ((l ++ [true]) ++ bits rest)
        by (rewrite <- app_assoc; reflexivity).
      apply IH; [| rewrite length_app; simpl; lia | exact Hn].
      apply ctor_inv_accept; try assumption.
      * rewrite E1. reflexivity.
      * apply char_code_1. exact E1.
    + replace (l ++ false :: bits rest) with ((l ++ [false]) ++ bits rest)
        by (rewrite <- app_assoc; reflexivity).
      apply IH; [| rewrite length_app; simpl; lia | exact Hn].
      apply ctor_inv_accept; try assumption.
      * rewrite E1, E0. reflexivity.
      * apply char_code_0. exact E0.
    + rewrite ctor_step_skip by assumption.
      apply IH; [exact Hinv | lia | exact Hn].
Qed.

Lemma ctor_inv_init k :
  ctor_inv (Z.of_nat k) []
    {| innerIndex := 0; outerIndex := 0; currentConstruction := 0;
       ctor_vector := replicate k 0 |}.
Proof.
  split; cbn [innerIndex outerIndex currentConstruction ctor_vector length].
  - reflexivity.
  - reflexivity.
  - change (Z.of_nat 0 mod 64) with 0. lia.
  - apply vec_size_replicate.
  - apply words_ok_replicate.
  - intros i Hi. change (Z.of_nat 0 / 64) with 0 in Hi. lia.
  - intros b Hb. rewrite Z.bits_0. destruct (Z.to_nat _); reflexivity.
  - intros j Hj. apply vec_at_replicate.
Qed.

Lemma bits_length_le str : Z.of_nat (length (bits str)) <= str_length str.
Proof.
  unfold str_length. induction str as [| c rest IH]; simpl; [lia |].
  destruct (Ascii.eqb c "1"); [simpl; lia |].
  destruct (Ascii.eqb c "0"); simpl; lia.
Qed.

Lemma str_length_nonneg str : 0 <= str_length str.
Proof. unfold str_length. lia. Qed.

Lemma shiftr_6 x : x >>> 6 = x / 64.
Proof. rewrite Z.shiftr_div_pow2 by lia. reflexivity. Qed.

Lemma word_count_bits str : bit_length str < 64 * word_count str.
Proof.
  unfold word_count, bit_length. pose proof (bits_length_le str).
  pose proof (Z.div_mod (str_length str) 64 ltac:(lia)).
  pose proof (Z.mod_pos_bound (str_length str) 64 ltac:(lia)). lia.
Qed.

(** What the constructor leaves in [vector]. *)
Lemma ctor_vector_spec str :
  string_fits str ->
  vec_size (vector (bitvector_ctor str)) = word_count str
  /\ words_ok (vector (bitvector_ctor str))
  /\ forall i, 0 <= i -> bit_at (vector (bitvector_ctor str)) i = true_bit str i.
Proof.
  intros Hfit. unfold string_fits in Hfit.
  pose proof (str_length_nonneg str) as Hlen.
  pose proof (bits_length_le str) as Hbl.
  pose proof (word_count_bits str) as Hwc. unfold bit_length in Hwc.
  assert (Hn : 0 < word_count str <= 2 ^ 58).
  { unfold word_count. split.
    - assert (0 <= str_length str / 64) by (apply Z.div_pos; lia). lia.
    - assert (str_length str / 64 < 2 ^ 57) by (apply Z.div_lt_upper_bound; lia). lia. }
  unfold bitvector_ctor. cbv zeta. simpl vector.
  rewrite shiftr_6. fold (word_count str).
  rewrite u64_small by lia.
  pose proof (ctor_inv_loop (word_count str) str []
                {| innerIndex := 0; outerIndex := 0; currentConstruction := 0;
                   ctor_vector := replicate (Z.to_nat (word_count str)) 0 |}) as H.
  simpl app in H.
  set (st := ctor_loop str _) in *.
  destruct H as [Hin Hout Hcur Hsize Hwords Hdone Hpart Hrest].
  - rewrite <- (Z2Nat.id (word_count str)) at 1 by lia. apply ctor_inv_init.
  - simpl. unfold word_count.
    pose proof (Z.div_mod (str_length str) 64 ltac:(lia)).
    pose proof (Z.mod_pos_bound (str_length str) 64 ltac:(lia)). lia.
  - lia.
  - set (m := Z.of_nat (length (bits str))) in *.
    assert (Hm : 0 <= m) by (unfold m; lia).
    pose proof (Z.mod_pos_bound m 64 ltac:(lia)) as Hb.
    pose proof (Z.div_mod m 64 ltac:(lia)) as Hdm.
    assert (Hq : 0 <= m / 64 < word_count str).
    { split; [apply Z.div_pos; lia | apply Z.div_lt_upper_bound; lia]. }
    split; [| split].
    + rewrite vec_size_set. exact Hsize.
    + apply words_ok_set; [exact Hwords |].
      assert (2 ^ (m mod 64) <= 2 ^ 64) by (apply Z.pow_le_mono_r; lia). lia.
    + intros i Hi. rewrite Hout. rewrite bit_at_set by lia.
      unfold true_bit. destruct (i <? 0) eqn:Ei; [lia |].
      pose proof (Z.mod_pos_bound i 64 ltac:(lia)) as Hib.
      pose proof (Z.div_mod i 64 ltac:(lia)) as Hidm.
      destruct (Z.eqb_spec (i / 64) (m / 64)) as [E | E].
      * rewrite Hpart by exact Hib. f_equal. lia.
      * destruct (Z.lt_ge_cases (i / 64) (m / 64)) as [L | G].
        -- apply Hdone. lia.
        -- unfold bit_at. rewrite Hrest by exact G. rewrite Z.bits_0.
           symmetry. apply nth_overflow. unfold m in *. lia.
Qed.

(** * One round of [buildHelpers], field by field *)

Ltac step_cases :=
  unfold build_step, region_ends, superblock_ends, block_ends, step_ones;
  cbv zeta;
  repeat match goal with
         | |- context [?a =? ?b] => destruct (a =? b)
         | |- context [?a >? ?b] => destruct (a >? b)
         | |- context [?a <? ?b] => destruct (a <? b)
         | |- context [?a >=? ?b] => destruct (a >=? b)
         end;
  reflexivity.

Lemma build_upto_succ bv v :
  0 <= v ->
  build_upto bv (v + 1) = build_step (vec_size (vector bv)) (build_upto bv v) v.
Proof.
  intros Hv. unfold build_upto.
  rewrite seqZ_app by lia. rewrite fold_left_app.
  rewrite (seqZ_cons _ 1) by lia. rewrite seqZ_nil by lia.
  simpl. f_equal.
Qed.

Lemma build_upto_0 bv : build_upto bv 0 = build_init bv.
Proof. reflexivity. Qed.

Lemma step_vector n st v : vector (this (build_step n st v)) = vector (this st).
Proof. step_cases. Qed.

Lemma step_oneCount n st v :
  oneCount (this (build_step n st v)) = u64 (oneCount (this st) + step_ones st v).
Proof. step_cases. Qed.

Lemma step_zeroCount n st v :
  zeroCount (this (build_step n st v))
  = u64 (zeroCount (this st) + (64 - step_ones st v)).
Proof. step_cases. Qed.

Lemma step_wordIndex n st v :
  wordIndex (build_step n st v)
  = if block_ends n st v then 0 else u8 (wordIndex st + 1).
Proof. step_cases. Qed.

Lemma step_blockIndex n st v :
  blockIndex (build_step n st v)
  = if block_ends n st v
    then if blockIndex st =? BLOCKS_IN_SUPERBLOCK - 1 then 0 else u8 (blockIndex st + 1)
    else blockIndex st.
Proof. step_cases. Qed.

Lemma step_superblockIndex n st v :
  superblockIndex (build_step n st v)
  = if superblock_ends n st v then u64 (superblockIndex st + 2) else superblockIndex st.
Proof. step_cases. Qed.

Lemma step_superBlockOneCounter n st v :
  superBlockOneCounter (build_step n st v)
  = if superblock_ends n st v then 0
    else u64 (superBlockOneCounter st + step_ones st v).
Proof. step_cases. Qed.

Lemma step_L0BlockOneCounter n st v :
  L0BlockOneCounter (build_step n st v)
  = if region_ends n st v then 0
    else u64 (L0BlockOneCounter st + step_ones st v).
Proof. step_cases. Qed.

Lemma step_L0SingleBlockData n st v :
  L0SingleBlockData (this (build_step n st v))
  = if region_ends n st v then u64 (oneCount (this st) + step_ones st v)
    else L0SingleBlockData (this st).
Proof. step_cases. Qed.

Lemma step_metadata1Builder n st v :
  metadata1Builder (build_step n st v)
  = if block_ends n st v then
      if blockIndex st =? BLOCKS_IN_SUPERBLOCK - 1 then
        u64 (L0BlockOneCounter (build_step n st v) <<< 20)
      else if blockIndex st =? 0 then
        metadata1Builder st
        .| u64 ((u64 (superBlockOneCounter st + step_ones st v) .& 0xFFF) <<< 8)
      else if blockIndex st =? 1 then
        metadata1Builder st
        .| ((u64 (superBlockOneCounter st + step_ones st v) >>> 4) .& 0xFF)
      else metadata1Builder st
    else metadata1Builder st.
Proof. step_cases. Qed.

Lemma step_metadata2Builder n st v :
  metadata2Builder (build_step n st v)
  = if block_ends n st v then
      if blockIndex st =? BLOCKS_IN_SUPERBLOCK - 1 then 0
      else if blockIndex st =? 0 then metadata2Builder st
      else if blockIndex st =? 1 then
        metadata2Builder st
        .| u64 ((u64 (superBlockOneCounter st + step_ones st v) .& 0xF) <<< 60)
      else
        metadata2Builder st
        .| u64 ((u64 (superBlockOneCounter st + step_ones st v) .& 0xFFF)
                <<< ((blockIndex st - 2) * 12))
    else metadata2Builder st.
Proof. step_cases. Qed.

Lemma step_superBlocks n st v :
  superBlocks (this (build_step n st v))
  = if superblock_ends n st v then
      vec_set (vec_set (superBlocks (this st)) (superblockIndex st) (metadata1Builder st))
        (u64 (superblockIndex st + 1)) (metadata2Builder st)
    else superBlocks (this st).
Proof. step_cases. Qed.

Lemma step_lastOnePos n st v :
  lastOnePos (this (build_step n st v))
  = if step_ones st v >? 0
    then u64 (u64 (v <<< 6) + (63 - clzll (vec_at (vector (this st)) v)))
    else lastOnePos (this st).
Proof. step_cases. Qed.

Lemma step_lastZeroPos n st v :
  lastZeroPos (this (build_step n st v))
  = if step_ones st v <? 64
    then u64 (u64 (v <<< 6) + (63 - clzll (not64 (vec_at (vector (this st)) v))))
    else lastZeroPos (this st).
Proof. step_cases. Qed.

Lemma step_selectCache_1 n st v :
  selectCache_1 (this (build_step n st v))
  = if u64 (oneCount (this st) + step_ones st v) >=? nextSelectCacheThreshold_1 st
    then selectCache_1 (this st) ++ [u32 (superblockIndex st >>> 1)]
    else selectCache_1 (this st).
Proof. step_cases. Qed.

Lemma step_threshold_1 n st v :
  nextSelectCacheThreshold_1 (build_step n st v)
  = if u64 (oneCount (this st) + step_ones st v) >=? nextSelectCacheThreshold_1 st
    then u64 (nextSelectCacheThreshold_1 st + EVERY_OTHER_1_POS)
    else nextSelectCacheThreshold_1 st.
Proof. step_cases. Qed.

Lemma step_selectCache_0 n st v :
  selectCache_0 (this (build_step n st v))
  = if u64 (zeroCount (this st) + (64 - step_ones st v)) >=? nextSelectCacheThreshold_0 st
    then selectCache_0 (this st) ++ [u32 (superblockIndex st >>> 1)]
    else selectCache_0 (this st).
Proof. step_cases. Qed.

Lemma step_threshold_0 n st v :
  nextSelectCacheThreshold_0 (build_step n st v)
  = if u64 (zeroCount (this st) + (64 - step_ones st v)) >=? nextSelectCacheThreshold_0 st
    then u64 (nextSelectCacheThreshold_0 st + EVERY_OTHER_1_POS)
    else nextSelectCacheThreshold_0 st.
Proof. step_cases. Qed.

(** * The loop of [buildHelpers] *)

Lemma shiftr_1 x : x >>> 1 = x / 2.
Proof. rewrite Z.shiftr_div_pow2 by lia. reflexivity. Qed.

Lemma shiftl_1 x : x <<< 1 = x * 2.
Proof. rewrite Z.shiftl_mul_pow2 by lia. reflexivity. Qed.

Lemma shiftl_6 x : x <<< 6 = x * 64.
Proof. rewrite Z.shiftl_mul_pow2 by lia. reflexivity. Qed.

Lemma vec_size_nonneg v : 0 <= vec_size v.
Proof. unfold vec_size. lia. Qed.

Section Words.
Variable v : list Z.
Hypothesis Hv : words_ok v.

Lemma ones_between_succ a b :
  0 <= b -> ones_between v a (b + 1) = ones_between v a b + popcount (vec_at v b).
Proof. intros Hb. unfold ones_between. rewrite ones_words_succ by exact Hb. lia. Qed.

Lemma ones_between_same a : ones_between v a a = 0.
Proof. unfold ones_between. lia. Qed.

Lemma ones_between_range a b :
  0 <= a <= b -> 0 <= ones_between v a b <= 64 * (b - a).
Proof.
  intros [Ha Hab]. replace b with (a + (b - a)) by lia.
  assert (Hd : 0 <= b - a) by lia. revert Hd. generalize (b - a). clear Hab b.
  intros d Hd. pattern d. apply natlike_ind; [| | exact Hd].
  - rewrite Z.add_0_r, ones_between_same. lia.
  - intros x Hx IH. replace (a + Z.succ x) with (a + x + 1) by lia.
    rewrite ones_between_succ by lia.
    pose proof (popcount_word (vec_at v (a + x)) (vec_at_range v (a + x) Hv)).
    replace (a + x + 1 - a) with (x + 1) by lia.
    replace (a + x - a) with x in IH by lia. lia.
Qed.

Lemma ones_words_range m : 0 <= m -> 0 <= ones_words v m <= 64 * m.
Proof.
  intros Hm. pose proof (ones_between_range 0 m ltac:(lia)) as H.
  unfold ones_between in H. rewrite ones_words_0 in H. lia.
Qed.

Lemma ones_between_split a b c :
  ones_between v a c = ones_between v a b + ones_between v b c.
Proof. unfold ones_between. lia. Qed.

Lemma ones_words_mono a b : 0 <= a <= b -> ones_words v a <= ones_words v b.
Proof.
  intros H. pose proof (ones_between_range a b H). unfold ones_between in *. lia.
Qed.

(** Words outside the vector count as zero. *)
Lemma ones_between_outside a b :
  0 <= a -> vec_size v <= a <= b -> ones_between v a b = 0.
Proof.
  intros Ha [Hn Hab]. replace b with (a + (b - a)) by lia.
  assert (Hd : 0 <= b - a) by lia. revert Hd. generalize (b - a). clear Hab b.
  intros d Hd. pattern d. apply natlike_ind; [| | exact Hd].
  - rewrite Z.add_0_r. apply ones_between_same.
  - intros x Hx IH. replace (a + Z.succ x) with (a + x + 1) by lia.
    rewrite ones_between_succ by lia. rewrite IH.
    rewrite vec_at_outside by lia. reflexivity.
Qed.
End Words.

Section Build.
Variable bv : bitvector.
Hypothesis Hfresh : constructed bv.

Local Abbreviation W := (vector bv).
Local Abbreviation n := (vec_size (vector bv)).

Lemma n_range : 1 <= n <= 2 ^ 57.
Proof. exact (cn_size bv Hfresh). Qed.

Lemma word_range j : 0 <= vec_at W j < 2 ^ 64.
Proof. apply vec_at_range. exact (cn_words bv Hfresh). Qed.

Lemma word_ones j : 0 <= popcount (vec_at W j) <= 64.
Proof. apply popcount_word. apply word_range. Qed.

Lemma shape_init : shape bv 0 (build_init bv).
Proof.
  pose proof n_range as Hn. split; try reflexivity.
  simpl. rewrite vec_size_replicate.
  rewrite shiftr_6, shiftl_1.
  assert (0 <= n / 64 <= 2 ^ 51).
  { split; [apply Z.div_pos; lia | apply Z.div_le_upper_bound; lia]. }
  rewrite (u64_small (n / 64 * 2)) by lia. rewrite u64_small by lia. lia.
Qed.

(** Before the last word, a block ends with its eighth word only. *)
Lemma block_ends_inner v st :
  shape bv v st -> regular n v ->
  block_ends n st v = (v mod 8 =? 7).
Proof.
  intros Hs [Hv Hlast]. pose proof n_range as Hn. unfold block_ends.
  rewrite (sh_word _ _ _ Hs).
  pose proof (Z.mod_pos_bound v 8 ltac:(lia)).
  rewrite u8_small by lia. rewrite (u64_small (n - 1)) by lia.
  unfold WORDS_IN_BLOCK.
  destruct (Z.eqb_spec v (n - 1)); destruct (Z.eqb_spec (v mod 8 + 1) 8);
    destruct (Z.eqb_spec (v mod 8) 7); cbn [orb]; lia || reflexivity.
Qed.

Lemma superblock_ends_inner v st :
  shape bv v st -> regular n v ->
  superblock_ends n st v = (v mod 64 =? 63).
Proof.
  intros Hs Hr. pose proof (proj1 Hr) as Hv. unfold superblock_ends.
  rewrite (block_ends_inner v st Hs Hr), (sh_block _ _ _ Hs).
  unfold BLOCKS_IN_SUPERBLOCK.
  destruct (Z.eqb_spec (v mod 8) 7); destruct (Z.eqb_spec ((v / 8) mod 8) (8 - 1));
    destruct (Z.eqb_spec (v mod 64) 63); simpl; try reflexivity;
    exfalso; Z.div_mod_to_equations; lia.
Qed.

Lemma shape_step v st :
  shape bv v st -> regular n v ->
  shape bv (v + 1) (build_step n st v).
Proof.
  intros Hs Hr. pose proof (proj1 Hr) as Hv. pose proof n_range as Hn.
  pose proof (block_ends_inner v st Hs Hr) as Hbe.
  pose proof (superblock_ends_inner v st Hs Hr) as Hse.
  destruct Hs as [Hvec Hw Hb Hsb Hsz].
  pose proof (Z.mod_pos_bound v 8 ltac:(lia)) as Hm8.
  pose proof (Z.mod_pos_bound (v / 8) 8 ltac:(lia)) as Hm88.
  assert (Hq : 0 <= v / 64 <= 2 ^ 51).
  { split; [apply Z.div_pos; lia | apply Z.div_le_upper_bound; lia]. }
  split.
  - rewrite step_vector. exact Hvec.
  - rewrite step_wordIndex, Hbe, Hw.
    destruct (Z.eqb_spec (v mod 8) 7).
    + Z.div_mod_to_equations; lia.
    + rewrite u8_small by lia. Z.div_mod_to_equations; lia.
  - rewrite step_blockIndex, Hbe, Hb. unfold BLOCKS_IN_SUPERBLOCK.
    destruct (Z.eqb_spec (v mod 8) 7).
    + destruct (Z.eqb_spec ((v / 8) mod 8) (8 - 1)).
      * Z.div_mod_to_equations; lia.
      * rewrite u8_small by lia. Z.div_mod_to_equations; lia.
    + Z.div_mod_to_equations; lia.
  - rewrite step_superblockIndex, Hse, Hsb.
    destruct (Z.eqb_spec (v mod 64) 63).
    + rewrite u64_small by lia. Z.div_mod_to_equations; lia.
    + Z.div_mod_to_equations; lia.
  - rewrite step_superBlocks, Hse.
    destruct (Z.eqb_spec (v mod 64) 63).
    + rewrite !vec_size_set. exact Hsz.
    + exact Hsz.
Qed.

Lemma regular_upto_pred v :
  0 <= v -> regular_upto n (v + 1) -> regular_upto n v /\ regular n v.
Proof.
  intros Hv [Hle Hlast]. unfold regular_upto, regular.
  repeat split; try lia. intros E.
  assert (v + 1 = n) by lia. specialize (Hlast H).
  Z.div_mod_to_equations. lia.
Qed.

Lemma regular_upto_inner v : 0 <= v <= n - 1 -> regular_upto n v.
Proof. intros H. split; lia. Qed.

Lemma shape_upto v : regular_upto n v -> shape bv v (build_upto bv v).
Proof.
  intros Hr. assert (Hv : 0 <= v) by (destruct Hr; lia).
  revert Hr. pattern v. apply natlike_ind; [| | exact Hv].
  - intros _. apply shape_init.
  - intros x Hx IH Hr. unfold Z.succ in *. rewrite build_upto_succ by lia.
    destruct (regular_upto_pred x Hx Hr) as [Hr1 Hr2].
    apply shape_step; [apply IH |]; assumption.
Qed.

Lemma step_ones_word v st :
  shape bv v st -> step_ones st v = popcount (vec_at W v).
Proof.
  intros Hs. unfold step_ones. rewrite (sh_vector _ _ _ Hs).
  apply u8_small. pose proof (word_ones v). lia.
Qed.

Lemma region_ends_inner v st :
  shape bv v st -> regular n v ->
  region_ends n st v = (v + 1 =? 64 * SUPERBLOCKS_PER_L0).
Proof.
  intros Hs Hr. pose proof (proj1 Hr) as Hv. pose proof n_range as Hn. unfold region_ends.
  rewrite (superblock_ends_inner v st Hs Hr), (sh_super _ _ _ Hs).
  assert (Hq : 0 <= v / 64 <= 2 ^ 51).
  { split; [apply Z.div_pos; lia | apply Z.div_le_upper_bound; lia]. }
  rewrite u64_small by lia. rewrite shiftr_1.
  replace ((2 * (v / 64) + 2) / 2) with (v / 64 + 1)
    by (apply Z.div_unique with (r := 0); lia).
  pose proof (Z.div_mod v 64 ltac:(lia)) as Hdm.
  pose proof (Z.mod_pos_bound v 64 ltac:(lia)) as Hm.
  destruct (Z.eqb_spec (v mod 64) 63);
    destruct (Z.eqb_spec (v / 64 + 1) SUPERBLOCKS_PER_L0);
    destruct (Z.eqb_spec (v + 1) (64 * SUPERBLOCKS_PER_L0));
    cbn [andb]; try reflexivity; exfalso; lia.
Qed.

Lemma counts_init : counts bv 0 (build_init bv).
Proof.
  destruct Hfresh. split; simpl; rewrite ?ones_words_0; try assumption; try reflexivity.
Qed.

Lemma counts_step v st :
  shape bv v st -> counts bv v st -> regular n v ->
  counts bv (v + 1) (build_step n st v).
Proof.
  intros Hs Hc Hr. pose proof (proj1 Hr) as Hv. pose proof n_range as Hn.
  pose proof (superblock_ends_inner v st Hs Hr) as Hse.
  pose proof (region_ends_inner v st Hs Hr) as Hre.
  pose proof (step_ones_word v st Hs) as Hso.
  pose proof (word_ones v) as Hpc.
  pose proof (cn_words bv Hfresh) as Hw.
  pose proof (ones_words_range W Hw v ltac:(lia)) as Hor.
  destruct Hc as [Hone Hzero Hsup HL0 Hdata].
  assert (HQ : 0 < SUPERBLOCKS_PER_L0) by reflexivity.
  assert (Hq : 0 <= v / 64) by (apply Z.div_pos; lia).
  pose proof (Z.div_mod v 64 ltac:(lia)) as Hdm.
  pose proof (Z.mod_pos_bound v 64 ltac:(lia)) as Hm.
  assert (Hnext : (v + 1) / 64 = if v mod 64 =? 63 then v / 64 + 1 else v / 64).
  { destruct (Z.eqb_spec (v mod 64) 63); symmetry.
    - apply Z.div_unique with (r := 0); lia.
    - apply Z.div_unique with (r := v mod 64 + 1); lia. }
  split.
  - rewrite step_oneCount, Hone, Hso, ones_words_succ by lia.
    apply u64_small. lia.
  - rewrite step_zeroCount, Hzero, Hso, ones_words_succ by lia.
    rewrite u64_small by lia. lia.
  - rewrite step_superBlockOneCounter, Hse, Hsup, Hso, Hnext.
    destruct (Z.eqb_spec (v mod 64) 63).
    + replace (64 * (v / 64 + 1)) with (v + 1) by lia.
      rewrite ones_between_same. reflexivity.
    + rewrite ones_between_succ by lia.
      pose proof (ones_between_range W Hw (64 * (v / 64)) v ltac:(lia)).
      apply u64_small. lia.
  - rewrite step_L0BlockOneCounter, Hre, HL0, Hso, Hnext.
    unfold L0_start.
    destruct (Z.eqb_spec (v + 1) (64 * SUPERBLOCKS_PER_L0)) as [E | E].
    + destruct (Z.eqb_spec (v mod 64) 63); [| lia].
      destruct (Z.ltb_spec (v / 64 + 1) SUPERBLOCKS_PER_L0); [lia |].
      rewrite <- E. rewrite ones_between_same. reflexivity.
    + assert (Hsame : (if (if v mod 64 =? 63 then v / 64 + 1 else v / 64)
                          <? SUPERBLOCKS_PER_L0
                       then 0 else 64 * SUPERBLOCKS_PER_L0)
                      = (if v / 64 <? SUPERBLOCKS_PER_L0
                         then 0 else 64 * SUPERBLOCKS_PER_L0)).
      { destruct (Z.eqb_spec (v mod 64) 63); [| reflexivity].
        destruct (Z.ltb_spec (v / 64 + 1) SUPERBLOCKS_PER_L0);
          destruct (Z.ltb_spec (v / 64) SUPERBLOCKS_PER_L0); lia || reflexivity. }
      rewrite Hsame. rewrite ones_between_succ by lia.
      assert (0 <= (if v / 64 <? SUPERBLOCKS_PER_L0
                    then 0 else 64 * SUPERBLOCKS_PER_L0) <= v).
      { destruct (Z.ltb_spec (v / 64) SUPERBLOCKS_PER_L0); lia. }
      pose proof (ones_between_range W Hw _ v H).
      apply u64_small. lia.
  - rewrite step_L0SingleBlockData, Hre, Hdata, Hone, Hso, Hnext.
    destruct (Z.eqb_spec (v + 1) (64 * SUPERBLOCKS_PER_L0)) as [E | E].
    + destruct (Z.eqb_spec (v mod 64) 63); [| lia].
      destruct (Z.ltb_spec (v / 64 + 1) SUPERBLOCKS_PER_L0); [lia |].
      rewrite <- E, ones_words_succ by lia. apply u64_small. lia.
    + destruct (Z.eqb_spec (v mod 64) 63); [| reflexivity].
      destruct (Z.ltb_spec (v / 64 + 1) SUPERBLOCKS_PER_L0);
        destruct (Z.ltb_spec (v / 64) SUPERBLOCKS_PER_L0); lia || reflexivity.
Qed.

Lemma counts_upto v : regular_upto n v -> counts bv v (build_upto bv v).
Proof.
  intros Hr. assert (Hv : 0 <= v) by (destruct Hr; lia).
  revert Hr. pattern v. apply natlike_ind; [| | exact Hv].
  - intros _. apply counts_init.
  - intros x Hx IH Hr. unfold Z.succ in *. rewrite build_upto_succ by lia.
    destruct (regular_upto_pred x Hx Hr) as [Hr1 Hr2].
    apply counts_step; [apply shape_upto | apply IH |]; assumption.
Qed.
End Build.

(** * Filling the metadata fields *)

Ltac eval_partial :=
  unfold meta1, meta2, partial;
  repeat match goal with
         | |- context [?a <? ?b] =>
             let r := eval cbv in (a <? b) in change (a <? b) with r
         end;
  cbv iota;
  repeat match goal with
         | |- context [u64 (Z.shiftl (Z.land 0 ?c) ?s)] =>
             change (u64 (Z.shiftl (Z.land 0 c) s)) with 0
         | |- context [Z.land (Z.shiftr 0 ?s) ?c] =>
             change (Z.land (Z.shiftr 0 s) c) with 0
         end;
  rewrite ?Z.lor_0_r, ?Z.lor_0_l.

Lemma meta1_start b f : meta1 b (partial 0 f) = b.
Proof. eval_partial. reflexivity. Qed.

Lemma meta1_fill_0 b f :
  meta1 b (partial 0 f) .| u64 ((f 0 .& 0xFFF) <<< 8) = meta1 b (partial 1 f).
Proof. eval_partial. reflexivity. Qed.

Lemma meta1_fill_1 b f :
  meta1 b (partial 1 f) .| ((f 1 >>> 4) .& 0xFF) = meta1 b (partial 2 f).
Proof. eval_partial. reflexivity. Qed.

Lemma partial_lt j f t : t < j -> partial j f t = f t.
Proof. intros H. unfold partial. destruct (Z.ltb_spec t j); [reflexivity | lia]. Qed.

Lemma partial_ge j f t : j <= t -> partial j f t = 0.
Proof. intros H. unfold partial. destruct (Z.ltb_spec t j); [lia | reflexivity]. Qed.

Lemma meta1_keep b f j : 2 <= j -> meta1 b (partial j f) = meta1 b (partial (j + 1) f).
Proof. intros H. unfold meta1. rewrite !partial_lt by lia. reflexivity. Qed.

Lemma meta2_start f : meta2 (partial 0 f) = 0.
Proof. reflexivity. Qed.

Lemma meta2_keep_0 f : meta2 (partial 0 f) = meta2 (partial 1 f).
Proof. reflexivity. Qed.

Lemma meta2_fill_1 f :
  meta2 (partial 1 f) .| u64 ((f 1 .& 0xF) <<< 60) = meta2 (partial 2 f).
Proof. eval_partial. reflexivity. Qed.

Lemma meta2_fill_2 f :
  meta2 (partial 2 f) .| u64 ((f 2 .& 0xFFF) <<< ((2 - 2) * 12)) = meta2 (partial 3 f).
Proof. eval_partial. reflexivity. Qed.

Lemma meta2_fill_3 f :
  meta2 (partial 3 f) .| u64 ((f 3 .& 0xFFF) <<< ((3 - 2) * 12)) = meta2 (partial 4 f).
Proof. eval_partial. reflexivity. Qed.

Lemma meta2_fill_4 f :
  meta2 (partial 4 f) .| u64 ((f 4 .& 0xFFF) <<< ((4 - 2) * 12)) = meta2 (partial 5 f).
Proof. eval_partial. reflexivity. Qed.

Lemma meta2_fill_5 f :
  meta2 (partial 5 f) .| u64 ((f 5 .& 0xFFF) <<< ((5 - 2) * 12)) = meta2 (partial 6 f).
Proof. eval_partial. reflexivity. Qed.

Lemma meta2_fill_6 f :
  meta2 (partial 6 f) .| u64 ((f 6 .& 0xFFF) <<< ((6 - 2) * 12)) = meta2 (partial 7 f).
Proof. eval_partial. reflexivity. Qed.

Lemma meta2_fill j f :
  2 <= j <= 6 ->
  meta2 (partial j f) .| u64 ((f j .& 0xFFF) <<< ((j - 2) * 12))
  = meta2 (partial (j + 1) f).
Proof.
  intros H.
  assert (C : j = 2 \/ j = 3 \/ j = 4 \/ j = 5 \/ j = 6) by lia.
  destruct C as [-> | [-> | [-> | [-> | ->]]]].
  - apply meta2_fill_2.
  - apply meta2_fill_3.
  - apply meta2_fill_4.
  - apply meta2_fill_5.
  - apply meta2_fill_6.
Qed.

Lemma meta_ext b f g :
  (forall t, 0 <= t <= 6 -> f t = g t) ->
  meta1 b f = meta1 b g /\ meta2 f = meta2 g.
Proof.
  intros H. unfold meta1, meta2.
  rewrite (H 0), (H 1), (H 2), (H 3), (H 4), (H 5), (H 6) by lia.
  split; reflexivity.
Qed.

Section BuildMetadata.
Variable bv : bitvector.
Hypothesis Hfresh : constructed bv.

Local Abbreviation W := (vector bv).
Local Abbreviation n := (vec_size (vector bv)).

Lemma metadata_init : metadata bv 0 (build_init bv).
Proof.
  split.
  - change (0 / 64) with 0. change ((0 / 8) mod 8) with 0.
    rewrite meta1_start. reflexivity.
  - reflexivity.
  - intros q Hq. change (0 / 64) with 0 in Hq. lia.
Qed.

(** The words counted so far in the superblock make the field of the
    block that ends. *)
Lemma block_count_now v :
  0 <= v -> v mod 8 = 7 ->
  ones_between W (64 * (v / 64)) (v + 1) = block_count W (v / 64) ((v / 8) mod 8).
Proof.
  intros Hv H7. unfold block_count. f_equal. Z.div_mod_to_equations. lia.
Qed.

Lemma metadata_step v st :
  shape bv v st -> counts bv v st -> metadata bv v st -> regular n v ->
  metadata bv (v + 1) (build_step n st v).
Proof.
  intros Hs Hc Hmd Hr. pose proof (proj1 Hr) as Hv. pose proof (n_range bv Hfresh) as Hn.
  pose proof (block_ends_inner bv Hfresh v st Hs Hr) as Hbe.
  pose proof (superblock_ends_inner bv Hfresh v st Hs Hr) as Hse.
  pose proof (step_ones_word bv Hfresh v st Hs) as Hso.
  pose proof (word_ones bv Hfresh v) as Hpc.
  pose proof (cn_words bv Hfresh) as Hw.
  pose proof (counts_step bv Hfresh v st Hs Hc Hr) as Hc'.
  pose proof (shape_step bv Hfresh v st Hs Hr) as Hs'.
  destruct Hmd as [Hm1 Hm2 Hst].
  assert (Hq : 0 <= v / 64) by (apply Z.div_pos; lia).
  pose proof (Z.mod_pos_bound (v / 8) 8 ltac:(lia)) as Hj.
  assert (Hcnt : v mod 8 = 7 ->
            u64 (superBlockOneCounter st + step_ones st v)
            = block_count W (v / 64) ((v / 8) mod 8)).
  { intros H7. rewrite (ct_super _ _ _ Hc), Hso.
    rewrite <- ones_between_succ by lia.
    rewrite block_count_now by lia.
    apply u64_small. unfold block_count.
    pose proof (ones_between_range W Hw (64 * (v / 64))
                  (64 * (v / 64) + 8 * ((v / 8) mod 8 + 1)) ltac:(lia)). lia. }
  assert (Hq' : (v + 1) / 64 = if v mod 64 =? 63 then v / 64 + 1 else v / 64).
  { destruct (Z.eqb_spec (v mod 64) 63); Z.div_mod_to_equations; lia. }
  assert (Hj' : ((v + 1) / 8) mod 8
                = if v mod 8 =? 7
                  then if (v / 8) mod 8 =? 7 then 0 else (v / 8) mod 8 + 1
                  else (v / 8) mod 8).
  { destruct (Z.eqb_spec (v mod 8) 7); [destruct (Z.eqb_spec ((v / 8) mod 8) 7) |];
      Z.div_mod_to_equations; lia. }
  assert (H63 : (v mod 64 =? 63) = (v mod 8 =? 7) && ((v / 8) mod 8 =? 7)).
  { destruct (Z.eqb_spec (v mod 64) 63); destruct (Z.eqb_spec (v mod 8) 7);
      destruct (Z.eqb_spec ((v / 8) mod 8) 7); cbn [andb]; try reflexivity;
      exfalso; Z.div_mod_to_equations; lia. }
  split.
  - rewrite step_metadata1Builder, Hbe, (sh_block _ _ _ Hs), Hq', Hj', H63.
    unfold BLOCKS_IN_SUPERBLOCK. change (8 - 1) with 7.
    destruct (Z.eqb_spec (v mod 8) 7) as [E8 | E8]; cbn [andb]; [| exact Hm1].
    destruct (Z.eqb_spec ((v / 8) mod 8) 7) as [E7 | E7].
    + rewrite meta1_start. rewrite (ct_L0 _ _ _ Hc'). rewrite Hq', H63.
      destruct (Z.eqb_spec (v mod 8) 7); [| lia].
      destruct (Z.eqb_spec ((v / 8) mod 8) 7); [| lia]. cbn [andb].
      unfold block_base. do 3 f_equal. Z.div_mod_to_equations. lia.
    + rewrite Hcnt by exact E8. rewrite Hm1.
      destruct (Z.eqb_spec ((v / 8) mod 8) 0) as [E0 | E0].
      * rewrite E0. apply meta1_fill_0.
      * destruct (Z.eqb_spec ((v / 8) mod 8) 1) as [E1 | E1].
        -- rewrite E1. apply meta1_fill_1.
        -- apply meta1_keep. lia.
  - rewrite step_metadata2Builder, Hbe, (sh_block _ _ _ Hs), Hq', Hj', H63.
    unfold BLOCKS_IN_SUPERBLOCK. change (8 - 1) with 7.
    destruct (Z.eqb_spec (v mod 8) 7) as [E8 | E8]; cbn [andb]; [| exact Hm2].
    destruct (Z.eqb_spec ((v / 8) mod 8) 7) as [E7 | E7].
    + reflexivity.
    + rewrite Hcnt by exact E8. rewrite Hm2.
      destruct (Z.eqb_spec ((v / 8) mod 8) 0) as [E0 | E0].
      * rewrite E0. reflexivity.
      * destruct (Z.eqb_spec ((v / 8) mod 8) 1) as [E1 | E1].
        -- rewrite E1. apply meta2_fill_1.
        -- apply meta2_fill. lia.
  - intros q Hqr. rewrite step_superBlocks, Hse. rewrite Hq' in Hqr.
    destruct (Z.eqb_spec (v mod 64) 63) as [E | E]; [| apply Hst; lia].
    rewrite (sh_super _ _ _ Hs).
    assert (Hsz : 2 * (v / 64) + 1 < vec_size (superBlocks (this st))).
    { rewrite (sh_size _ _ _ Hs).
      assert (v / 64 <= n / 64) by (apply Z.div_le_mono; lia). lia. }
    assert (Hq51 : v / 64 <= 2 ^ 51) by (apply Z.div_le_upper_bound; lia).
    rewrite (u64_small (2 * (v / 64) + 1)) by lia.
    destruct (Z.eq_dec q (v / 64)) as [-> | Hne].
    + assert (Hj7 : (v / 8) mod 8 = 7) by (Z.div_mod_to_equations; lia).
      split.
      * rewrite vec_at_set_ne by lia. rewrite vec_at_set_eq by lia.
        rewrite Hm1, Hj7. reflexivity.
      * rewrite vec_at_set_eq by (rewrite vec_size_set; lia).
        rewrite Hm2, Hj7. reflexivity.
    + rewrite !vec_at_set_ne by lia. apply Hst. lia.
Qed.

Lemma metadata_upto v :
  regular_upto n v -> metadata bv v (build_upto bv v).
Proof.
  intros Hr. assert (Hv : 0 <= v) by (destruct Hr; lia).
  revert Hr. pattern v. apply natlike_ind; [| | exact Hv].
  - intros _. apply metadata_init.
  - intros x Hx IH Hr. unfold Z.succ in *. rewrite build_upto_succ by lia.
    destruct (regular_upto_pred bv x Hx Hr) as [Hr1 Hr2].
    apply metadata_step;
      [apply shape_upto | apply counts_upto | apply IH |]; assumption.
Qed.
End BuildMetadata.

(** * The end of [buildHelpers] *)

Lemma finish_vector st : vector (build_finish st) = vector (this st).
Proof. unfold build_finish. destruct (_ <? _); reflexivity. Qed.

Lemma finish_oneCount st : oneCount (build_finish st) = oneCount (this st).
Proof. unfold build_finish. destruct (_ <? _); reflexivity. Qed.

Lemma finish_zeroCount st : zeroCount (build_finish st) = zeroCount (this st).
Proof. unfold build_finish. destruct (_ <? _); reflexivity. Qed.

Lemma finish_L0SingleBlockData st :
  L0SingleBlockData (build_finish st) = L0SingleBlockData (this st).
Proof. unfold build_finish. destruct (_ <? _); reflexivity. Qed.

Lemma finish_lastOnePos st : lastOnePos (build_finish st) = lastOnePos (this st).
Proof. unfold build_finish. destruct (_ <? _); reflexivity. Qed.

Lemma finish_lastZeroPos st : lastZeroPos (build_finish st) = lastZeroPos (this st).
Proof. unfold build_finish. destruct (_ <? _); reflexivity. Qed.

Lemma finish_selectCache_1 st : selectCache_1 (build_finish st) = selectCache_1 (this st).
Proof. unfold build_finish. destruct (_ <? _); reflexivity. Qed.

Lemma finish_selectCache_0 st : selectCache_0 (build_finish st) = selectCache_0 (this st).
Proof. unfold build_finish. destruct (_ <? _); reflexivity. Qed.

Lemma finish_superBlocks st :
  superBlocks (build_finish st)
  = if superblockIndex st <? vec_size (superBlocks (this st)) then
      vec_set (vec_set (superBlocks (this st)) (superblockIndex st) (metadata1Builder st))
        (u64 (superblockIndex st + 1)) (metadata2Builder st)
    else superBlocks (this st).
Proof. unfold build_finish. destruct (_ <? _); reflexivity. Qed.

Lemma stored_in_loop_regular n : 1 <= n -> n mod 8 = 0 -> stored_in_loop n = n / 64.
Proof.
  intros Hn H8. unfold stored_in_loop.
  destruct (Z.eqb_spec (((n - 1) / 8) mod 8) 7); Z.div_mod_to_equations; lia.
Qed.

Lemma stored_in_loop_last n :
  1 <= n -> n mod 8 <> 0 ->
  stored_in_loop n = (n - 1) / 64 + (if ((n - 1) / 8) mod 8 =? 7 then 1 else 0)
  /\ n / 64 = (n - 1) / 64 /\ (n - 1) mod 8 <> 7
  /\ 0 <= ((n - 1) / 8) mod 8 <= 7
  /\ 64 * ((n - 1) / 64) + 8 * (((n - 1) / 8) mod 8) < n
  /\ n <= 64 * ((n - 1) / 64) + 8 * (((n - 1) / 8) mod 8 + 1).
Proof.
  intros Hn H8. unfold stored_in_loop. split; [reflexivity |].
  Z.div_mod_to_equations. lia.
Qed.

Section BuildEnd.
Variable bv : bitvector.
Hypothesis Hfresh : constructed bv.

Local Abbreviation W := (vector bv).
Local Abbreviation n := (vec_size (vector bv)).

(** The stored superblocks are as [stored_count] says. *)
Lemma stored_full q :
  0 <= q -> 64 * q + 48 < n ->
  meta1 (block_base W q) (partial 7 (block_count W q))
  = meta1 (block_base W q) (stored_count W n q)
  /\ meta2 (partial 7 (block_count W q)) = meta2 (stored_count W n q).
Proof.
  intros Hq Hn. apply meta_ext. intros t Ht.
  rewrite partial_lt by lia. unfold stored_count.
  destruct (Z.ltb_spec (64 * q + 8 * t) n); [reflexivity | lia].
Qed.

Lemma stored_partial q j :
  0 <= q -> 0 <= j <= 7 -> 64 * q + 8 * j < n + 8 -> n <= 64 * q + 8 * j ->
  meta1 (block_base W q) (partial j (block_count W q))
  = meta1 (block_base W q) (stored_count W n q)
  /\ meta2 (partial j (block_count W q)) = meta2 (stored_count W n q).
Proof.
  intros Hq Hj Hlo Hhi. apply meta_ext. intros t Ht.
  unfold stored_count, partial.
  destruct (Z.ltb_spec t j); destruct (Z.ltb_spec (64 * q + 8 * t) n);
    reflexivity || lia.
Qed.

(** When the last word is the eighth of its block. *)
Lemma helpers_regular : n mod 8 = 0 -> helpers bv (buildHelpers bv).
Proof.
  intros H8. pose proof (n_range bv Hfresh) as Hn.
  assert (Hr : regular_upto n n) by (split; [lia | auto]).
  pose proof (shape_upto bv Hfresh n Hr) as Hs.
  pose proof (counts_upto bv Hfresh n Hr) as Hc.
  pose proof (metadata_upto bv Hfresh n Hr) as Hm.
  unfold buildHelpers, build_loop.
  set (st := build_upto bv n) in *. clearbody st.
  assert (Hq : 0 <= n / 64 <= 2 ^ 51).
  { split; [apply Z.div_pos; lia | apply Z.div_le_upper_bound; lia]. }
  split.
  - rewrite finish_vector. apply (sh_vector _ _ _ Hs).
  - rewrite finish_oneCount. apply (ct_one _ _ _ Hc).
  - rewrite finish_zeroCount. apply (ct_zero _ _ _ Hc).
  - rewrite finish_L0SingleBlockData, (ct_data _ _ _ Hc).
    rewrite stored_in_loop_regular by lia.
    destruct (Z.ltb_spec (n / 64) SUPERBLOCKS_PER_L0);
      destruct (Z.leb_spec SUPERBLOCKS_PER_L0 (n / 64)); lia || reflexivity.
  - rewrite finish_superBlocks.
    destruct (_ <? _); rewrite ?vec_size_set; apply (sh_size _ _ _ Hs).
  - intros q Hqr. rewrite finish_superBlocks.
    rewrite (sh_super _ _ _ Hs), (sh_size _ _ _ Hs).
    destruct (Z.ltb_spec (2 * (n / 64)) (2 * (n / 64) + 2)); [| lia].
    rewrite (u64_small (2 * (n / 64) + 1)) by lia.
    destruct (Z.eq_dec q (n / 64)) as [-> | Hne].
    + rewrite vec_at_set_ne by lia.
      rewrite vec_at_set_eq by (rewrite (sh_size _ _ _ Hs); lia).
      rewrite vec_at_set_eq by (rewrite vec_size_set, (sh_size _ _ _ Hs); lia).
      rewrite (md_1 _ _ _ Hm), (md_2 _ _ _ Hm).
      apply stored_partial; Z.div_mod_to_equations; lia.
    + rewrite !vec_at_set_ne by lia.
      destruct (md_stored _ _ _ Hm q ltac:(lia)) as [E1 E2].
      rewrite E1, E2. apply stored_full; Z.div_mod_to_equations; lia.
Qed.

Lemma block_ends_last st : block_ends n st (n - 1) = true.
Proof.
  pose proof (n_range bv Hfresh) as Hn. unfold block_ends.
  rewrite (u64_small (n - 1)) by lia. rewrite Z.eqb_refl. apply orb_true_r.
Qed.

(** When the last word is not the eighth of its block. *)
Lemma helpers_irregular : n mod 8 <> 0 -> helpers bv (buildHelpers bv).
Proof.
  intros H8. pose proof (n_range bv Hfresh) as Hn.
  pose proof (cn_words bv Hfresh) as Hw.
  assert (Hr : regular_upto n (n - 1)) by (apply regular_upto_inner; lia).
  pose proof (shape_upto bv Hfresh (n - 1) Hr) as Hs.
  pose proof (counts_upto bv Hfresh (n - 1) Hr) as Hc.
  pose proof (metadata_upto bv Hfresh (n - 1) Hr) as Hm.
  unfold buildHelpers, build_loop.
  replace n with (n - 1 + 1) at 1 by lia.
  rewrite build_upto_succ by lia.
  set (st := build_upto bv (n - 1)) in *. clearbody st.
  destruct (stored_in_loop_last n ltac:(lia) H8) as (Hst & Hq & Hv8 & Hj & Hlo & Hhi).
  set (v := n - 1) in *.
  assert (Hqr : 0 <= v / 64 <= 2 ^ 51).
  { split; [apply Z.div_pos; lia | apply Z.div_le_upper_bound; lia]. }
  pose proof (step_ones_word bv Hfresh v st Hs) as Hso.
  pose proof (word_ones bv Hfresh v) as Hpc.
  pose proof (ones_words_range W Hw v ltac:(lia)) as Hor.
  pose proof (block_ends_last st) as Hbe. fold v in Hbe.
  assert (Hse : superblock_ends n st v = ((v / 8) mod 8 =? 7)).
  { unfold superblock_ends. rewrite Hbe, (sh_block _ _ _ Hs). reflexivity. }
  assert (Hre : region_ends n st v
                = ((v / 8) mod 8 =? 7) && (v / 64 + 1 =? SUPERBLOCKS_PER_L0)).
  { unfold region_ends. rewrite Hse, (sh_super _ _ _ Hs).
    rewrite u64_small by lia. rewrite shiftr_1.
    replace ((2 * (v / 64) + 2) / 2) with (v / 64 + 1)
      by (apply Z.div_unique with (r := 0); lia).
    reflexivity. }
  assert (Hnw : ones_words W n = ones_words W v + popcount (vec_at W v)).
  { rewrite <- ones_words_succ by lia. f_equal. unfold v. lia. }
  assert (Hone : u64 (oneCount (this st) + step_ones st v) = ones_words W n).
  { rewrite (ct_one _ _ _ Hc), Hso, Hnw. apply u64_small. lia. }
  assert (Hcnt : u64 (superBlockOneCounter st + step_ones st v)
                 = block_count W (v / 64) ((v / 8) mod 8)).
  { rewrite (ct_super _ _ _ Hc), Hso. rewrite <- ones_between_succ by lia.
    replace (v + 1) with n by (unfold v; lia).
    unfold block_count.
    rewrite (ones_between_split W (64 * (v / 64)) n (64 * (v / 64) + 8 * ((v / 8) mod 8 + 1))).
    rewrite (ones_between_outside W n) by lia.
    pose proof (ones_between_range W Hw (64 * (v / 64)) n ltac:(lia)).
    rewrite u64_small by lia. lia. }
  split.
  - rewrite finish_vector, step_vector. apply (sh_vector _ _ _ Hs).
  - rewrite finish_oneCount, step_oneCount. exact Hone.
  - rewrite finish_zeroCount, step_zeroCount, (ct_zero _ _ _ Hc), Hso, Hnw.
    rewrite u64_small by lia. unfold v. lia.
  - rewrite finish_L0SingleBlockData, step_L0SingleBlockData, Hre, Hone.
    rewrite (ct_data _ _ _ Hc), Hst.
    assert (HQ : 0 < SUPERBLOCKS_PER_L0) by reflexivity.
    destruct (Z.eqb_spec ((v / 8) mod 8) 7) as [E7 | E7]; cbn [andb].
    + destruct (Z.eqb_spec (v / 64 + 1) SUPERBLOCKS_PER_L0) as [EQ | EQ].
      * destruct (Z.leb_spec SUPERBLOCKS_PER_L0 (v / 64 + 1)); [| lia].
        rewrite <- EQ.
        pose proof (ones_between_outside W n (64 * (v / 64 + 1)) ltac:(lia) ltac:(lia)) as Ho.
        unfold ones_between in Ho. lia.
      * destruct (Z.ltb_spec (v / 64) SUPERBLOCKS_PER_L0);
          destruct (Z.leb_spec SUPERBLOCKS_PER_L0 (v / 64 + 1)); lia || reflexivity.
    + rewrite Z.add_0_r.
      destruct (Z.ltb_spec (v / 64) SUPERBLOCKS_PER_L0);
        destruct (Z.leb_spec SUPERBLOCKS_PER_L0 (v / 64)); lia || reflexivity.
  - rewrite finish_superBlocks, step_superBlocks.
    destruct (_ <? _); destruct (superblock_ends n st v);
      rewrite ?vec_size_set; apply (sh_size _ _ _ Hs).
  - intros q Hq0. rewrite Hq in Hq0.
    rewrite finish_superBlocks, step_superBlocks, step_superblockIndex, Hse.
    rewrite step_metadata1Builder, step_metadata2Builder, Hbe, Hcnt.
    rewrite (sh_block _ _ _ Hs), (sh_super _ _ _ Hs).
    unfold BLOCKS_IN_SUPERBLOCK. change (8 - 1) with 7.
    assert (Hsz : vec_size (superBlocks (this st)) = 2 * (v / 64) + 2).
    { rewrite (sh_size _ _ _ Hs). lia. }
    destruct (Z.eqb_spec ((v / 8) mod 8) 7) as [E7 | E7].
    + rewrite (u64_small (2 * (v / 64) + 2)) by lia.
      rewrite !vec_size_set, Hsz.
      destruct (Z.ltb_spec (2 * (v / 64) + 2) (2 * (v / 64) + 2)); [lia |].
      rewrite (u64_small (2 * (v / 64) + 1)) by lia.
      destruct (Z.eq_dec q (v / 64)) as [-> | Hne].
      * rewrite vec_at_set_ne by lia. rewrite vec_at_set_eq by lia.
        rewrite vec_at_set_eq by (rewrite vec_size_set; lia).
        rewrite (md_1 _ _ _ Hm), (md_2 _ _ _ Hm), E7.
        apply stored_full; lia.
      * rewrite !vec_at_set_ne by lia.
        destruct (md_stored _ _ _ Hm q ltac:(lia)) as [E1 E2].
        rewrite E1, E2. apply stored_full; lia.
    + rewrite Hsz.
      destruct (Z.ltb_spec (2 * (v / 64)) (2 * (v / 64) + 2)); [| lia].
      rewrite (u64_small (2 * (v / 64) + 1)) by lia.
      destruct (Z.eq_dec q (v / 64)) as [-> | Hne].
      * rewrite vec_at_set_ne by lia. rewrite vec_at_set_eq by lia.
        rewrite vec_at_set_eq by (rewrite vec_size_set; lia).
        rewrite (md_1 _ _ _ Hm), (md_2 _ _ _ Hm).
        assert (Hfill :
          meta1 (block_base W (v / 64))
            (partial ((v / 8) mod 8 + 1) (block_count W (v / 64)))
          = (if (v / 8) mod 8 =? 0 then
               meta1 (block_base W (v / 64))
                 (partial ((v / 8) mod 8) (block_count W (v / 64)))
               .| u64 ((block_count W (v / 64) ((v / 8) mod 8) .& 0xFFF) <<< 8)
             else if (v / 8) mod 8 =? 1 then
               meta1 (block_base W (v / 64))
                 (partial ((v / 8) mod 8) (block_count W (v / 64)))
               .| ((block_count W (v / 64) ((v / 8) mod 8) >>> 4) .& 0xFF)
             else meta1 (block_base W (v / 64))
                    (partial ((v / 8) mod 8) (block_count W (v / 64))))
          /\ meta2 (partial ((v / 8) mod 8 + 1) (block_count W (v / 64)))
             = (if (v / 8) mod 8 =? 0 then
                  meta2 (partial ((v / 8) mod 8) (block_count W (v / 64)))
                else if (v / 8) mod 8 =? 1 then
                  meta2 (partial ((v / 8) mod 8) (block_count W (v / 64)))
                  .| u64 ((block_count W (v / 64) ((v / 8) mod 8) .& 0xF) <<< 60)
                else
                  meta2 (partial ((v / 8) mod 8) (block_count W (v / 64)))
                  .| u64 ((block_count W (v / 64) ((v / 8) mod 8) .& 0xFFF)
                          <<< (((v / 8) mod 8 - 2) * 12)))).
        { destruct (Z.eqb_spec ((v / 8) mod 8) 0) as [E0 | E0].
          - rewrite E0. split; [symmetry; apply meta1_fill_0 | reflexivity].
          - destruct (Z.eqb_spec ((v / 8) mod 8) 1) as [E1 | E1].
            + rewrite E1. split; symmetry; [apply meta1_fill_1 | apply meta2_fill_1].
            + split; symmetry; [apply meta1_keep | apply meta2_fill]; lia. }
        destruct Hfill as [F1 F2]. rewrite <- F1, <- F2.
        apply stored_partial; lia.
      * rewrite !vec_at_set_ne by lia.
        destruct (md_stored _ _ _ Hm q ltac:(lia)) as [E1 E2].
        rewrite E1, E2. apply stored_full; lia.
Qed.

Theorem helpers_spec : helpers bv (buildHelpers bv).
Proof.
  destruct (Z.eq_dec (n mod 8) 0); [apply helpers_regular | apply helpers_irregular];
    assumption.
Qed.
End BuildEnd.

(** * Reading the metadata fields *)

Ltac bit_fields :=
  unfold meta1, meta2, u64, wrap;
  change 4095 with (Z.ones 12); change 255 with (Z.ones 8); change 15 with (Z.ones 4);
  change ((2 - 2) * 12) with 0; change ((3 - 2) * 12) with 12;
  change ((4 - 2) * 12) with 24; change ((5 - 2) * 12) with 36;
  change ((6 - 2) * 12) with 48;
  Z.bitblast;
  repeat match goal with
         | |- context [Z.testbit ?a ?i] =>
             rewrite (Z.testbit_neg_r a i) by lia
         end;
  rewrite ?Z.land_spec;
  rewrite ?Z.ones_spec_high by lia;
  rewrite ?Z.ones_spec_low by lia;
  try btauto.

Lemma land_field k f : 0 <= k -> 0 <= f < 2 ^ k -> f .& Z.ones k = f.
Proof. intros Hk Hf. rewrite Z.land_ones by exact Hk. apply Z.mod_small. exact Hf. Qed.

Lemma read_base x f :
  meta1 (u64 (x <<< 20)) f >>> 20 = u64 (x <<< 20) >>> 20.
Proof. bit_fields. Qed.

Lemma read_field_0 x f :
  (meta1 (u64 (x <<< 20)) f >>> 8) .& 0xFFF = f 0 .& Z.ones 12.
Proof. bit_fields. Qed.

Lemma read_field_1 x f :
  ((meta1 (u64 (x <<< 20)) f .& 0xFF) <<< 4) .| (meta2 f >>> 60) = f 1 .& Z.ones 12.
Proof. bit_fields. Qed.

Lemma read_field_2 f : meta2 f .& 0xFFF = f 2 .& Z.ones 12.
Proof. bit_fields. Qed.

Lemma read_field_3 f : (meta2 f >>> 12) .& 0xFFF = f 3 .& Z.ones 12.
Proof. bit_fields. Qed.

Lemma read_field_4 f : (meta2 f >>> 24) .& 0xFFF = f 4 .& Z.ones 12.
Proof. bit_fields. Qed.

Lemma read_field_5 f : (meta2 f >>> 36) .& 0xFFF = f 5 .& Z.ones 12.
Proof. bit_fields. Qed.

Lemma read_field_6 f : (meta2 f >>> 48) .& 0xFFF = f 6 .& Z.ones 12.
Proof. bit_fields. Qed.

(** * [rank_1] on the built structure *)

Lemma shiftr_div x k : 0 <= k -> x >>> k = x / 2 ^ k.
Proof. intros. apply Z.shiftr_div_pow2. assumption. Qed.

Lemma shiftl_mul x k : 0 <= k -> x <<< k = x * 2 ^ k.
Proof. intros. apply Z.shiftl_mul_pow2. assumption. Qed.

Lemma land_7 x : x .& 7 = x mod 8.
Proof. change 7 with (Z.ones 3). rewrite Z.land_ones by lia. reflexivity. Qed.

Lemma land_63 x : x .& 63 = x mod 64.
Proof. change 63 with (Z.ones 6). rewrite Z.land_ones by lia. reflexivity. Qed.

(** The sum of the loop over the words of a block before the word of the
    position. *)
Lemma block_sum v b w :
  words_ok v -> 0 <= b -> b + 8 < 2 ^ 64 -> 0 <= w <= 8 ->
  fold_left (fun s k => u16 (s + popcount (vec_at v (u64 (b + k))))) (seqZ 0 w) 0
  = ones_between v b (b + w).
Proof.
  intros Hv Hb Hb8 [Hw Hw8]. revert Hw8. pattern w.
  apply natlike_ind; [| | exact Hw].
  - intros _. rewrite Z.add_0_r, ones_between_same. reflexivity.
  - intros x Hx IH Hx8. unfold Z.succ.
    rewrite seqZ_app by lia. rewrite fold_left_app, IH by lia.
    rewrite (seqZ_cons _ 1) by lia. rewrite seqZ_nil by lia.
    cbn [fold_left]. rewrite Z.add_0_l.
    rewrite u64_small by lia.
    replace (b + (x + 1)) with (b + x + 1) by lia.
    rewrite ones_between_succ by lia.
    pose proof (ones_between_range v Hv b (b + x) ltac:(lia)).
    pose proof (popcount_word _ (vec_at_range v (b + x) Hv)).
    apply u16_small. lia.
Qed.

Lemma ones_words_le_size v m :
  words_ok v -> 0 <= m -> 0 <= ones_words v m <= 64 * vec_size v.
Proof.
  intros Hv Hm. pose proof (vec_size_nonneg v) as Hn.
  destruct (Z.le_gt_cases m (vec_size v)) as [L | G].
  - pose proof (ones_words_range v Hv m Hm). lia.
  - pose proof (ones_between_outside v (vec_size v) m Hn ltac:(lia)) as Ho.
    unfold ones_between in Ho.
    pose proof (ones_words_range v Hv (vec_size v) Hn). lia.
Qed.

(** The base field, shifted back. *)
Lemma base_back x : 0 <= x -> u64 (x <<< 20) >>> 20 = x mod 2 ^ 44.
Proof.
  intros Hx. unfold u64, wrap. rewrite shiftl_mul, shiftr_div by lia.
  change (2 ^ 64) with (2 ^ 44 * 2 ^ 20).
  rewrite Z.mul_mod_distr_r by lia.
  rewrite Z.div_mul by lia. reflexivity.
Qed.

Section Rank.
Variable bv : bitvector.
Hypothesis Hfresh : constructed bv.

Local Abbreviation W := (vector bv).
Local Abbreviation n := (vec_size (vector bv)).
Local Abbreviation r := (buildHelpers bv).

(** The cumulative count that [rank_1] reads for block [j] of superblock [q]. *)
Lemma stored_count_range q t :
  0 <= q -> 0 <= t <= 6 -> 0 <= stored_count W n q t < 2 ^ 12.
Proof.
  intros Hq Ht. unfold stored_count, block_count.
  destruct (_ <? _); [| lia].
  pose proof (ones_between_range W (cn_words bv Hfresh) (64 * q) (64 * q + 8 * (t + 1))
                ltac:(lia)). lia.
Qed.

Lemma stored_field q t :
  0 <= q -> 0 <= t <= 6 -> stored_count W n q t .& Z.ones 12 = stored_count W n q t.
Proof. intros Hq Ht. apply land_field; [lia | apply stored_count_range; assumption]. Qed.

Lemma prefix_field m1 m2 q j :
  0 <= q -> 0 <= j <= 7 -> 64 * q + 8 * j < n + 8 ->
  m1 = meta1 (block_base W q) (stored_count W n q) ->
  m2 = meta2 (stored_count W n q) ->
  (if j =? 1 then (m1 >>> 8) .& 0xFFF
   else if j =? 2 then ((m1 .& 0xFF) <<< 4) .| (m2 >>> 60)
   else if j >? 2 then (m2 >>> ((j - 3) * 12)) .& 0xFFF
   else 0)
  = ones_between W (64 * q) (64 * q + 8 * j).
Proof.
  intros Hq Hj Hn -> ->. unfold block_base.
  assert (Hsc : forall t, 0 <= t < j -> stored_count W n q t
                          = ones_between W (64 * q) (64 * q + 8 * (t + 1))).
  { intros t Ht. unfold stored_count, block_count.
    destruct (Z.ltb_spec (64 * q + 8 * t) n); [reflexivity | lia]. }
  assert (C : j = 0 \/ j = 1 \/ j = 2 \/ j = 3 \/ j = 4 \/ j = 5 \/ j = 6 \/ j = 7) by lia.
  destruct C as [-> | [-> | [-> | [-> | [-> | [-> | [-> | ->]]]]]]]; cbn [Z.eqb Z.gtb Z.compare Pos.compare Pos.compare_cont Pos.eqb].
  - replace (64 * q + 8 * 0) with (64 * q) by lia.
    rewrite ones_between_same. reflexivity.
  - rewrite read_field_0, stored_field, Hsc by lia. reflexivity.
  - rewrite read_field_1, stored_field, Hsc by lia. reflexivity.
  - change ((3 - 3) * 12) with 0. rewrite Z.shiftr_0_r.
    rewrite read_field_2, stored_field, Hsc by lia. reflexivity.
  - change ((4 - 3) * 12) with 12.
    rewrite read_field_3, stored_field, Hsc by lia. reflexivity.
  - change ((5 - 3) * 12) with 24.
    rewrite read_field_4, stored_field, Hsc by lia. reflexivity.
  - change ((6 - 3) * 12) with 36.
    rewrite read_field_5, stored_field, Hsc by lia. reflexivity.
  - change ((7 - 3) * 12) with 48.
    rewrite read_field_6, stored_field, Hsc by lia. reflexivity.
Qed.

Lemma L0data_range : 0 <= L0SingleBlockData r <= 2 ^ 63.
Proof.
  pose proof (n_range bv Hfresh) as Hn.
  rewrite (hp_data _ _ (helpers_spec bv Hfresh)).
  destruct (_ <=? _); [| lia].
  pose proof (ones_words_le_size W (64 * SUPERBLOCKS_PER_L0) (cn_words bv Hfresh)
                ltac:(unfold SUPERBLOCKS_PER_L0; lia)) as Hr.
  revert Hr. generalize (ones_words W (64 * SUPERBLOCKS_PER_L0)). intros x Hr. lia.
Qed.

Lemma position_parts i :
  0 <= i ->
  i / 512 = 8 * (i / 4096) + (i / 512) mod 8
  /\ i / 64 = 64 * (i / 4096) + 8 * ((i / 512) mod 8) + (i / 64) mod 8
  /\ 0 <= (i / 512) mod 8 <= 7 /\ 0 <= (i / 64) mod 8 <= 7
  /\ 0 <= i mod 64 < 64 /\ 0 <= i / 4096.
Proof. intros Hi. Z.div_mod_to_equations. lia. Qed.

Theorem rank_1_spec i :
  0 < i < 64 * n ->
  rank_1 r i
  = ones_between W (L0_start (i / 4096)) (64 * (i / 4096)) mod 2 ^ 44
    + (if i >? L0BLOCK_SIZE then L0SingleBlockData r else 0)
    + (ones_before W i - ones_words W (64 * (i / 4096))).
Proof.
  intros Hi. pose proof (n_range bv Hfresh) as Hn.
  pose proof (cn_words bv Hfresh) as Hw.
  pose proof (helpers_spec bv Hfresh) as H.
  destruct (position_parts i ltac:(lia)) as (E512 & E64 & Hj & Hwd & Hb & Hq0).
  set (q := i / 4096) in *. set (j := (i / 512) mod 8) in *.
  set (w := (i / 64) mod 8) in *.
  assert (Hqn : q <= n / 64).
  { assert (i / 64 < n) by (apply Z.div_lt_upper_bound; lia).
    apply Z.div_le_lower_bound; lia. }
  assert (Hn51 : n / 64 <= 2 ^ 51) by (apply Z.div_le_upper_bound; lia).
  assert (Hi64 : i / 64 < n) by (apply Z.div_lt_upper_bound; lia).
  destruct (hp_meta _ _ H q ltac:(lia)) as [M1 M2].
  assert (HQ : 0 < SUPERBLOCKS_PER_L0) by reflexivity.
  assert (HL0 : 0 <= L0_start q <= 64 * q).
  { unfold L0_start. destruct (Z.ltb_spec q SUPERBLOCKS_PER_L0); lia. }
  pose proof (ones_between_range W Hw (L0_start q) (64 * q) HL0) as Hx.
  pose proof L0data_range as Hdata.
  unfold rank_1. cbv zeta. rewrite (hp_vector _ _ H).
  rewrite (shiftr_div i 12), (shiftr_div i 9), (shiftr_div i 6) by lia.
  rewrite (shiftl_mul _ 1), (shiftl_mul _ 3), (shiftl_mul 1 (i .& 63)) by (rewrite ?land_63; lia).
  change (2 ^ 12) with 4096. change (2 ^ 9) with 512. change (2 ^ 6) with 64.
  change (2 ^ 1) with 2. change (2 ^ 3) with 8. change 0x3F with 63. change 0x7 with 7.
  rewrite !land_7, land_63. fold q j w.
  rewrite (u64_small (q * 2)) by lia.
  rewrite (u64_small (q * 2 + 1)) by lia.
  replace (q * 2) with (2 * q) by lia.
  rewrite M1, M2.
  rewrite (u8_small j) by lia. rewrite (u8_small w) by lia.
  assert (Hbase : meta1 (block_base W q) (stored_count W n q) >>> 20
                  = ones_between W (L0_start q) (64 * q) mod 2 ^ 44).
  { unfold block_base. rewrite read_base. apply base_back. lia. }
  rewrite !Hbase.
  rewrite E512. replace ((8 * q + j) * 8) with (64 * q + 8 * j) by lia.
  rewrite (u64_small (64 * q + 8 * j)) by lia.
  rewrite block_sum by (try assumption; lia).
  rewrite (u64_small (64 * q + 8 * j + w)) by lia.
  rewrite <- E64.
  assert (Hp2 : 0 < 2 ^ (i mod 64) <= 2 ^ 63).
  { split; [apply Z.pow_pos_nonneg; lia | apply Z.pow_le_mono_r; lia]. }
  rewrite (u64_small (1 * 2 ^ (i mod 64) - 1)) by lia.
  rewrite Z.mul_1_l.
  set (pre := u64 (_ mod 2 ^ 44 + _)).
  assert (Hpre : pre = ones_between W (L0_start q) (64 * q) mod 2 ^ 44
                       + (if i >? L0BLOCK_SIZE then L0SingleBlockData r else 0)).
  { unfold pre. apply u64_small.
    pose proof (Z.mod_pos_bound (ones_between W (L0_start q) (64 * q)) (2 ^ 44) ltac:(lia)).
    destruct (i >? L0BLOCK_SIZE); lia. }
  assert (Hpre_range : 0 <= pre < 2 ^ 44 + 2 ^ 63 + 1).
  { rewrite Hpre.
    pose proof (Z.mod_pos_bound (ones_between W (L0_start q) (64 * q)) (2 ^ 44) ltac:(lia)).
    destruct (i >? L0BLOCK_SIZE); lia. }
  set (f1 := (meta1 _ _ >>> 8) .& 0xFFF).
  set (f2 := ((meta1 _ _ .& 0xFF) <<< 4) .| (meta2 _ >>> 60)).
  set (f3 := (meta2 _ >>> ((j - 3) * 12)) .& 0xFFF).
  pose proof (prefix_field _ _ q j ltac:(lia) ltac:(lia) ltac:(lia) eq_refl eq_refl) as Hpf.
  cbv beta in Hpf. fold f1 f2 f3 in Hpf.
  pose proof (ones_between_range W Hw (64 * q) (64 * q + 8 * j) ltac:(lia)) as Hbr.
  assert (Hpre2 :
    (if j =? 1 then u64 (pre + f1)
     else if j =? 2 then u64 (pre + f2)
     else if j >? 2 then u64 (pre + f3) else pre)
    = pre + ones_between W (64 * q) (64 * q + 8 * j)).
  { rewrite <- Hpf.
    destruct (j =? 1); [| destruct (j =? 2); [| destruct (j >? 2)]];
      try (apply u64_small; lia); lia. }
  rewrite Hpre2.
  pose proof (ones_between_range W Hw (64 * q + 8 * j) (i / 64) ltac:(lia)) as Hwr.
  set (last := popcount (vec_at W (i / 64) .& (2 ^ (i mod 64) - 1))).
  assert (Hlast : 0 <= last <= 64).
  { unfold last. rewrite land_low by lia. apply popcount_word.
    pose proof (Z.mod_pos_bound (vec_at W (i / 64)) (2 ^ (i mod 64)) ltac:(lia)).
    lia. }
  rewrite (u16_small (_ + last)) by lia.
  rewrite u64_small by lia.
  rewrite Hpre. unfold ones_before. fold last.
  unfold ones_between.
  generalize (ones_words W (64 * q)) (ones_words W (L0_start q))
    (ones_words W (64 * q + 8 * j)) (ones_words W (i / 64)) last
    (if i >? L0BLOCK_SIZE then L0SingleBlockData r else 0).
  clear. intros. ring.
Qed.
End Rank.

(** * From strings to built structures *)

Lemma word_count_range str :
  string_fits str -> 1 <= word_count str <= 2 ^ 57.
Proof.
  unfold string_fits, word_count. intros H.
  pose proof (str_length_nonneg str).
  assert (0 <= str_length str / 64) by (apply Z.div_pos; lia).
  assert (str_length str / 64 < 2 ^ 57) by (apply Z.div_lt_upper_bound; lia).
  lia.
Qed.

Lemma ctor_constructed str : string_fits str -> constructed (bitvector_ctor str).
Proof.
  intros Hfit. destruct (ctor_vector_spec str Hfit) as (Hsize & Hwords & _).
  split; try reflexivity.
  - exact Hwords.
  - rewrite Hsize. apply word_count_range. exact Hfit.
Qed.

Lemma built_vector str :
  string_fits str -> vector (built str) = vector (bitvector_ctor str).
Proof.
  intros Hfit. unfold built.
  apply (hp_vector _ _ (helpers_spec _ (ctor_constructed str Hfit))).
Qed.

Lemma built_size str :
  string_fits str -> vec_size (vector (built str)) = word_count str.
Proof.
  intros Hfit. rewrite built_vector by exact Hfit.
  apply (ctor_vector_spec str Hfit).
Qed.

Lemma built_bit str i :
  string_fits str -> 0 <= i -> bit_at (vector (built str)) i = true_bit str i.
Proof.
  intros Hfit Hi. rewrite built_vector by exact Hfit.
  apply (ctor_vector_spec str Hfit). exact Hi.
Qed.

(** * Counting in a list of bits *)

Lemma count_bit_app b l1 l2 : count_bit b (l1 ++ l2) = count_bit b l1 + count_bit b l2.
Proof. induction l1 as [| x l IH]; simpl; [reflexivity | rewrite IH; lia]. Qed.

Lemma count_bit_range b l : 0 <= count_bit b l <= Z.of_nat (length l).
Proof.
  induction l as [| x l IH]; simpl length; simpl count_bit; [lia |].
  destruct (Bool.eqb x b); lia.
Qed.

Lemma count_bit_both l : count_bit true l + count_bit false l = Z.of_nat (length l).
Proof.
  induction l as [| x l IH]; simpl length; simpl count_bit; [lia |].
  destruct x; simpl; lia.
Qed.

Lemma take_succ_nth (l : list bool) k :
  (k < length l)%nat -> take (S k) l = take k l ++ [nth k l false].
Proof.
  revert k. induction l as [| x l IH]; intros k Hk; simpl in Hk; [lia |].
  destruct k as [| k]; simpl; [reflexivity |].
  f_equal. apply IH. lia.
Qed.

Lemma true_rank_0 str b : true_rank str 0 b = 0.
Proof. reflexivity. Qed.

Lemma true_rank_succ str i b :
  0 <= i ->
  true_rank str (i + 1) b
  = true_rank str i b
    + (if (i <? bit_length str) && Bool.eqb (true_bit str i) b then 1 else 0).
Proof.
  intros Hi. unfold true_rank, true_bit, bit_length.
  replace (Z.to_nat (i + 1)) with (S (Z.to_nat i)) by lia.
  destruct (i <? 0) eqn:E; [lia |].
  destruct (Z.ltb_spec i (Z.of_nat (length (bits str)))) as [L | G].
  - rewrite take_succ_nth by lia. rewrite count_bit_app. simpl.
    destruct (Bool.eqb _ b); lia.
  - rewrite !take_ge by lia. simpl. lia.
Qed.

Lemma true_rank_both str i :
  0 <= i <= bit_length str -> true_rank str i true + true_rank str i false = i.
Proof.
  intros Hi. unfold true_rank, bit_length in *. rewrite count_bit_both.
  rewrite length_take. lia.
Qed.

Lemma true_rank_range str i b : 0 <= i -> 0 <= true_rank str i b <= i.
Proof.
  intros Hi. unfold true_rank.
  pose proof (count_bit_range b (take (Z.to_nat i) (bits str))) as H.
  rewrite length_take in H. lia.
Qed.

Lemma true_bit_outside str i : bit_length str <= i -> true_bit str i = false.
Proof.
  intros H. unfold true_bit, bit_length in *. destruct (i <? 0); [reflexivity |].
  apply nth_overflow. lia.
Qed.

(** The set bits of the words below a position are the 1-bits of [B] below it. *)
Lemma ones_before_true_rank v str i :
  words_ok v -> (forall k, 0 <= k -> bit_at v k = true_bit str k) ->
  0 <= i -> ones_before v i = true_rank str i true.
Proof.
  intros Hv Hbits Hi. pattern i. apply natlike_ind; [| | exact Hi].
  - unfold ones_before. change (0 / 64) with 0. change (0 mod 64) with 0.
    rewrite ones_words_0. change (2 ^ 0 - 1) with 0. rewrite Z.land_0_r. reflexivity.
  - intros x Hx IH. unfold Z.succ.
    rewrite ones_before_succ, true_rank_succ, IH, Hbits by assumption.
    f_equal. destruct (Z.ltb_spec x (bit_length str)) as [L | G].
    + destruct (true_bit str x); reflexivity.
    + rewrite true_bit_outside by exact G. reflexivity.
Qed.

Lemma built_ones_before str i :
  string_fits str -> 0 <= i ->
  ones_before (vector (built str)) i = true_rank str i true.
Proof.
  intros Hfit Hi. apply ones_before_true_rank; [| | exact Hi].
  - rewrite built_vector by exact Hfit. apply (ctor_vector_spec str Hfit).
  - intros k Hk. apply built_bit; assumption.
Qed.

(** * [rank] on built structures *)

Lemma ones_before_mono v a b :
  words_ok v -> 0 <= a <= b -> ones_before v a <= ones_before v b.
Proof.
  intros Hv [Ha Hab]. replace b with (a + (b - a)) by lia.
  assert (Hd : 0 <= b - a) by lia. revert Hd. generalize (b - a). clear Hab b.
  intros d Hd. pattern d. apply natlike_ind; [| | exact Hd].
  - rewrite Z.add_0_r. lia.
  - intros x Hx IH. replace (a + Z.succ x) with (a + x + 1) by lia.
    rewrite ones_before_succ by (assumption || lia).
    destruct (bit_at v (a + x)); simpl Z.b2z; lia.
Qed.

(** The clamp of [rank] is at the last bit of the word array. *)
Lemma rank_top str :
  string_fits str ->
  u64 (u64 (vec_size (vector (built str)) <<< 6) - 1) = 64 * word_count str - 1.
Proof.
  intros Hfit. rewrite built_size by exact Hfit.
  pose proof (word_count_range str Hfit) as Hn.
  rewrite shiftl_6. rewrite (u64_small (word_count str * 64)) by lia.
  rewrite u64_small by lia. lia.
Qed.

Lemma rank_inside str i b :
  string_fits str -> 0 < i < 64 * word_count str ->
  rank (built str) i b
  = if b =? 1 then rank_1 (built str) i else u64 (i - rank_1 (built str) i).
Proof.
  intros Hfit Hi. unfold rank. rewrite rank_top by exact Hfit.
  destruct (Z.leb_spec i 0); [lia |].
  destruct (Z.gtb_spec i (64 * word_count str - 1)); [lia |]. reflexivity.
Qed.

Lemma rank_0 bv b : rank bv 0 b = 0.
Proof. reflexivity. Qed.

(** What [rank_1] answers on a built structure, whatever its size: the
    count since the start of the L0 region as far as 44 bits hold it, the
    snapshot of the first region for positions above [L0BLOCK_SIZE], and the
    exact count inside the superblock. *)
Lemma built_rank_1 str i :
  string_fits str -> 0 < i < 64 * word_count str ->
  rank_1 (built str) i
  = ones_between (vector (bitvector_ctor str)) (L0_start (i / 4096)) (64 * (i / 4096))
      mod 2 ^ 44
    + (if i >? L0BLOCK_SIZE then L0SingleBlockData (built str) else 0)
    + (true_rank str i true
       - ones_words (vector (bitvector_ctor str)) (64 * (i / 4096))).
Proof.
  intros Hfit Hi. unfold built.
  pose proof (ctor_constructed str Hfit) as Hc.
  rewrite (rank_1_spec _ Hc i).
  - rewrite <- (built_ones_before str i Hfit) by lia.
    rewrite built_vector by exact Hfit. reflexivity.
  - destruct (ctor_vector_spec str Hfit) as (Hsize & _). rewrite Hsize. exact Hi.
Qed.

Lemma built_L0data str :
  string_fits str ->
  L0SingleBlockData (built str)
  = if SUPERBLOCKS_PER_L0 <=? stored_in_loop (word_count str)
    then ones_words (vector (bitvector_ctor str)) (64 * SUPERBLOCKS_PER_L0) else 0.
Proof.
  intros Hfit. unfold built.
  rewrite (hp_data _ _ (helpers_spec _ (ctor_constructed str Hfit))).
  destruct (ctor_vector_spec str Hfit) as (Hsize & _). rewrite Hsize. reflexivity.
Qed.

(** [rank_1] never counts more than there is. *)
Lemma built_rank_1_le str i :
  string_fits str -> 0 < i < 64 * word_count str ->
  0 <= rank_1 (built str) i <= true_rank str i true.
Proof.
  intros Hfit Hi. rewrite built_rank_1 by assumption.
  rewrite built_L0data by exact Hfit.
  destruct (ctor_vector_spec str Hfit) as (Hsize & Hwords & Hbits).
  set (W := vector (bitvector_ctor str)) in *.
  assert (Hq : 0 <= i / 4096) by (apply Z.div_pos; lia).
  assert (HQ : 0 < SUPERBLOCKS_PER_L0) by reflexivity.
  assert (HL0 : 0 <= L0_start (i / 4096) <= 64 * (i / 4096)).
  { unfold L0_start. destruct (Z.ltb_spec (i / 4096) SUPERBLOCKS_PER_L0); lia. }
  pose proof (ones_between_range W Hwords _ _ HL0) as Hx.
  pose proof (Z.mod_pos_bound (ones_between W (L0_start (i / 4096)) (64 * (i / 4096)))
                (2 ^ 44) ltac:(lia)) as Hm.
  pose proof (Z.mod_le (ones_between W (L0_start (i / 4096)) (64 * (i / 4096)))
                (2 ^ 44) ltac:(lia) ltac:(lia)) as Hle.
  assert (Hin : ones_words W (64 * (i / 4096)) <= true_rank str i true).
  { rewrite <- (ones_before_true_rank W str i Hwords Hbits) by lia.
    rewrite <- ones_before_words by lia.
    apply ones_before_mono; [exact Hwords |].
    pose proof (Z.div_mod i 4096 ltac:(lia)). pose proof (Z.mod_pos_bound i 4096 ltac:(lia)).
    lia. }
  assert (Hsnap :
    0 <= (if i >? L0BLOCK_SIZE
          then if SUPERBLOCKS_PER_L0 <=? stored_in_loop (word_count str)
               then ones_words W (64 * SUPERBLOCKS_PER_L0) else 0
          else 0)
    <= ones_words W (L0_start (i / 4096))).
  { pose proof (ones_words_range W Hwords (L0_start (i / 4096)) ltac:(lia)) as H0.
    destruct (Z.gtb_spec i L0BLOCK_SIZE) as [G | G]; [| lia].
    assert (Hbig : SUPERBLOCKS_PER_L0 <= i / 4096).
    { apply Z.div_le_lower_bound; [lia |]. unfold L0BLOCK_SIZE, SUPERBLOCKS_PER_L0 in *. lia. }
    unfold L0_start in *.
    destruct (Z.ltb_spec (i / 4096) SUPERBLOCKS_PER_L0); [lia |].
    revert H0. generalize (ones_words W (64 * SUPERBLOCKS_PER_L0)). intros x H0.
    destruct (_ <=? _); lia. }
  unfold ones_between in *.
  revert Hx Hm Hle Hin Hsnap.
  generalize (ones_words W (64 * (i / 4096))) (ones_words W (L0_start (i / 4096)))
    (true_rank str i true).
  intros a b c.
  generalize ((a - b) mod 2 ^ 44).
  generalize (if i >? L0BLOCK_SIZE
              then if SUPERBLOCKS_PER_L0 <=? stored_in_loop (word_count str)
                   then ones_words W (64 * SUPERBLOCKS_PER_L0) else 0
              else 0).
  clear. intros. lia.
Qed.

(** Below the end of the first L0 region [rank_1] is exact. *)
Lemma built_rank_1_exact str i :
  string_fits str -> 0 < i < 64 * word_count str ->
  i / 4096 < SUPERBLOCKS_PER_L0 ->
  rank_1 (built str) i = true_rank str i true.
Proof.
  intros Hfit Hi Hq. rewrite built_rank_1 by assumption.
  destruct (ctor_vector_spec str Hfit) as (Hsize & Hwords & Hbits).
  set (W := vector (bitvector_ctor str)) in *.
  assert (Hq0 : 0 <= i / 4096) by (apply Z.div_pos; lia).
  assert (Hi43 : i < 4096 * SUPERBLOCKS_PER_L0).
  { pose proof (Z.div_mod i 4096 ltac:(lia)). pose proof (Z.mod_pos_bound i 4096 ltac:(lia)).
    lia. }
  unfold L0_start. destruct (Z.ltb_spec (i / 4096) SUPERBLOCKS_PER_L0); [| lia].
  destruct (Z.gtb_spec i L0BLOCK_SIZE) as [G | G].
  { unfold L0BLOCK_SIZE, SUPERBLOCKS_PER_L0 in *. lia. }
  unfold ones_between. rewrite ones_words_0, Z.sub_0_r.
  pose proof (ones_words_range W Hwords (64 * (i / 4096)) ltac:(lia)) as Hr.
  rewrite Z.mod_small; [lia |].
  unfold SUPERBLOCKS_PER_L0 in *. lia.
Qed.

(** * [access] and the round trip *)

Lemma access_bit bv i :
  0 <= i -> access bv i = Z.b2z (bit_at (vector bv) i).
Proof.
  intros Hi. unfold access, bit_at.
  change ((1 <<< 6) - 1) with 63. rewrite land_63, shiftr_6.
  set (w := vec_at (vector bv) (i / 64)).
  pose proof (Z.mod_pos_bound i 64 ltac:(lia)) as Hb.
  change 1 with (Z.ones 1). rewrite Z.land_ones by lia. change (2 ^ 1) with 2.
  rewrite <- Z.bit0_mod. rewrite Z.shiftr_spec by lia. rewrite Z.add_0_l.
  apply u16_small. destruct (Z.testbit w (i mod 64)); simpl; lia.
Qed.

Lemma binary_bit_length str : binary str = true -> bit_length str = str_length str.
Proof.
  unfold bit_length, str_length. induction str as [| c rest IH]; intros H; [reflexivity |].
  simpl in H. apply andb_true_iff in H. destruct H as [Hc Hr]. specialize (IH Hr).
  simpl bits. simpl String.length.
  destruct (Ascii.eqb c "1"); [simpl; lia |].
  destruct (Ascii.eqb c "0"); [simpl; lia | discriminate].
Qed.

Lemma read_from_bits bv str : forall pos,
  binary str = true ->
  (forall k, (k < length (bits str))%nat ->
     access bv (pos + Z.of_nat k) = Z.b2z (nth k (bits str) false)) ->
  read_from bv pos (String.length str) = str.
Proof.
  induction str as [| c rest IH]; intros pos Hbin Hacc; [reflexivity |].
  simpl in Hbin. apply andb_true_iff in Hbin. destruct Hbin as [Hc Hr].
  simpl String.length. simpl read_from. simpl bits in Hacc.
  destruct (Ascii.eqb c "1") eqn:E1; [| destruct (Ascii.eqb c "0") eqn:E0].
  - apply Ascii.eqb_eq in E1. subst c.
    pose proof (Hacc O ltac:(simpl; lia)) as H0. simpl in H0. rewrite Z.add_0_r in H0.
    rewrite H0. simpl bit_char. f_equal. apply IH; [exact Hr |].
    intros k Hk. specialize (Hacc (S k) ltac:(simpl; lia)). simpl nth in Hacc.
    rewrite <- Hacc. f_equal. lia.
  - apply Ascii.eqb_eq in E0. subst c.
    pose proof (Hacc O ltac:(simpl; lia)) as H0. simpl in H0. rewrite Z.add_0_r in H0.
    rewrite H0. simpl bit_char. f_equal. apply IH; [exact Hr |].
    intros k Hk. specialize (Hacc (S k) ltac:(simpl; lia)). simpl nth in Hacc.
    rewrite <- Hacc. f_equal. lia.
  - simpl in Hc. discriminate.
Qed.

(** C3.  The constructor skips every character other than 0 and 1; the
    [i]-th accepted character is bit [i mod 64] of word [i / 64], which is
    what [access] reads; and reading a string over 0 and 1 back with [access]
    gives the string again. *)
Theorem constructor_round_trip str :
  string_fits str ->
  (forall st c, c <> "0"%char -> c <> "1"%char -> ctor_step st c = st)
  /\ (forall i, 0 <= i < bit_length str ->
        Z.testbit (vec_at (vector (bitvector_ctor str)) (i / 64)) (i mod 64)
        = true_bit str i
        /\ access (bitvector_ctor str) i = Z.b2z (true_bit str i))
  /\ (binary str = true -> read_back (bitvector_ctor str) (String.length str) = str).
Proof.
  intros Hfit. destruct (ctor_vector_spec str Hfit) as (Hsize & Hwords & Hbits).
  split; [| split].
  - intros st c H0 H1. apply ctor_step_skip; apply Ascii.eqb_neq; assumption.
  - intros i Hi. split.
    + apply (Hbits i). lia.
    + rewrite access_bit by lia. rewrite Hbits by lia. reflexivity.
  - intros Hbin. unfold read_back. apply read_from_bits; [exact Hbin |].
    intros k Hk. rewrite Z.add_0_l. rewrite access_bit by lia.
    rewrite Hbits by lia. unfold true_bit.
    destruct (Z.of_nat k <? 0) eqn:E; [lia |]. rewrite Nat2Z.id. reflexivity.
Qed.

Lemma constructor_round_trip_witness :
  string_fits "0110100110010110"
  /\ read_back (bitvector_ctor "0110100110010110") 16 = "0110100110010110"%string.
Proof.
  assert (H : string_fits "0110100110010110") by (unfold string_fits; vm_compute; reflexivity).
  split; [exact H |].
  exact (proj2 (proj2 (constructor_round_trip "0110100110010110" H)) eq_refl).
Defined.

(** * Properties of [rank] on built structures *)

(** C9.  On a built structure the two ranks of a position of [B] add up to
    the position. *)
Theorem rank_sum str i :
  string_fits str -> 0 <= i <= bit_length str ->
  rank (built str) i 0 + rank (built str) i 1 = i.
Proof.
  intros Hfit Hi. destruct (Z.eq_dec i 0) as [-> | Hne]; [reflexivity |].
  pose proof (word_count_bits str) as Hn.
  rewrite !rank_inside by (assumption || lia).
  change (0 =? 1) with false. change (1 =? 1) with true. cbv iota.
  pose proof (built_rank_1_le str i Hfit ltac:(lia)) as Hle.
  pose proof (true_rank_range str i true ltac:(lia)) as Hr.
  pose proof (word_count_range str Hfit) as Hw.
  rewrite u64_small by lia. lia.
Qed.

Lemma rank_sum_witness :
  string_fits "0110100110010110" /\ 0 <= 9 <= bit_length "0110100110010110"
  /\ rank (built "0110100110010110") 9 0 + rank (built "0110100110010110") 9 1 = 9.
Proof.
  assert (H : string_fits "0110100110010110") by (unfold string_fits; vm_compute; reflexivity).
  assert (H9 : 0 <= 9 <= bit_length "0110100110010110") by (vm_compute; split; discriminate).
  split; [exact H | split; [exact H9 |]].
  exact (rank_sum "0110100110010110" 9 H H9).
Defined.

(** Below the end of the first L0 region [rank] is the number of bits of
    the given value in [B[0..i)]. *)
Lemma rank_exact str i :
  string_fits str -> str_length str < 4096 * SUPERBLOCKS_PER_L0 ->
  0 <= i <= bit_length str ->
  rank (built str) i 1 = true_rank str i true
  /\ rank (built str) i 0 = true_rank str i false.
Proof.
  intros Hfit Hlen Hi. destruct (Z.eq_dec i 0) as [-> | Hne]; [split; reflexivity |].
  pose proof (word_count_bits str) as Hn.
  pose proof (bits_length_le str) as Hbl. fold (bit_length str) in Hbl.
  rewrite !rank_inside by (assumption || lia).
  change (0 =? 1) with false. change (1 =? 1) with true. cbv iota.
  assert (Hq : i / 4096 < SUPERBLOCKS_PER_L0) by (apply Z.div_lt_upper_bound; lia).
  rewrite built_rank_1_exact by (assumption || lia).
  pose proof (true_rank_both str i Hi) as Hb.
  pose proof (true_rank_range str i false ltac:(lia)) as Hr.
  pose proof (word_count_range str Hfit) as Hw.
  split; [reflexivity |]. rewrite u64_small by lia. lia.
Qed.

(** C10.  Both entry points test the bit value against 1 only. *)
Theorem bit_value_dispatch bv i k v :
  v <> 1 -> rank bv i v = rank bv i 0 /\ select bv k v = select bv k 0.
Proof.
  intros Hv. unfold rank, select.
  destruct (Z.eqb_spec v 1); [contradiction |].
  split; reflexivity.
Qed.

Lemma bit_value_dispatch_witness :
  255 <> 1
  /\ rank (built "0110100110010110") 8 255 = rank (built "0110100110010110") 8 0
  /\ select (built "0110100110010110") 3 255 = select (built "0110100110010110") 3 0.
Proof.
  assert (H : 255 <> 1) by discriminate.
  split; [exact H |].
  exact (bit_value_dispatch (built "0110100110010110") 8 3 255 H).
Defined.

(** * The cached last positions *)

Lemma popcount_zero w : 0 <= w -> popcount w = 0 -> w = 0.
Proof.
  intros Hw H. destruct w as [| p | p]; [reflexivity | | lia].
  simpl in H. pose proof (pos_popcount_pos p). lia.
Qed.

Lemma word_position v b :
  0 <= b < 64 -> (64 * v + b) / 64 = v /\ (64 * v + b) mod 64 = b.
Proof. intros Hb. Z.div_mod_to_equations. lia. Qed.

Lemma build_upto_vector bv v : 0 <= v -> vector (this (build_upto bv v)) = vector bv.
Proof.
  intros Hv. pattern v. apply natlike_ind; [| | exact Hv].
  - reflexivity.
  - intros x Hx IH. unfold Z.succ. rewrite build_upto_succ by lia.
    rewrite step_vector. exact IH.
Qed.

Lemma build_loop_last bv :
  1 <= vec_size (vector bv) ->
  build_loop bv
  = build_step (vec_size (vector bv)) (build_upto bv (vec_size (vector bv) - 1))
      (vec_size (vector bv) - 1).
Proof.
  intros Hn. unfold build_loop.
  replace (vec_size (vector bv)) with (vec_size (vector bv) - 1 + 1) at 1 by lia.
  apply build_upto_succ. lia.
Qed.

Section LastPositions.
Variable bv : bitvector.
Hypothesis Hfresh : constructed bv.

Local Abbreviation W := (vector bv).
Local Abbreviation n := (vec_size (vector bv)).

Lemma step_ones_any v st :
  vector (this st) = W -> step_ones st v = popcount (vec_at W v).
Proof.
  intros Hs. unfold step_ones. rewrite Hs.
  apply u8_small. pose proof (word_ones bv Hfresh v). lia.
Qed.

Lemma last_one_step v p :
  0 <= v < n -> last_one_inv W v p ->
  last_one_inv W (v + 1)
    (if popcount (vec_at W v) >? 0
     then u64 (u64 (v <<< 6) + (63 - clzll (vec_at W v))) else p).
Proof.
  intros Hv Hinv. pose proof (n_range bv Hfresh) as Hn.
  pose proof (word_range bv Hfresh v) as Hw.
  pose proof (word_ones bv Hfresh v) as Hpc.
  assert (Hword : forall i, 64 * v <= i < 64 * (v + 1) ->
            bit_at W i = Z.testbit (vec_at W v) (i - 64 * v)).
  { intros i Hi. unfold bit_at.
    destruct (word_position v (i - 64 * v) ltac:(lia)) as [Hd Hm].
    replace (64 * v + (i - 64 * v)) with i in * by lia. rewrite Hd, Hm. reflexivity. }
  destruct (Z.gtb_spec (popcount (vec_at W v)) 0) as [G | G].
  - assert (Hpos : 0 < vec_at W v).
    { destruct (Z.eq_dec (vec_at W v) 0) as [E | E]; [rewrite E in G; simpl in G; lia | lia]. }
    assert (Hlog : 0 <= Z.log2 (vec_at W v) < 64).
    { split; [apply Z.log2_nonneg |]. apply Z.log2_lt_pow2; lia. }
    unfold clzll. rewrite shiftl_6. rewrite (u64_small (v * 64)) by lia.
    rewrite u64_small by lia.
    replace (v * 64 + (63 - (63 - Z.log2 (vec_at W v))))
      with (64 * v + Z.log2 (vec_at W v)) by lia.
    right. split; [lia | split].
    + rewrite Hword by lia.
      replace (64 * v + Z.log2 (vec_at W v) - 64 * v) with (Z.log2 (vec_at W v)) by lia.
      apply Z.bit_log2. exact Hpos.
    + intros i Hi. rewrite Hword by lia.
      apply Z.bits_above_log2; lia.
  - assert (Hz : vec_at W v = 0) by (apply popcount_zero; lia).
    assert (Hfalse : forall i, 64 * v <= i < 64 * (v + 1) -> bit_at W i = false).
    { intros i Hi. rewrite Hword by exact Hi. rewrite Hz. apply Z.bits_0. }
    destruct Hinv as [[Hp Hall] | (Hp & Hbit & Hall)].
    + left. split; [exact Hp |]. intros i Hi.
      destruct (Z.lt_ge_cases i (64 * v)); [apply Hall | apply Hfalse]; lia.
    + right. split; [lia | split; [exact Hbit |]]. intros i Hi.
      destruct (Z.lt_ge_cases i (64 * v)); [apply Hall | apply Hfalse]; lia.
Qed.

Lemma last_one_upto v :
  0 <= v <= n -> last_one_inv W v (lastOnePos (this (build_upto bv v))).
Proof.
  intros [Hv Hle]. revert Hle. pattern v. apply natlike_ind; [| | exact Hv].
  - intros _. left. split; [apply (cn_lastOne bv Hfresh) | intros i Hi; lia].
  - intros x Hx IH Hle. unfold Z.succ. rewrite build_upto_succ by lia.
    rewrite step_lastOnePos.
    rewrite step_ones_any by (apply build_upto_vector; lia).
    rewrite build_upto_vector by lia.
    apply last_one_step; [lia | apply IH; lia].
Qed.

Lemma built_last_one : last_one_inv W n (lastOnePos (buildHelpers bv)).
Proof.
  unfold buildHelpers. rewrite finish_lastOnePos. unfold build_loop.
  apply last_one_upto. pose proof (n_range bv Hfresh). lia.
Qed.

(** With a zero at the top of the last word, the last zero is the last bit
    of the word array. *)
Lemma built_last_zero :
  vec_at W (n - 1) < 2 ^ 63 -> lastZeroPos (buildHelpers bv) = 64 * n - 1.
Proof.
  intros Htop. pose proof (n_range bv Hfresh) as Hn.
  pose proof (word_range bv Hfresh (n - 1)) as Hw.
  unfold buildHelpers. rewrite finish_lastZeroPos.
  rewrite build_loop_last by lia. rewrite step_lastZeroPos.
  rewrite step_ones_any by (apply build_upto_vector; lia).
  rewrite build_upto_vector by lia.
  pose proof (popcount_bound 63 (vec_at W (n - 1)) ltac:(lia) ltac:(lia)) as Hpc.
  destruct (Z.ltb_spec (popcount (vec_at W (n - 1))) 64); [| lia].
  assert (Hnot : not64 (vec_at W (n - 1)) = 2 ^ 64 - 1 - vec_at W (n - 1)).
  { unfold not64, Z.lnot, u64, wrap.
    replace (Z.pred (- vec_at W (n - 1)))
      with (2 ^ 64 - 1 - vec_at W (n - 1) + (-1) * 2 ^ 64) by lia.
    rewrite Z.mod_add by lia. apply Z.mod_small. lia. }
  assert (Hlog : Z.log2 (not64 (vec_at W (n - 1))) = 63).
  { apply Z.log2_unique; [lia |]. rewrite Hnot. change (2 ^ (63 + 1)) with (2 ^ 64). lia. }
  unfold clzll. rewrite Hlog. rewrite shiftl_6.
  rewrite (u64_small ((n - 1) * 64)) by lia.
  rewrite u64_small by lia. lia.
Qed.
End LastPositions.

(** * The counters and cached positions of a built structure *)

Lemma true_rank_all str i b :
  bit_length str <= i -> true_rank str i b = total_count str b.
Proof.
  intros Hi. unfold true_rank, total_count, bit_length in *.
  rewrite take_ge by lia. reflexivity.
Qed.

Lemma total_count_range str b : 0 <= total_count str b <= bit_length str.
Proof. apply count_bit_range. Qed.

Lemma built_ones_words str :
  string_fits str ->
  ones_words (vector (bitvector_ctor str)) (word_count str) = total_count str true.
Proof.
  intros Hfit. pose proof (word_count_range str Hfit) as Hw.
  pose proof (word_count_bits str) as Hn.
  rewrite <- ones_before_words by lia.
  rewrite <- built_vector by exact Hfit.
  rewrite built_ones_before by (assumption || lia).
  apply true_rank_all. lia.
Qed.

Lemma built_oneCount str :
  string_fits str -> oneCount (built str) = total_count str true.
Proof.
  intros Hfit. unfold built.
  rewrite (hp_one _ _ (helpers_spec _ (ctor_constructed str Hfit))).
  destruct (ctor_vector_spec str Hfit) as (Hsize & _). rewrite Hsize.
  apply built_ones_words. exact Hfit.
Qed.

Lemma built_zeroCount str :
  string_fits str ->
  zeroCount (built str) = 64 * word_count str - total_count str true.
Proof.
  intros Hfit. unfold built.
  rewrite (hp_zero _ _ (helpers_spec _ (ctor_constructed str Hfit))).
  destruct (ctor_vector_spec str Hfit) as (Hsize & _). rewrite Hsize.
  rewrite built_ones_words by exact Hfit. reflexivity.
Qed.

Lemma built_zeroCount_pos str : string_fits str -> 0 < zeroCount (built str).
Proof.
  intros Hfit. rewrite built_zeroCount by exact Hfit.
  pose proof (total_count_range str true). pose proof (word_count_bits str). lia.
Qed.

(** The top bit of the last word is padding. *)
Lemma last_word_top str :
  string_fits str ->
  vec_at (vector (bitvector_ctor str)) (word_count str - 1) < 2 ^ 63.
Proof.
  intros Hfit. destruct (ctor_vector_spec str Hfit) as (Hsize & Hwords & Hbits).
  pose proof (word_count_range str Hfit) as Hw.
  pose proof (word_count_bits str) as Hn.
  pose proof (vec_at_range _ (word_count str - 1) Hwords) as Hr.
  set (w := vec_at _ _) in *.
  destruct (Z.lt_ge_cases w (2 ^ 63)) as [L | G]; [exact L | exfalso].
  assert (Hlog : Z.log2 w = 63).
  { apply Z.log2_unique; [lia |]. change (2 ^ (63 + 1)) with (2 ^ 64). lia. }
  pose proof (Z.bit_log2 w ltac:(lia)) as Hbit. rewrite Hlog in Hbit.
  pose proof (Hbits (64 * (word_count str - 1) + 63) ltac:(lia)) as Hb.
  unfold bit_at in Hb.
  destruct (word_position (word_count str - 1) 63 ltac:(lia)) as [Hd Hm].
  rewrite Hd, Hm in Hb. fold w in Hb. rewrite Hbit in Hb.
  rewrite true_bit_outside in Hb by lia. discriminate.
Qed.

Lemma built_lastZeroPos str :
  string_fits str -> lastZeroPos (built str) = 64 * word_count str - 1.
Proof.
  intros Hfit. destruct (ctor_vector_spec str Hfit) as (Hsize & _).
  unfold built. rewrite built_last_zero.
  - rewrite Hsize. reflexivity.
  - apply ctor_constructed. exact Hfit.
  - rewrite Hsize. apply last_word_top. exact Hfit.
Qed.

Lemma ones_before_0 v : ones_before v 0 = 0.
Proof.
  unfold ones_before. change (0 / 64) with 0. change (0 mod 64) with 0.
  rewrite ones_words_0. change (2 ^ 0 - 1) with 0. rewrite Z.land_0_r. reflexivity.
Qed.

Lemma no_ones_before v m :
  words_ok v -> 0 <= m -> (forall i, 0 <= i < m -> bit_at v i = false) ->
  ones_before v m = 0.
Proof.
  intros Hv Hm. pattern m. apply natlike_ind; [| | exact Hm].
  - intros _. apply ones_before_0.
  - intros x Hx IH Hall. unfold Z.succ. rewrite ones_before_succ by assumption.
    rewrite IH by (intros i Hi; apply Hall; lia).
    rewrite Hall by lia. reflexivity.
Qed.

(** [lastOnePos] is zero when [B] has no 1-bit and the position of the last
    1-bit otherwise. *)
Lemma built_lastOnePos str :
  string_fits str ->
  (total_count str true = 0 -> lastOnePos (built str) = 0)
  /\ (0 < total_count str true ->
      0 <= lastOnePos (built str) < bit_length str
      /\ true_bit str (lastOnePos (built str)) = true
      /\ forall i, lastOnePos (built str) < i -> true_bit str i = false).
Proof.
  intros Hfit. destruct (ctor_vector_spec str Hfit) as (Hsize & Hwords & Hbits).
  pose proof (word_count_range str Hfit) as Hw.
  pose proof (word_count_bits str) as Hn.
  pose proof (built_last_one _ (ctor_constructed str Hfit)) as Hinv.
  fold (built str) in Hinv. rewrite Hsize in Hinv.
  pose proof (built_ones_words str Hfit) as Hones.
  rewrite <- ones_before_words in Hones by lia.
  set (W := vector (bitvector_ctor str)) in *.
  set (p := lastOnePos (built str)) in *.
  destruct Hinv as [[Hp Hall] | (Hp & Hbit & Hall)].
  - assert (Hz : total_count str true = 0).
    { rewrite <- Hones. apply no_ones_before; [exact Hwords | lia | exact Hall]. }
    split; [intros _; exact Hp | intros Hpos; lia].
  - rewrite Hbits in Hbit by lia. split.
    + intros Hz. exfalso.
      pose proof (ones_before_mono W (p + 1) (64 * word_count str) Hwords ltac:(lia)) as Hm.
      rewrite ones_before_succ in Hm by (assumption || lia).
      rewrite Hbits, Hbit in Hm by lia. simpl Z.b2z in Hm.
      pose proof (ones_before_mono W 0 p Hwords ltac:(lia)) as Hm0.
      rewrite ones_before_0 in Hm0. lia.
    + intros _. split; [| split; [exact Hbit |]].
      * split; [lia |]. destruct (Z.lt_ge_cases p (bit_length str)) as [L | G]; [exact L |].
        rewrite true_bit_outside in Hbit by exact G. discriminate.
      * intros i Hi. destruct (Z.lt_ge_cases i (64 * word_count str)) as [L | G].
        -- rewrite <- Hbits by lia. apply Hall. lia.
        -- apply true_bit_outside. lia.
Qed.

(** * [select] at its two ends *)

Lemma wrap_nonneg w x : 0 <= w -> 0 <= wrap w x.
Proof. intros H. apply wrap_range. exact H. Qed.

Lemma meta1_nonneg b f : 0 <= b -> 0 <= meta1 b f.
Proof.
  intros Hb. unfold meta1.
  apply Z.lor_nonneg. split; [apply Z.lor_nonneg; split; [exact Hb | apply u64_range] |].
  apply Z.land_nonneg. right. lia.
Qed.

Lemma meta2_nonneg f : 0 <= meta2 f.
Proof.
  unfold meta2.
  repeat (apply Z.lor_nonneg; split; [| apply u64_range]). lia.
Qed.

Lemma built_meta str q :
  string_fits str -> 0 <= q <= word_count str / 64 ->
  vec_at (superBlocks (built str)) (2 * q)
  = meta1 (block_base (vector (bitvector_ctor str)) q)
      (stored_count (vector (bitvector_ctor str)) (word_count str) q)
  /\ vec_at (superBlocks (built str)) (2 * q + 1)
     = meta2 (stored_count (vector (bitvector_ctor str)) (word_count str) q).
Proof.
  intros Hfit Hq. destruct (ctor_vector_spec str Hfit) as (Hsize & _).
  pose proof (hp_meta _ _ (helpers_spec _ (ctor_constructed str Hfit)) q) as H.
  rewrite Hsize in H. apply H. exact Hq.
Qed.

Lemma built_blocks_size str :
  string_fits str -> vec_size (superBlocks (built str)) = 2 * (word_count str / 64) + 2.
Proof.
  intros Hfit. destruct (ctor_vector_spec str Hfit) as (Hsize & _).
  unfold built. rewrite (hp_size _ _ (helpers_spec _ (ctor_constructed str Hfit))).
  rewrite Hsize. reflexivity.
Qed.

Lemma built_blocks_nonneg str j :
  string_fits str -> 0 <= vec_at (superBlocks (built str)) j.
Proof.
  intros Hfit. pose proof (built_blocks_size str Hfit) as Hsz.
  destruct (Z.lt_ge_cases j 0) as [L | G].
  { unfold vec_at. destruct (Z.ltb_spec j 0); lia. }
  destruct (Z.le_gt_cases (vec_size (superBlocks (built str))) j) as [L | L].
  { rewrite vec_at_outside by exact L. lia. }
  pose proof (Z.div_mod j 2 ltac:(lia)) as Hdm.
  pose proof (Z.mod_pos_bound j 2 ltac:(lia)) as Hm.
  assert (Hq : 0 <= j / 2 <= word_count str / 64) by lia.
  destruct (built_meta str (j / 2) Hfit Hq) as [M1 M2].
  destruct (Z.eq_dec (j mod 2) 0) as [E | E].
  - replace j with (2 * (j / 2)) by lia. rewrite M1.
    apply meta1_nonneg. apply u64_range.
  - replace j with (2 * (j / 2) + 1) by lia. rewrite M2. apply meta2_nonneg.
Qed.

(** The first superblock starts at count zero. *)
Lemma built_first_base str :
  string_fits str -> vec_at (superBlocks (built str)) 0 >>> 20 = 0.
Proof.
  intros Hfit. pose proof (word_count_range str Hfit) as Hw.
  assert (Hq : 0 <= 0 <= word_count str / 64).
  { split; [lia | apply Z.div_pos; lia]. }
  destruct (built_meta str 0 Hfit Hq) as [M1 _]. change (2 * 0) with 0 in M1.
  rewrite M1. unfold block_base. rewrite read_base.
  change (L0_start 0) with 0. change (64 * 0) with 0.
  rewrite ones_between_same. reflexivity.
Qed.

Lemma bit_loop_zero fuel bitword bitIndex : bit_loop fuel 0 bitword bitIndex = Some bitIndex.
Proof. destruct fuel; reflexivity. Qed.

Lemma select_1_words_zero k v wi fp idx :
  select_1_words (S k) v wi fp idx 0 = Some (u64 (u64 (fp + (idx <<< 6)) + 0)).
Proof.
  cbn [select_1_words]. cbv zeta.
  pose proof (wrap_nonneg 8 (popcount (vec_at v (u64 (wi + idx)))) ltac:(lia)) as H.
  fold u8 in H. destruct (Z.gtb_spec 0 (u8 (popcount (vec_at v (u64 (wi + idx)))))); [lia |].
  change (0 >? 0) with false. cbv iota. change (u8 (0 - 0)) with 0.
  rewrite bit_loop_zero. reflexivity.
Qed.

Lemma select_0_words_zero k v wi fp idx :
  select_0_words (S k) v wi fp idx 0 = Some (u64 (u64 (fp + (idx <<< 6)) + 0)).
Proof.
  cbn [select_0_words]. cbv zeta.
  pose proof (wrap_nonneg 8 (popcount (not64 (vec_at v (u64 (wi + idx))))) ltac:(lia)) as H.
  fold u8 in H.
  destruct (Z.gtb_spec 0 (u8 (popcount (not64 (vec_at v (u64 (wi + idx))))))); [lia |].
  change (0 >? 0) with false. cbv iota. change (u8 (0 - 0)) with 0.
  rewrite bit_loop_zero. reflexivity.
Qed.

Lemma select_1_blocks_zero m1 m2 : select_1_blocks m1 m2 0 = (0, 0).
Proof.
  unfold select_1_blocks. cbv zeta.
  assert (H : 0 <= (m1 >>> 8) .& 0xFFF) by (apply Z.land_nonneg; right; lia).
  destruct (Z.geb_spec ((m1 >>> 8) .& 0xFFF) 0); [reflexivity | lia].
Qed.

Lemma select_0_blocks_zero m1 m2 : select_0_blocks m1 m2 0 = (0, 0).
Proof.
  unfold select_0_blocks. cbv zeta.
  pose proof (u64_range (BLOCK_SIZE - (m1 >>> 8) .& 0xFFF)) as H.
  destruct (Z.geb_spec (u64 (BLOCK_SIZE - (m1 >>> 8) .& 0xFFF)) 0); [reflexivity | lia].
Qed.

Lemma select_1_zero str : string_fits str -> select_1 (built str) 0 = Some 0.
Proof.
  intros Hfit. unfold select_1.
  destruct (Z.eqb_spec 0 (oneCount (built str))) as [E | E].
  - f_equal. apply (built_lastOnePos str Hfit).
    rewrite <- built_oneCount by exact Hfit. symmetry. exact E.
  - assert (Hsb : select_1_superblock (built str) 0 = Some 0).
    { unfold select_1_superblock. cbv zeta.
      pose proof (built_blocks_nonneg str 2 Hfit) as H2.
      assert (H20 : 0 <= vec_at (superBlocks (built str)) 2 >>> 20)
        by (apply Z.shiftr_nonneg; exact H2).
      destruct (Z.leb_spec 0 (vec_at (superBlocks (built str)) 2 >>> 20)); [| lia].
      rewrite orb_true_r. reflexivity. }
    rewrite Hsb. cbv zeta. rewrite built_first_base by exact Hfit.
    change (u64 (0 - 0)) with 0. change (u64 (0 <<< 11) >? L0BLOCK_SIZE) with false.
    cbv iota. rewrite select_1_blocks_zero.
    change (u64 (u64 (0 <<< 5) + (0 <<< 3))) with 0. change (u64 (0 <<< 6)) with 0.
    change 8%nat with (S 7). rewrite select_1_words_zero. reflexivity.
Qed.

Lemma select_0_zero str : string_fits str -> select_0 (built str) 0 = Some 0.
Proof.
  intros Hfit. unfold select_0.
  pose proof (built_zeroCount_pos str Hfit) as Hz.
  destruct (Z.eqb_spec 0 (zeroCount (built str))) as [E | E]; [lia |].
  assert (Hsb : select_0_superblock (built str) 0 = Some 0).
  { unfold select_0_superblock. cbv zeta.
    pose proof (u64_range ((1 <<< 12) - (vec_at (superBlocks (built str)) 2 >>> 20))) as H.
    destruct (Z.leb_spec 0 (u64 ((1 <<< 12) - (vec_at (superBlocks (built str)) 2 >>> 20))));
      [| lia].
    rewrite orb_true_r. reflexivity. }
  rewrite Hsb. cbv zeta. rewrite built_first_base by exact Hfit.
  change (u64 (0 <<< 11)) with 0. change (u64 (0 - u64 (0 - 0))) with 0.
  change (0 >? L0BLOCK_SIZE) with false.
  cbv iota. rewrite select_0_blocks_zero.
  change (u64 (u64 (0 <<< 5) + (0 <<< 3))) with 0. change (u64 (0 <<< 6)) with 0.
  change 8%nat with (S 7). rewrite select_0_words_zero. reflexivity.
Qed.

(** C7.  [select(0, b)] is 0 on every built structure, for both bit values
    (and for every other value of the bit argument, which is read as 0). *)
Theorem select_zero str b :
  string_fits str -> 1 <= bit_length str -> select (built str) 0 b = Some 0.
Proof.
  intros Hfit _. unfold select.
  destruct (b =? 1); [apply select_1_zero | apply select_0_zero]; exact Hfit.
Qed.

Lemma select_zero_witness :
  string_fits "0110100110010110" /\ 1 <= bit_length "0110100110010110"
  /\ select (built "0110100110010110") 0 1 = Some 0
  /\ select (built "0110100110010110") 0 0 = Some 0.
Proof.
  assert (H : string_fits "0110100110010110") by (unfold string_fits; vm_compute; reflexivity).
  assert (H1 : 1 <= bit_length "0110100110010110") by (vm_compute; discriminate).
  split; [exact H | split; [exact H1 |]].
  split; [exact (select_zero _ 1 H H1) | exact (select_zero _ 0 H H1)].
Defined.

(** C8, as the code has it.  [oneCount] is the number of 1-bits of [B],
    [select] answers it from the cache, and the cached position is that of
    the last 1-bit when there is one.  [zeroCount] counts the zero bits of
    the whole word array, the padding after [B] included, so it is above the
    number of 0-bits of [B]; [select] answers it from the cache with the last
    bit of the word array. *)
Theorem select_last str :
  string_fits str ->
  oneCount (built str) = total_count str true
  /\ select (built str) (oneCount (built str)) 1 = Some (lastOnePos (built str))
  /\ (0 < total_count str true ->
      true_bit str (lastOnePos (built str)) = true
      /\ forall i, lastOnePos (built str) < i -> true_bit str i = false)
  /\ zeroCount (built str) = 64 * word_count str - total_count str true
  /\ total_count str false < zeroCount (built str)
  /\ select (built str) (zeroCount (built str)) 0 = Some (lastZeroPos (built str))
  /\ lastZeroPos (built str) = 64 * word_count str - 1.
Proof.
  intros Hfit.
  split; [| split; [| split; [| split; [| split; [| split]]]]].
  - apply built_oneCount. exact Hfit.
  - unfold select, select_1. change (1 =? 1) with true. cbv iota.
    rewrite Z.eqb_refl. reflexivity.
  - intros Hpos. destruct (proj2 (built_lastOnePos str Hfit) Hpos) as (_ & Hb & Ha).
    split; assumption.
  - apply built_zeroCount. exact Hfit.
  - rewrite built_zeroCount by exact Hfit.
    pose proof (count_bit_both (bits str)) as Hb. fold (total_count str true) in Hb.
    fold (total_count str false) in Hb. fold (bit_length str) in Hb.
    pose proof (word_count_bits str). lia.
  - unfold select, select_0. change (0 =? 1) with false. cbv iota.
    rewrite Z.eqb_refl. reflexivity.
  - apply built_lastZeroPos. exact Hfit.
Qed.

Lemma select_last_witness :
  string_fits "0110100110010110"
  /\ select (built "0110100110010110") (oneCount (built "0110100110010110")) 1
     = Some (lastOnePos (built "0110100110010110")).
Proof.
  assert (H : string_fits "0110100110010110") by (unfold string_fits; vm_compute; reflexivity).
  split; [exact H |].
  exact (proj1 (proj2 (select_last "0110100110010110" H))).
Defined.

(** C8, as the claim has it, fails for the zeros: [B] has 8 zeros, the
    last of them at position 15; [select(8, 0)] answers 15 from the search,
    not from the cache, and the cache holds 63. *)
Lemma select_last_counterexample :
  total_count "0110100110010110" false = 8
  /\ select (built "0110100110010110") 8 0 = Some 15
  /\ lastZeroPos (built "0110100110010110") = 63
  /\ zeroCount (built "0110100110010110") = 56.
Proof. vm_compute. repeat split; reflexivity. Qed.

(** * The L0 regions *)

(** C5.  For the superblock number [2 ^ 33] the bit position of the
    superblock, [2 ^ 45], is above [L0BLOCK_SIZE] (and above the [2 ^ 45 - 1]
    of the documentation), and [select_1] and [select_0] do subtract the
    snapshot for it; [superRank] compares the superblock number itself and
    leaves the snapshot out. *)
Theorem superRank_compares_number bv :
  (2 ^ 33 * 4096 >? L0BLOCK_SIZE) = true
  /\ (2 ^ 33 * 4096 >? 2 ^ 45 - 1) = true
  /\ (u64 (u64 (2 ^ 33 <<< 1) <<< 11) >? L0BLOCK_SIZE) = true
  /\ superRank bv (2 ^ 33) = u64 (vec_at (superBlocks bv) (2 ^ 34) >>> 20).
Proof.
  split; [reflexivity | split; [reflexivity | split; [reflexivity |]]].
  unfold superRank. cbv zeta.
  change (2 ^ 33 >? L0BLOCK_SIZE) with false. cbv iota.
  change (u64 (2 ^ 33 <<< 1)) with (2 ^ 34). reflexivity.
Qed.

(** C6.  The snapshot is taken in the round that makes the superblock
    number [2 ^ 31 - 1], the value of [SUPERBLOCKS_PER_L0]; the round that
    makes it [2 ^ 31] takes none. *)
Theorem region_snapshot n st v :
  superblock_ends n st v = true ->
  SUPERBLOCKS_PER_L0 = 2 ^ 31 - 1
  /\ (superblockIndex st = 2 * (2 ^ 31 - 2) ->
      (u64 (superblockIndex st + 2) >>> 1) = 2 ^ 31 - 1
      /\ L0SingleBlockData (this (build_step n st v))
         = oneCount (this (build_step n st v))
      /\ L0BlockOneCounter (build_step n st v) = 0)
  /\ (superblockIndex st = 2 * (2 ^ 31 - 1) ->
      (u64 (superblockIndex st + 2) >>> 1) = 2 ^ 31
      /\ L0SingleBlockData (this (build_step n st v)) = L0SingleBlockData (this st)
      /\ L0BlockOneCounter (build_step n st v)
         = u64 (L0BlockOneCounter st + step_ones st v)).
Proof.
  intros Hends. split; [reflexivity | split]; intros Hidx.
  - rewrite step_L0SingleBlockData, step_L0BlockOneCounter, step_oneCount.
    unfold region_ends. rewrite Hends, Hidx.
    split; [reflexivity | split; reflexivity].
  - rewrite step_L0SingleBlockData, step_L0BlockOneCounter.
    unfold region_ends. rewrite Hends, Hidx.
    split; [reflexivity | split; reflexivity].
Qed.

Lemma region_snapshot_witness :
  superblock_ends 1 closing_round 0 = true
  /\ L0SingleBlockData (this (build_step 1 closing_round 0))
     = oneCount (this (build_step 1 closing_round 0))
  /\ L0BlockOneCounter (build_step 1 closing_round 0) = 0.
Proof.
  assert (H : superblock_ends 1 closing_round 0 = true) by reflexivity.
  split; [exact H |].
  exact (proj2 (proj1 (proj2 (region_snapshot 1 closing_round 0 H)) eq_refl)).
Defined.

(** * A string of ones that reaches the second L0 region *)

Lemma ones_string_length m : str_length (ones_string m) = Z.of_nat m.
Proof.
  unfold str_length. induction m as [| k IH]; [reflexivity |].
  simpl String.length. lia.
Qed.

Lemma ones_string_bits m : bits (ones_string m) = replicate m true.
Proof. induction m as [| k IH]; [reflexivity |]. simpl. rewrite IH. reflexivity. Qed.

Lemma count_bit_replicate k : count_bit true (replicate k true) = Z.of_nat k.
Proof. induction k as [| k IH]; [reflexivity |]. simpl replicate. simpl count_bit. lia. Qed.

Lemma ones_string_bit_length m : bit_length (ones_string m) = Z.of_nat m.
Proof. unfold bit_length. rewrite ones_string_bits, length_replicate. reflexivity. Qed.

Lemma ones_string_rank m i :
  0 <= i <= Z.of_nat m -> true_rank (ones_string m) i true = i.
Proof.
  intros Hi. unfold true_rank. rewrite ones_string_bits, take_replicate.
  rewrite count_bit_replicate. lia.
Qed.

Lemma ones_string_bit m i :
  0 <= i < Z.of_nat m -> true_bit (ones_string m) i = true.
Proof.
  intros Hi. unfold true_bit. destruct (Z.ltb_spec i 0); [lia |].
  rewrite ones_string_bits.
  apply nth_lookup_Some with (d := false).
  apply lookup_replicate. split; [reflexivity | lia].
Qed.

Section LongOnes.
Variable m : nat.
Hypothesis Hm : Z.of_nat m = first_region_bits + 1.

Local Abbreviation s := (ones_string m).

Lemma first_region_value : first_region_bits = 2 ^ 43 - 4096.
Proof. reflexivity. Qed.

Lemma long_fits : string_fits s.
Proof.
  unfold string_fits. rewrite ones_string_length, Hm, first_region_value. lia.
Qed.

Lemma long_word_count : word_count s = 64 * SUPERBLOCKS_PER_L0 + 1.
Proof.
  unfold word_count. rewrite ones_string_length, Hm. unfold first_region_bits.
  generalize SUPERBLOCKS_PER_L0. intros q. Z.div_mod_to_equations. lia.
Qed.

(** [rank_1] at the end of the string counts from the start of the second
    region only. *)
Lemma long_rank_1 : rank_1 (built s) (first_region_bits + 1) = 1.
Proof.
  pose proof long_fits as Hfit.
  assert (HQ : 0 < SUPERBLOCKS_PER_L0) by reflexivity.
  assert (Hq : (first_region_bits + 1) / 4096 = SUPERBLOCKS_PER_L0).
  { unfold first_region_bits. generalize SUPERBLOCKS_PER_L0 HQ. intros q Hq0.
    Z.div_mod_to_equations. lia. }
  rewrite built_rank_1; [| exact Hfit |].
  2:{ rewrite long_word_count. unfold first_region_bits. lia. }
  rewrite Hq. unfold L0_start. rewrite Z.ltb_irrefl.
  rewrite ones_between_same.
  assert (Hlow : (first_region_bits + 1 >? L0BLOCK_SIZE) = false) by reflexivity.
  rewrite Hlow.
  rewrite ones_string_rank by lia.
  rewrite <- ones_before_words by lia.
  rewrite <- built_vector by exact Hfit.
  rewrite built_ones_before by (exact Hfit || lia).
  fold first_region_bits.
  replace (64 * (64 * SUPERBLOCKS_PER_L0)) with first_region_bits
    by (unfold first_region_bits; lia).
  rewrite ones_string_rank by (rewrite Hm; unfold first_region_bits; lia).
  rewrite Z.mod_0_l by lia. lia.
Qed.

Lemma long_rank : rank (built s) (first_region_bits + 1) 1 = 1.
Proof.
  pose proof long_fits as Hfit.
  assert (HQ : 0 < SUPERBLOCKS_PER_L0) by reflexivity.
  rewrite rank_inside; [| exact Hfit |].
  2:{ rewrite long_word_count. unfold first_region_bits. lia. }
  change (1 =? 1) with true. cbv iota. apply long_rank_1.
Qed.

Lemma long_lastOnePos : lastOnePos (built s) = first_region_bits.
Proof.
  pose proof long_fits as Hfit.
  assert (HQ : 0 < SUPERBLOCKS_PER_L0) by reflexivity.
  assert (Hf : 0 < first_region_bits) by (unfold first_region_bits; lia).
  assert (Htot : 0 < total_count s true).
  { rewrite <- (true_rank_all s (Z.of_nat m)) by (rewrite ones_string_bit_length; lia).
    rewrite ones_string_rank by lia. lia. }
  destruct (proj2 (built_lastOnePos s Hfit) Htot) as (Hr & Hb & Ha).
  rewrite ones_string_bit_length, Hm in Hr.
  destruct (Z.lt_ge_cases (lastOnePos (built s)) first_region_bits) as [L | G]; [| lia].
  specialize (Ha first_region_bits L).
  rewrite ones_string_bit in Ha by lia. discriminate.
Qed.

Lemma long_oneCount : oneCount (built s) = first_region_bits + 1.
Proof.
  rewrite built_oneCount by exact long_fits.
  rewrite <- (true_rank_all s (Z.of_nat m)) by (rewrite ones_string_bit_length; lia).
  rewrite ones_string_rank by lia. exact Hm.
Qed.

Lemma long_select :
  select (built s) (first_region_bits + 1) 1 = Some first_region_bits.
Proof.
  unfold select, select_1. change (1 =? 1) with true. cbv iota.
  rewrite long_oneCount, Z.eqb_refl, long_lastOnePos. reflexivity.
Qed.
End LongOnes.

Lemma long_ones_size : Z.of_nat (Z.to_nat (first_region_bits + 1)) = first_region_bits + 1.
Proof. apply Z2Nat.id. rewrite first_region_value. lia. Qed.

(** C1, where the code fails.  [long_ones] is a string of [2 ^ 43 - 4095]
    characters 1: one bit more than the 4096 * (2 ^ 31 - 1) bits after which
    [buildHelpers] takes its snapshot and starts counting from zero.
    [rank_1] adds the snapshot only above [L0BLOCK_SIZE = 2 ^ 44 - 1], so at
    the end of this string [rank] answers 1, while all the [2 ^ 43 - 4095]
    bits before that position are 1. *)
Theorem rank_past_first_region :
  bit_length long_ones = 2 ^ 43 - 4095
  /\ true_rank long_ones (2 ^ 43 - 4095) true = 2 ^ 43 - 4095
  /\ rank (built long_ones) (2 ^ 43 - 4095) 1 = 1.
Proof.
  pose proof long_ones_size as Hm. unfold long_ones.
  change (2 ^ 43 - 4095) with (first_region_bits + 1).
  revert Hm. generalize (Z.to_nat (first_region_bits + 1)). intros m Hm.
  split; [| split].
  - rewrite ones_string_bit_length. exact Hm.
  - apply ones_string_rank. rewrite Hm, first_region_value. lia.
  - apply long_rank. exact Hm.
Qed.

(** C2, where the code fails.  On the same string the last 1-bit is the
    [k]-th for [k = 2 ^ 43 - 4095]; [select(k, 1)] answers its position,
    [k - 1], from the cache, and [rank] of the next position is 1, not [k]. *)
Theorem rank_select_past_first_region :
  total_count long_ones true = 2 ^ 43 - 4095
  /\ select (built long_ones) (2 ^ 43 - 4095) 1 = Some (2 ^ 43 - 4096)
  /\ rank (built long_ones) (2 ^ 43 - 4096 + 1) 1 = 1.
Proof.
  pose proof long_ones_size as Hm. unfold long_ones.
  change (2 ^ 43 - 4096 + 1) with (first_region_bits + 1).
  change (2 ^ 43 - 4095) with (first_region_bits + 1).
  change (2 ^ 43 - 4096) with first_region_bits.
  revert Hm. generalize (Z.to_nat (first_region_bits + 1)). intros m Hm.
  split; [| split].
  - rewrite <- (built_oneCount _ (long_fits m Hm)). apply long_oneCount. exact Hm.
  - apply long_select. exact Hm.
  - apply long_rank. exact Hm.
Qed.

(** * The search inside a word *)

Lemma u8_succ_pred c : u8 (u8 (c - 1) + 1) = u8 c.
Proof.
  unfold u8, wrap. rewrite Zplus_mod_idemp_l. f_equal. lia.
Qed.

Lemma land_1 x : x .& 1 = Z.b2z (Z.testbit x 0).
Proof.
  change 1 with (Z.ones 1). rewrite Z.land_ones by lia. change (2 ^ 1) with 2.
  symmetry. apply Z.bit0_mod.
Qed.

Lemma low_bits_succ x d :
  0 <= d -> 0 <= x ->
  x mod 2 ^ (d + 1) = 2 * ((x / 2) mod 2 ^ d) + Z.b2z (Z.testbit x 0).
Proof.
  intros Hd Hx. rewrite Z.pow_add_r by lia. change (2 ^ 1) with 2.
  rewrite Z.bit0_mod.
  assert (H2 : 0 < 2 ^ d) by (apply Z.pow_pos_nonneg; lia).
  rewrite (Z.mul_comm (2 ^ d) 2). rewrite Z.rem_mul_r by lia. lia.
Qed.

Lemma popcount_low_shift x d :
  0 <= d -> 0 <= x ->
  popcount (x mod 2 ^ (d + 1))
  = popcount ((x / 2) mod 2 ^ d) + Z.b2z (Z.testbit x 0).
Proof.
  intros Hd Hx. rewrite low_bits_succ by assumption.
  assert (H2 : 0 < 2 ^ d) by (apply Z.pow_pos_nonneg; lia).
  pose proof (Z.mod_pos_bound (x / 2) (2 ^ d) H2) as Hm.
  destruct (Z.testbit x 0); simpl Z.b2z.
  - rewrite popcount_succ_double by lia. lia.
  - rewrite Z.add_0_r. rewrite popcount_double by lia. lia.
Qed.

(** With [remaining] between 1 and the number of set bits of the word, the
    loop ends at the set bit number [remaining], counted from bit 0. *)
Lemma bit_loop_spec : forall fuel x R c,
  0 <= x < 2 ^ Z.of_nat fuel -> 1 <= R <= popcount x ->
  0 <= c -> c + Z.of_nat fuel <= 256 ->
  exists d, 0 <= d < Z.of_nat fuel
    /\ bit_loop fuel R x (u8 (c - 1)) = Some (c + d)
    /\ Z.testbit x d = true
    /\ popcount (x mod 2 ^ d) = R - 1.
Proof.
  induction fuel as [| f IH]; intros x R c Hx HR Hc Hf.
  - simpl in Hx. assert (x = 0) by lia. subst x. simpl in HR. lia.
  - pose proof (popcount_half x ltac:(lia)) as Hhalf.
    pose proof (popcount_bound (Z.of_nat (S f)) x ltac:(lia) Hx) as Hb.
    cbn [bit_loop]. destruct (Z.gtb_spec R 0) as [_ | G]; [| lia].
    rewrite land_1, u8_succ_pred, shiftr_1.
    rewrite (u8_small c) by lia.
    assert (Hx1 : 0 <= x / 2 < 2 ^ Z.of_nat f).
    { rewrite Nat2Z.inj_succ, Z.pow_succ_r in Hx by lia.
      split; [apply Z.div_pos; lia | apply Z.div_lt_upper_bound; lia]. }
    assert (Hbit : 0 <= Z.b2z (Z.testbit x 0) <= 1) by (destruct (Z.testbit x 0); simpl; lia).
    rewrite u64_small by lia.
    destruct (Z.eq_dec (R - Z.b2z (Z.testbit x 0)) 0) as [E | E].
    + rewrite E. exists 0. split; [lia |]. split.
      * destruct f; simpl; f_equal; lia.
      * destruct (Z.testbit x 0); simpl in *; [| lia].
        split; [reflexivity |]. change (2 ^ 0) with 1. rewrite Z.mod_1_r. simpl. lia.
    + destruct (IH (x / 2) (R - Z.b2z (Z.testbit x 0)) (c + 1) Hx1 ltac:(lia) ltac:(lia)
                  ltac:(lia)) as (d & Hd & Hrun & Htest & Hcount).
      exists (d + 1). split; [lia |]. split; [| split].
      * replace (c + 1 - 1) with c in Hrun by lia. rewrite (u8_small c) in Hrun by lia.
        rewrite Hrun. f_equal. lia.
      * rewrite <- Htest. rewrite <- Z.div2_div. rewrite Z.div2_spec.
        rewrite Z.shiftr_spec by lia. reflexivity.
      * rewrite popcount_low_shift by lia. lia.
Qed.

(** ** Complemented words *)

Lemma not64_value w : 0 <= w < 2 ^ 64 -> not64 w = 2 ^ 64 - 1 - w.
Proof.
  intros Hw. unfold not64, Z.lnot, u64, wrap.
  replace (Z.pred (- w)) with (2 ^ 64 - 1 - w + (-1) * 2 ^ 64) by lia.
  rewrite Z.mod_add by lia. apply Z.mod_small. lia.
Qed.

Lemma popcount_complement d :
  0 <= d -> forall w, 0 <= w < 2 ^ d -> popcount (2 ^ d - 1 - w) = d - popcount w.
Proof.
  intros Hd. pattern d. apply natlike_ind; [| | exact Hd].
  - intros w Hw. change (2 ^ 0) with 1 in *. assert (w = 0) by lia. subst w. reflexivity.
  - intros k Hk IH w Hw. unfold Z.succ in *.
    rewrite Z.pow_add_r in * by lia. change (2 ^ 1) with 2 in *.
    pose proof (half_and_bit w) as Hhb.
    pose proof (popcount_half w ltac:(lia)) as Hph.
    assert (Hw2 : 0 <= w / 2 < 2 ^ k).
    { split; [apply Z.div_pos; lia | apply Z.div_lt_upper_bound; lia]. }
    specialize (IH (w / 2) Hw2).
    destruct (Z.testbit w 0); simpl Z.b2z in *.
    + replace (2 ^ k * 2 - 1 - w) with (2 * (2 ^ k - 1 - w / 2)) by lia.
      rewrite popcount_double by lia. lia.
    + replace (2 ^ k * 2 - 1 - w) with (2 * (2 ^ k - 1 - w / 2) + 1) by lia.
      rewrite popcount_succ_double by lia. lia.
Qed.

Lemma not64_low w d :
  0 <= w < 2 ^ 64 -> 0 <= d <= 64 ->
  not64 w mod 2 ^ d = 2 ^ d - 1 - w mod 2 ^ d.
Proof.
  intros Hw Hd. rewrite not64_value by exact Hw.
  assert (H2 : 0 < 2 ^ d) by (apply Z.pow_pos_nonneg; lia).
  assert (Hsplit : 2 ^ 64 = 2 ^ (64 - d) * 2 ^ d).
  { rewrite <- Z.pow_add_r by lia. f_equal. lia. }
  pose proof (Z.mod_pos_bound w (2 ^ d) H2) as Hm.
  pose proof (Z.div_mod w (2 ^ d) ltac:(lia)) as Hdm.
  symmetry. apply Z.mod_unique with (q := 2 ^ (64 - d) - 1 - w / 2 ^ d); [lia |].
  rewrite Hsplit. lia.
Qed.

Lemma popcount_not64_low w d :
  0 <= w < 2 ^ 64 -> 0 <= d <= 64 ->
  popcount (not64 w mod 2 ^ d) = d - popcount (w mod 2 ^ d).
Proof.
  intros Hw Hd. rewrite not64_low by assumption.
  assert (H2 : 0 < 2 ^ d) by (apply Z.pow_pos_nonneg; lia).
  apply popcount_complement; [lia | apply Z.mod_pos_bound; exact H2].
Qed.

Lemma popcount_not64 w : 0 <= w < 2 ^ 64 -> popcount (not64 w) = 64 - popcount w.
Proof.
  intros Hw. rewrite not64_value by exact Hw.
  apply (popcount_complement 64); lia.
Qed.

Lemma not64_range w : 0 <= w < 2 ^ 64 -> 0 <= not64 w < 2 ^ 64.
Proof. intros Hw. rewrite not64_value by exact Hw. lia. Qed.

Lemma testbit_not64 w d :
  0 <= w < 2 ^ 64 -> 0 <= d < 64 -> Z.testbit (not64 w) d = negb (Z.testbit w d).
Proof.
  intros Hw Hd. unfold not64, u64, wrap.
  rewrite Z.mod_pow2_bits_low by lia. apply Z.lnot_spec. lia.
Qed.

(** * The search through the words of a block *)

Lemma bit_in_word v w d :
  0 <= d < 64 -> bit_at v (64 * w + d) = Z.testbit (vec_at v w) d.
Proof.
  intros Hd. unfold bit_at. destruct (word_position w d Hd) as [Hq Hr].
  rewrite Hq, Hr. reflexivity.
Qed.

Lemma ones_before_in_word v w d :
  0 <= d < 64 ->
  ones_before v (64 * w + d) = ones_words v w + popcount (vec_at v w mod 2 ^ d).
Proof.
  intros Hd. unfold ones_before. destruct (word_position w d Hd) as [Hq Hr].
  rewrite Hq, Hr. rewrite land_low by lia. reflexivity.
Qed.

Lemma ones_between_first v a b :
  0 <= a ->
  ones_between v a b = popcount (vec_at v a) + ones_between v (a + 1) b.
Proof.
  intros Ha. rewrite (ones_between_split v a (a + 1) b).
  rewrite ones_between_succ by lia. rewrite ones_between_same. lia.
Qed.

Section WordSearch.
Variable v : list Z.
Hypothesis Hv : words_ok v.
Variable wi : Z.
Hypothesis Hwi : 0 <= wi < 2 ^ 57.

(** With [remaining] between 1 and the number of set bits in the words
    that are left, [select_1] ends at the set bit number [remaining] of
    these words. *)
Lemma select_1_words_spec : forall cnt index R,
  Z.of_nat cnt + index = 8 -> 0 <= index ->
  1 <= R <= ones_between v (wi + index) (wi + 8) ->
  exists p, select_1_words cnt v wi (64 * wi) index R = Some p
    /\ 64 * (wi + index) <= p < 64 * (wi + 8)
    /\ bit_at v p = true
    /\ ones_before v p = ones_words v (wi + index) + R - 1.
Proof.
  induction cnt as [| cnt IH]; intros index R Hcnt Hidx HR.
  - replace index with 8 in HR by lia. rewrite ones_between_same in HR. lia.
  - cbn [select_1_words].
    rewrite (u64_small (wi + index)) by lia.
    pose proof (vec_at_range v (wi + index) Hv) as Hw.
    pose proof (popcount_word _ Hw) as Hpc.
    rewrite (u8_small (popcount _)) by lia.
    rewrite (ones_between_first v (wi + index)) in HR by lia.
    pose proof (ones_between_range v Hv (wi + index + 1) (wi + 8) ltac:(lia)) as Hrest.
    destruct (Z.gtb_spec R (popcount (vec_at v (wi + index)))) as [G | G].
    + rewrite (u8_small (index + 1)) by lia. rewrite u64_small by lia.
      destruct (IH (index + 1) (R - popcount (vec_at v (wi + index)))
                  ltac:(lia) ltac:(lia)) as (p & Hrun & Hp & Hbit & Hcount).
      { replace (wi + (index + 1)) with (wi + index + 1) by lia. lia. }
      exists p. split; [exact Hrun |]. split; [lia |]. split; [exact Hbit |].
      rewrite Hcount. replace (wi + (index + 1)) with (wi + index + 1) by lia.
      rewrite ones_words_succ by lia. lia.
    + destruct (Z.gtb_spec R 0) as [_ | L]; [| lia].
      destruct (bit_loop_spec 64 (vec_at v (wi + index)) R 0 Hw ltac:(lia) ltac:(lia)
                  ltac:(simpl; lia)) as (d & Hd & Hrun & Htest & Hcount).
      rewrite Hrun. rewrite Z.add_0_l. rewrite shiftl_6.
      change (Z.of_nat 64) with 64 in Hd.
      rewrite (u64_small (64 * wi + index * 64)) by lia.
      rewrite u64_small by lia.
      replace (64 * wi + index * 64 + d) with (64 * (wi + index) + d) by lia.
      exists (64 * (wi + index) + d). split; [reflexivity |]. split; [lia |]. split.
      * rewrite bit_in_word by lia. exact Htest.
      * rewrite ones_before_in_word by lia. rewrite Hcount. lia.
Qed.

(** The same for [select_0] and the bits that are not set. *)
Lemma select_0_words_spec : forall cnt index R,
  Z.of_nat cnt + index = 8 -> 0 <= index ->
  1 <= R <= 64 * (8 - index) - ones_between v (wi + index) (wi + 8) ->
  exists p, select_0_words cnt v wi (64 * wi) index R = Some p
    /\ 64 * (wi + index) <= p < 64 * (wi + 8)
    /\ bit_at v p = false
    /\ p - ones_before v p = 64 * (wi + index) - ones_words v (wi + index) + R - 1.
Proof.
  induction cnt as [| cnt IH]; intros index R Hcnt Hidx HR.
  - replace index with 8 in HR by lia. rewrite ones_between_same in HR. lia.
  - cbn [select_0_words].
    rewrite (u64_small (wi + index)) by lia.
    pose proof (vec_at_range v (wi + index) Hv) as Hw.
    pose proof (popcount_word _ Hw) as Hpc.
    pose proof (not64_range _ Hw) as Hnw.
    rewrite popcount_not64 by exact Hw.
    rewrite (u8_small (64 - popcount _)) by lia.
    rewrite (ones_between_first v (wi + index)) in HR by lia.
    pose proof (ones_between_range v Hv (wi + index + 1) (wi + 8) ltac:(lia)) as Hrest.
    destruct (Z.gtb_spec R (64 - popcount (vec_at v (wi + index)))) as [G | G].
    + rewrite (u8_small (index + 1)) by lia. rewrite u64_small by lia.
      destruct (IH (index + 1) (R - (64 - popcount (vec_at v (wi + index))))
                  ltac:(lia) ltac:(lia)) as (p & Hrun & Hp & Hbit & Hcount).
      { replace (wi + (index + 1)) with (wi + index + 1) by lia. lia. }
      exists p. split; [exact Hrun |]. split; [lia |]. split; [exact Hbit |].
      rewrite Hcount. replace (wi + (index + 1)) with (wi + index + 1) by lia.
      rewrite ones_words_succ by lia. lia.
    + destruct (Z.gtb_spec R 0) as [_ | L]; [| lia].
      destruct (bit_loop_spec 64 (not64 (vec_at v (wi + index))) R 0 Hnw
                  ltac:(rewrite popcount_not64 by exact Hw; lia) ltac:(lia)
                  ltac:(simpl; lia)) as (d & Hd & Hrun & Htest & Hcount).
      rewrite Hrun. rewrite Z.add_0_l. rewrite shiftl_6.
      change (Z.of_nat 64) with 64 in Hd.
      rewrite (u64_small (64 * wi + index * 64)) by lia.
      rewrite u64_small by lia.
      replace (64 * wi + index * 64 + d) with (64 * (wi + index) + d) by lia.
      exists (64 * (wi + index) + d). split; [reflexivity |]. split; [lia |]. split.
      * rewrite bit_in_word by lia. rewrite testbit_not64 in Htest by lia.
        destruct (Z.testbit (vec_at v (wi + index)) d); [discriminate | reflexivity].
      * rewrite ones_before_in_word by lia.
        rewrite popcount_not64_low in Hcount by lia. lia.
Qed.
End WordSearch.

(** * The search through the blocks of a superblock *)

Ltac block_sums :=
  change (0 + 1) with 1 in *; change (1 + 1) with 2 in *; change (2 + 1) with 3 in *;
  change (3 + 1) with 4 in *; change (4 + 1) with 5 in *; change (5 + 1) with 6 in *;
  change (6 + 1) with 7 in *; change (7 + 1) with 8 in *.

Section BlockSearch.
Variables m1 m2 : Z.
(** The seven fields as [select_1] and [select_0] read them. *)
Variable f : Z -> Z.
Hypothesis Hf0 : (m1 >>> 8) .& 0xFFF = f 0.
Hypothesis Hf1 : ((m1 .& 0xFF) <<< 4) .| (m2 >>> 60) = f 1.
Hypothesis Hf2 : m2 .& 0xFFF = f 2.
Hypothesis Hf3 : (m2 >>> 12) .& 0xFFF = f 3.
Hypothesis Hf4 : (m2 >>> 24) .& 0xFFF = f 4.
Hypothesis Hf5 : (m2 >>> 36) .& 0xFFF = f 5.
Hypothesis Hf6 : (m2 >>> 48) .& 0xFFF = f 6.
(** [A t] is the number of set bits in front of block [t]. *)
Variable A : Z -> Z.
Hypothesis HA0 : A 0 = 0.
Hypothesis HAstep : forall t, 0 <= t <= 7 -> 0 <= A (t + 1) - A t <= 512.

Lemma select_1_blocks_spec R :
  (forall t, 0 <= t <= 6 -> f t = A (t + 1) \/ (f t = 0 /\ A t = A 8)) ->
  1 <= R <= A 8 ->
  exists t, 0 <= t <= 7
    /\ select_1_blocks m1 m2 R = (R - A t, t)
    /\ A t < R <= A (t + 1).
Proof.
  intros Hfield HR.
  pose proof (HAstep 0 ltac:(lia)) as S0. pose proof (HAstep 1 ltac:(lia)) as S1.
  pose proof (HAstep 2 ltac:(lia)) as S2. pose proof (HAstep 3 ltac:(lia)) as S3.
  pose proof (HAstep 4 ltac:(lia)) as S4. pose proof (HAstep 5 ltac:(lia)) as S5.
  pose proof (HAstep 6 ltac:(lia)) as S6. pose proof (HAstep 7 ltac:(lia)) as S7.
  pose proof (Hfield 0 ltac:(lia)) as F0. pose proof (Hfield 1 ltac:(lia)) as F1.
  pose proof (Hfield 2 ltac:(lia)) as F2. pose proof (Hfield 3 ltac:(lia)) as F3.
  pose proof (Hfield 4 ltac:(lia)) as F4. pose proof (Hfield 5 ltac:(lia)) as F5.
  pose proof (Hfield 6 ltac:(lia)) as F6.
  block_sums.
  unfold select_1_blocks. cbv zeta.
  rewrite Hf0, Hf1, Hf2, Hf3, Hf4, Hf5, Hf6.
  destruct (Z.geb_spec (f 0) R); [exists 0; rewrite u64_small by lia; rewrite HA0;
    split; [lia | split; [f_equal; lia | block_sums; lia]] |].
  destruct (Z.geb_spec (f 1) R); [exists 1; rewrite u64_small by lia;
    split; [lia | split; [f_equal; lia | block_sums; lia]] |].
  destruct (Z.geb_spec (f 2) R); [exists 2; rewrite u64_small by lia;
    split; [lia | split; [f_equal; lia | block_sums; lia]] |].
  destruct (Z.geb_spec (f 3) R); [exists 3; rewrite u64_small by lia;
    split; [lia | split; [f_equal; lia | block_sums; lia]] |].
  destruct (Z.geb_spec (f 4) R); [exists 4; rewrite u64_small by lia;
    split; [lia | split; [f_equal; lia | block_sums; lia]] |].
  destruct (Z.geb_spec (f 5) R); [exists 5; rewrite u64_small by lia;
    split; [lia | split; [f_equal; lia | block_sums; lia]] |].
  destruct (Z.geb_spec (f 6) R); [exists 6; rewrite u64_small by lia;
    split; [lia | split; [f_equal; lia | block_sums; lia]] |].
  exists 7. rewrite u64_small by lia.
  split; [lia | split; [f_equal; lia | block_sums; lia]].
Qed.

Lemma select_0_blocks_spec R :
  (forall t, 0 <= t <= 6 ->
     f t = A (t + 1) \/ (f t = 0 /\ A t = A 8 /\ R <= 512 * t - A t)) ->
  1 <= R <= 4096 - A 8 ->
  exists t, 0 <= t <= 7
    /\ select_0_blocks m1 m2 R = (R - (512 * t - A t), t)
    /\ 512 * t - A t < R <= 512 * (t + 1) - A (t + 1).
Proof.
  intros Hfield HR.
  pose proof (HAstep 0 ltac:(lia)) as S0. pose proof (HAstep 1 ltac:(lia)) as S1.
  pose proof (HAstep 2 ltac:(lia)) as S2. pose proof (HAstep 3 ltac:(lia)) as S3.
  pose proof (HAstep 4 ltac:(lia)) as S4. pose proof (HAstep 5 ltac:(lia)) as S5.
  pose proof (HAstep 6 ltac:(lia)) as S6. pose proof (HAstep 7 ltac:(lia)) as S7.
  pose proof (Hfield 0 ltac:(lia)) as F0. pose proof (Hfield 1 ltac:(lia)) as F1.
  pose proof (Hfield 2 ltac:(lia)) as F2. pose proof (Hfield 3 ltac:(lia)) as F3.
  pose proof (Hfield 4 ltac:(lia)) as F4. pose proof (Hfield 5 ltac:(lia)) as F5.
  pose proof (Hfield 6 ltac:(lia)) as F6.
  block_sums.
  assert (Hunfold : select_0_blocks m1 m2 R
    = if u64 (512 - f 0) >=? R then (u64 (R - 0), 0) else
      if u64 (1024 - f 1) >=? R then (u64 (R - u64 (512 - f 0)), 1) else
      if u64 (1536 - f 2) >=? R then (u64 (R - u64 (1024 - f 1)), 2) else
      if u64 (2048 - f 3) >=? R then (u64 (R - u64 (1536 - f 2)), 3) else
      if u64 (2560 - f 4) >=? R then (u64 (R - u64 (2048 - f 3)), 4) else
      if u64 (3072 - f 5) >=? R then (u64 (R - u64 (2560 - f 4)), 5) else
      if u64 (3584 - f 6) >=? R then (u64 (R - u64 (3072 - f 5)), 6) else
      (u64 (R - u64 (3584 - f 6)), 7)).
  { rewrite <- Hf0, <- Hf1, <- Hf2, <- Hf3, <- Hf4, <- Hf5, <- Hf6. reflexivity. }
  rewrite Hunfold. clear Hunfold.
  assert (G0 : 0 <= f 0 <= 512) by lia.
  assert (G1 : 0 <= f 1 <= 1024) by lia.
  assert (G2 : 0 <= f 2 <= 1536) by lia.
  assert (G3 : 0 <= f 3 <= 2048) by lia.
  assert (G4 : 0 <= f 4 <= 2560) by lia.
  assert (G5 : 0 <= f 5 <= 3072) by lia.
  assert (G6 : 0 <= f 6 <= 3584) by lia.
  rewrite (u64_small (512 - f 0)) by lia. rewrite (u64_small (1024 - f 1)) by lia.
  rewrite (u64_small (1536 - f 2)) by lia. rewrite (u64_small (2048 - f 3)) by lia.
  rewrite (u64_small (2560 - f 4)) by lia. rewrite (u64_small (3072 - f 5)) by lia.
  rewrite (u64_small (3584 - f 6)) by lia.
  destruct (Z.geb_spec (512 - f 0) R); [exists 0; rewrite u64_small by lia; rewrite HA0;
    split; [lia | split; [f_equal; lia | block_sums; lia]] |].
  destruct (Z.geb_spec (1024 - f 1) R); [exists 1; rewrite u64_small by lia;
    split; [lia | split; [f_equal; lia | block_sums; lia]] |].
  destruct (Z.geb_spec (1536 - f 2) R); [exists 2; rewrite u64_small by lia;
    split; [lia | split; [f_equal; lia | block_sums; lia]] |].
  destruct (Z.geb_spec (2048 - f 3) R); [exists 3; rewrite u64_small by lia;
    split; [lia | split; [f_equal; lia | block_sums; lia]] |].
  destruct (Z.geb_spec (2560 - f 4) R); [exists 4; rewrite u64_small by lia;
    split; [lia | split; [f_equal; lia | block_sums; lia]] |].
  destruct (Z.geb_spec (3072 - f 5) R); [exists 5; rewrite u64_small by lia;
    split; [lia | split; [f_equal; lia | block_sums; lia]] |].
  destruct (Z.geb_spec (3584 - f 6) R); [exists 6; rewrite u64_small by lia;
    split; [lia | split; [f_equal; lia | block_sums; lia]] |].
  exists 7. rewrite u64_small by lia.
  split; [lia | split; [f_equal; lia | block_sums; lia]].
Qed.
End BlockSearch.

(** * The select caches *)

Lemma vec_size_app (c : list Z) x : vec_size (c ++ [x]) = vec_size c + 1.
Proof. unfold vec_size. rewrite length_app. simpl. lia. Qed.

Lemma vec_at_app_l (c l : list Z) j :
  0 <= j < vec_size c -> vec_at (c ++ l) j = vec_at c j.
Proof.
  unfold vec_size, vec_at. intros Hj. destruct (Z.ltb_spec j 0); [lia |].
  rewrite lookup_app_l by lia. reflexivity.
Qed.

Lemma vec_at_app_last (c : list Z) x : vec_at (c ++ [x]) (vec_size c) = x.
Proof.
  unfold vec_size, vec_at. destruct (Z.ltb_spec (Z.of_nat (length c)) 0); [lia |].
  rewrite Nat2Z.id. rewrite list_lookup_middle by reflexivity. reflexivity.
Qed.

Section Cumulative.
Variable cum : Z -> Z.
Hypothesis cum_step : forall m, 0 <= m -> 0 <= cum (m + 1) - cum m <= 64.

Lemma cum_grow a d : 0 <= a -> 0 <= d -> 0 <= cum (a + d) - cum a <= 64 * d.
Proof.
  intros Ha Hd. pattern d. apply natlike_ind; [| | exact Hd].
  - rewrite Z.add_0_r. lia.
  - intros x Hx IH. unfold Z.succ. pose proof (cum_step (a + x) ltac:(lia)) as Hs.
    replace (a + (x + 1)) with (a + x + 1) by lia. lia.
Qed.

Lemma cum_mono a b : 0 <= a <= b -> cum a <= cum b.
Proof.
  intros H. pose proof (cum_grow a (b - a) ltac:(lia) ltac:(lia)) as Hg.
  replace (a + (b - a)) with b in Hg by lia. lia.
Qed.

Lemma cum_bound a b : 0 <= a <= b -> cum b - cum a <= 64 * (b - a).
Proof.
  intros H. pose proof (cum_grow a (b - a) ltac:(lia) ltac:(lia)) as Hg.
  replace (a + (b - a)) with b in Hg by lia. lia.
Qed.

Lemma cache_entry_later v j c : cache_entry cum v j c -> cache_entry cum (v + 1) j c.
Proof. unfold cache_entry. intros H. lia. Qed.

(** One round of the loop, as far as a select cache goes. *)
Lemma cache_inv_step v threshold cache :
  0 <= v < 2 ^ 38 -> cum v <= 2 ^ 62 ->
  cache_inv cum v threshold cache ->
  cache_inv cum (v + 1)
    (if cum (v + 1) >=? threshold
     then u64 (threshold + EVERY_OTHER_1_POS) else threshold)
    (if cum (v + 1) >=? threshold
     then cache ++ [u32 (u64 (2 * (v / 64)) >>> 1)] else cache).
Proof.
  intros Hv Hc [Hnext Hrange Hentry].
  pose proof (cum_step v ltac:(lia)) as Hs.
  pose proof (vec_size_nonneg cache) as Hsize.
  assert (Hq : u32 (u64 (2 * (v / 64)) >>> 1) = v / 64).
  { assert (0 <= v / 64 < 2 ^ 32).
    { split; [apply Z.div_pos; lia | apply Z.div_lt_upper_bound; lia]. }
    rewrite u64_small by lia. rewrite shiftr_1.
    replace (2 * (v / 64) / 2) with (v / 64) by (Z.div_mod_to_equations; lia).
    apply u32_small. lia. }
  rewrite Hq. unfold EVERY_OTHER_1_POS.
  destruct (Z.geb_spec (cum (v + 1)) threshold) as [G | G].
  - rewrite u64_small by lia. constructor.
    + rewrite vec_size_app. lia.
    + lia.
    + intros j Hj. rewrite vec_size_app in Hj.
      destruct (Z.eq_dec j (vec_size cache)) as [-> | Hne].
      * rewrite vec_at_app_last. unfold cache_entry.
        pose proof (cum_mono (64 * (v / 64)) v ltac:(Z.div_mod_to_equations; lia)) as M1.
        pose proof (cum_mono (v + 1) (64 * (v / 64 + 1))
                      ltac:(Z.div_mod_to_equations; lia)) as M2.
        assert (0 <= v / 64) by (apply Z.div_pos; lia).
        assert (64 * (v / 64) < v + 1) by (Z.div_mod_to_equations; lia).
        lia.
      * rewrite vec_at_app_l by lia. apply cache_entry_later. apply Hentry. lia.
  - constructor; [exact Hnext | lia |].
    intros j Hj. apply cache_entry_later. apply Hentry. exact Hj.
Qed.
End Cumulative.

Lemma zeros_words_step v m :
  words_ok v -> 0 <= m -> 0 <= zeros_words v (m + 1) - zeros_words v m <= 64.
Proof.
  intros Hv Hm. unfold zeros_words. rewrite ones_words_succ by exact Hm.
  pose proof (popcount_word _ (vec_at_range v m Hv)). lia.
Qed.

Lemma ones_words_step v m :
  words_ok v -> 0 <= m -> 0 <= ones_words v (m + 1) - ones_words v m <= 64.
Proof.
  intros Hv Hm. rewrite ones_words_succ by exact Hm.
  pose proof (popcount_word _ (vec_at_range v m Hv)). lia.
Qed.

Section BuildCaches.
Variable bv : bitvector.
Hypothesis Hfresh : constructed bv.
Hypothesis Hsmall : vec_size (vector bv) < 2 ^ 38.

Local Abbreviation W := (vector bv).
Local Abbreviation n := (vec_size (vector bv)).

Lemma upto_counts v :
  0 <= v < n ->
  oneCount (this (build_upto bv v)) = ones_words W v
  /\ zeroCount (this (build_upto bv v)) = zeros_words W v
  /\ superblockIndex (build_upto bv v) = 2 * (v / 64).
Proof.
  intros Hv.
  pose proof (counts_upto bv Hfresh v (regular_upto_inner bv v ltac:(lia))) as Hc.
  pose proof (shape_upto bv Hfresh v (regular_upto_inner bv v ltac:(lia))) as Hs.
  split; [apply (ct_one _ _ _ Hc) | split; [apply (ct_zero _ _ _ Hc) |]].
  apply (sh_super _ _ _ Hs).
Qed.

Lemma cache_1_upto v :
  0 <= v <= n ->
  cache_inv (ones_words W) v (nextSelectCacheThreshold_1 (build_upto bv v))
    (selectCache_1 (this (build_upto bv v))).
Proof.
  intros [Hv Hle]. revert Hle. pattern v. apply natlike_ind; [| | exact Hv].
  - intros _. rewrite build_upto_0. simpl. rewrite (cn_cache_1 bv Hfresh).
    constructor; [reflexivity | rewrite ones_words_0; unfold EVERY_OTHER_1_POS; lia |].
    intros j Hj. unfold vec_size in Hj. simpl in Hj. lia.
  - intros x Hx IH Hle. unfold Z.succ. rewrite build_upto_succ by lia.
    rewrite step_threshold_1, step_selectCache_1.
    destruct (upto_counts x ltac:(lia)) as (H1 & _ & Hsb). rewrite H1, Hsb.
    rewrite (step_ones_any bv Hfresh) by (apply build_upto_vector; lia).
    pose proof (cn_words bv Hfresh) as Hw.
    pose proof (ones_words_range W Hw x Hx) as Hr.
    pose proof (popcount_word _ (vec_at_range W x Hw)) as Hpc.
    rewrite (u64_small (ones_words W x + _)) by lia.
    rewrite <- ones_words_succ by lia.
    rewrite <- (u64_small (2 * (x / 64))) at 1.
    2:{ assert (0 <= x / 64 < 2 ^ 32).
        { split; [apply Z.div_pos; lia | apply Z.div_lt_upper_bound; lia]. }
        lia. }
    apply cache_inv_step; [intros m Hm; apply ones_words_step; assumption | lia | lia |].
    apply IH. lia.
Qed.

Lemma cache_0_upto v :
  0 <= v <= n ->
  cache_inv (zeros_words W) v (nextSelectCacheThreshold_0 (build_upto bv v))
    (selectCache_0 (this (build_upto bv v))).
Proof.
  intros [Hv Hle]. revert Hle. pattern v. apply natlike_ind; [| | exact Hv].
  - intros _. rewrite build_upto_0. simpl. rewrite (cn_cache_0 bv Hfresh).
    constructor; [reflexivity | unfold zeros_words; rewrite ones_words_0;
                                unfold EVERY_OTHER_1_POS; lia |].
    intros j Hj. unfold vec_size in Hj. simpl in Hj. lia.
  - intros x Hx IH Hle. unfold Z.succ. rewrite build_upto_succ by lia.
    rewrite step_threshold_0, step_selectCache_0.
    destruct (upto_counts x ltac:(lia)) as (_ & H0 & Hsb). rewrite H0, Hsb.
    rewrite (step_ones_any bv Hfresh) by (apply build_upto_vector; lia).
    pose proof (cn_words bv Hfresh) as Hw.
    pose proof (ones_words_range W Hw x Hx) as Hr.
    pose proof (popcount_word _ (vec_at_range W x Hw)) as Hpc.
    assert (Hnext : zeros_words W x + (64 - popcount (vec_at W x)) = zeros_words W (x + 1)).
    { unfold zeros_words. rewrite ones_words_succ by lia. lia. }
    rewrite (u64_small (zeros_words W x + _)) by (unfold zeros_words; lia).
    rewrite Hnext.
    rewrite <- (u64_small (2 * (x / 64))) at 1.
    2:{ assert (0 <= x / 64 < 2 ^ 32).
        { split; [apply Z.div_pos; lia | apply Z.div_lt_upper_bound; lia]. }
        lia. }
    apply cache_inv_step; [intros m Hm; apply zeros_words_step; assumption | lia
                          | unfold zeros_words; lia |].
    apply IH. lia.
Qed.

(** The caches of the built structure. *)
Lemma built_cache_1 j :
  0 <= j < vec_size (selectCache_1 (buildHelpers bv)) ->
  cache_entry (ones_words W) n j (vec_at (selectCache_1 (buildHelpers bv)) j).
Proof.
  unfold buildHelpers. rewrite finish_selectCache_1. unfold build_loop.
  pose proof (n_range bv Hfresh) as Hn.
  apply (ch_entry _ _ _ _ (cache_1_upto n ltac:(lia))).
Qed.

Lemma built_cache_0 j :
  0 <= j < vec_size (selectCache_0 (buildHelpers bv)) ->
  cache_entry (zeros_words W) n j (vec_at (selectCache_0 (buildHelpers bv)) j).
Proof.
  unfold buildHelpers. rewrite finish_selectCache_0. unfold build_loop.
  pose proof (n_range bv Hfresh) as Hn.
  apply (ch_entry _ _ _ _ (cache_0_upto n ltac:(lia))).
Qed.
End BuildCaches.

(** * The binary searches over the superblocks *)

Lemma middle_range s e :
  0 <= s < e -> e < 2 ^ 63 ->
  u64 (s + e) >>> 1 = (s + e) / 2 /\ s <= (s + e) / 2 < e.
Proof.
  intros Hs He. rewrite u64_small by lia. rewrite shiftr_1.
  split; [reflexivity |]. Z.div_mod_to_equations. lia.
Qed.

Lemma half_distance s e f :
  0 <= s < e -> e - s < 2 ^ Z.of_nat (S f) ->
  e - ((s + e) / 2 + 1) < 2 ^ Z.of_nat f /\ (s + e) / 2 - s < 2 ^ Z.of_nat f.
Proof.
  intros Hs Hd. rewrite Nat2Z.inj_succ, Z.pow_succ_r in Hd by lia.
  Z.div_mod_to_equations. lia.
Qed.

(** While the sum of the bounds does not wrap, the search ends within as
    many rounds as the distance of the bounds has bits.  With a probe that
    is monotone between the bounds it ends at the first superblock number
    whose probe is not below [num], or at [end] when there is none. *)
Lemma select_1_iterative_loop_spec bv num : forall fuel start end_,
  0 <= start <= end_ -> end_ < 2 ^ 63 -> end_ - start < 2 ^ Z.of_nat fuel ->
  (forall m m', start <= m <= m' -> m' < end_ ->
     superRank bv m' < num -> superRank bv m < num) ->
  exists x, select_1_iterative_loop fuel bv num start end_ = Some (u64 (x - 1))
    /\ start <= x <= end_
    /\ (forall m, start <= m < x -> superRank bv m < num)
    /\ (x < end_ -> num <= superRank bv x).
Proof.
  induction fuel as [| f IH]; intros s e Hs He Hd Hmono.
  - simpl in Hd. assert (e = s) by lia. subst e. exists s. simpl.
    destruct (Z.gtb_spec s s); [lia |]. split; [reflexivity |]. split; [lia |].
    split; intros; lia.
  - cbn [select_1_iterative_loop]. destruct (Z.gtb_spec e s) as [G | G].
    + destruct (middle_range s e ltac:(lia) He) as [Hmid Hr]. rewrite Hmid.
      destruct (half_distance s e f ltac:(lia) Hd) as [Hd1 Hd2].
      destruct (Z.ltb_spec (superRank bv ((s + e) / 2)) num) as [L | L].
      * rewrite u64_small by lia.
        destruct (IH ((s + e) / 2 + 1) e ltac:(lia) He Hd1) as (x & Hrun & Hx & Hlow & Hup).
        { intros m m' Hm Hm'. apply Hmono; lia. }
        exists x. split; [exact Hrun |]. split; [lia |]. split; [| exact Hup].
        intros m Hm. destruct (Z.le_gt_cases m ((s + e) / 2)) as [Hle | Hgt].
        -- apply (Hmono m ((s + e) / 2)); [lia | lia | exact L].
        -- apply Hlow. lia.
      * destruct (IH s ((s + e) / 2) ltac:(lia) ltac:(lia) Hd2) as (x & Hrun & Hx & Hlow & Hup).
        { intros m m' Hm Hm'. apply Hmono; lia. }
        exists x. split; [exact Hrun |]. split; [lia |]. split; [exact Hlow |].
        intros Hxe. destruct (Z.eq_dec x ((s + e) / 2)) as [-> | Hne]; [exact L |].
        apply Hup. lia.
    + assert (e = s) by lia. subst e. exists s. split; [reflexivity |]. split; [lia |].
      split; intros; lia.
Qed.

Lemma select_0_iterative_loop_spec bv num : forall fuel start end_,
  0 <= start <= end_ -> end_ < 2 ^ 63 -> end_ - start < 2 ^ Z.of_nat fuel ->
  (forall m m', start <= m <= m' -> m' < end_ ->
     u64 (u64 (m' <<< 12) - superRank bv m') < num ->
     u64 (u64 (m <<< 12) - superRank bv m) < num) ->
  exists x, select_0_iterative_loop fuel bv num start end_ = Some (u64 (x - 1))
    /\ start <= x <= end_
    /\ (forall m, start <= m < x -> u64 (u64 (m <<< 12) - superRank bv m) < num)
    /\ (x < end_ -> num <= u64 (u64 (x <<< 12) - superRank bv x)).
Proof.
  induction fuel as [| f IH]; intros s e Hs He Hd Hmono.
  - simpl in Hd. assert (e = s) by lia. subst e. exists s. simpl.
    destruct (Z.gtb_spec s s); [lia |]. split; [reflexivity |]. split; [lia |].
    split; intros; lia.
  - cbn [select_0_iterative_loop]. destruct (Z.gtb_spec e s) as [G | G].
    + destruct (middle_range s e ltac:(lia) He) as [Hmid Hr]. rewrite Hmid.
      destruct (half_distance s e f ltac:(lia) Hd) as [Hd1 Hd2].
      destruct (Z.ltb_spec (u64 (u64 (((s + e) / 2) <<< 12) - superRank bv ((s + e) / 2))) num)
        as [L | L].
      * rewrite (u64_small ((s + e) / 2 + 1)) by lia.
        destruct (IH ((s + e) / 2 + 1) e ltac:(lia) He Hd1) as (x & Hrun & Hx & Hlow & Hup).
        { intros m m' Hm Hm'. apply Hmono; lia. }
        exists x. split; [exact Hrun |]. split; [lia |]. split; [| exact Hup].
        intros m Hm. destruct (Z.le_gt_cases m ((s + e) / 2)) as [Hle | Hgt].
        -- apply (Hmono m ((s + e) / 2)); [lia | lia | exact L].
        -- apply Hlow. lia.
      * destruct (IH s ((s + e) / 2) ltac:(lia) ltac:(lia) Hd2) as (x & Hrun & Hx & Hlow & Hup).
        { intros m m' Hm Hm'. apply Hmono; lia. }
        exists x. split; [exact Hrun |]. split; [lia |]. split; [exact Hlow |].
        intros Hxe. destruct (Z.eq_dec x ((s + e) / 2)) as [-> | Hne]; [exact L |].
        apply Hup. lia.
    + assert (e = s) by lia. subst e. exists s. split; [reflexivity |]. split; [lia |].
      split; intros; lia.
Qed.

(** ** Where the search has to end *)

Section Bracket.
Variable cum : Z -> Z.
Hypothesis cum_step : forall m, 0 <= m -> 0 <= cum (m + 1) - cum m <= 64.
Hypothesis cum_0 : cum 0 = 0.
Variables k j : Z.
Hypothesis Hk : 1 <= k.
Hypothesis Hj : j = k / 8192.

Lemma cum_from_0 m : 0 <= m -> 0 <= cum m <= 64 * m.
Proof.
  intros Hm. pose proof (cum_grow cum cum_step 0 m ltac:(lia) Hm) as H.
  rewrite Z.add_0_l, cum_0 in H. lia.
Qed.

(** The search between [num >> 13] and the last superblock. *)
Lemma bracket_open L x :
  1 <= L -> k <= cum (64 * L) -> j <= x <= L ->
  (forall m, j <= m < x -> cum (64 * m) < k) ->
  (x < L -> k <= cum (64 * x)) ->
  1 <= x /\ cum (64 * (x - 1)) < k <= cum (64 * x).
Proof.
  intros HL Hlast Hx Hlow Hup.
  assert (Hj0 : 0 <= j) by (subst j; apply Z.div_pos; lia).
  assert (Hupper : k <= cum (64 * x)).
  { destruct (Z.lt_ge_cases x L) as [Lt | Ge]; [apply Hup; exact Lt |].
    replace x with L by lia. exact Hlast. }
  destruct (Z.eq_dec x j) as [E | E].
  - destruct (Z.eq_dec j 0) as [Z0 | NZ].
    + exfalso. rewrite E, Z0 in Hupper. rewrite Z.mul_0_r, cum_0 in Hupper. lia.
    + pose proof (cum_from_0 (64 * (x - 1)) ltac:(lia)) as Hc.
      assert (8192 * j <= k) by (subst j; Z.div_mod_to_equations; lia).
      split; [lia |]. split; [lia | exact Hupper].
  - split; [lia |]. split; [apply Hlow; lia | exact Hupper].
Qed.

(** The bounds taken from the cache. *)
Lemma bracket_cached_range n cj cp :
  cache_entry cum n j cj -> (1 <= j -> cache_entry cum n (j - 1) cp) ->
  0 <= (if j =? 0 then 0 else cp - 1) <= cj + 1
  /\ (1 <= j -> 1 <= cp) /\ 0 <= cj /\ 64 * cj < n.
Proof.
  intros (Hc0 & Hcn & Hc1 & Hc2) Hprev.
  destruct (Z.eqb_spec j 0) as [Z0 | NZ].
  - split; [lia |]. split; [lia |]. lia.
  - assert (Hj0 : 0 <= j) by (subst j; apply Z.div_pos; lia).
    destruct (Hprev ltac:(lia)) as (Hp0 & Hpn & Hp1 & Hp2).
    pose proof (cum_from_0 (64 * (cp + 1)) ltac:(lia)) as Hb.
    assert (cp < cj + 1).
    { destruct (Z.lt_ge_cases cp (cj + 1)) as [Lt | Ge]; [exact Lt | exfalso].
      pose proof (cum_mono cum cum_step (64 * (cj + 1)) (64 * cp) ltac:(lia)). lia. }
    lia.
Qed.

Lemma bracket_cached n cj cp x :
  cache_entry cum n j cj -> (1 <= j -> cache_entry cum n (j - 1) cp) ->
  (if j =? 0 then 0 else cp - 1) <= x <= cj + 1 ->
  (forall m, (if j =? 0 then 0 else cp - 1) <= m < x -> cum (64 * m) < k) ->
  (x < cj + 1 -> k <= cum (64 * x)) ->
  1 <= x /\ cum (64 * (x - 1)) < k <= cum (64 * x).
Proof.
  intros Hcj Hcp Hx Hlow Hup.
  destruct (bracket_cached_range n cj cp Hcj Hcp) as (Hr & Hcp1 & Hcj0 & Hcjn).
  destruct Hcj as (Hc0 & Hcn & Hc1 & Hc2).
  assert (Hj0 : 0 <= j) by (subst j; apply Z.div_pos; lia).
  assert (Hjk : 8192 * j <= k < 8192 * (j + 1)) by (subst j; Z.div_mod_to_equations; lia).
  assert (Hupper : k <= cum (64 * x)).
  { destruct (Z.lt_ge_cases x (cj + 1)) as [Lt | Ge]; [apply Hup; exact Lt |].
    replace x with (cj + 1) by lia. lia. }
  set (start := if j =? 0 then 0 else cp - 1) in *.
  destruct (Z.eq_dec x start) as [E | E].
  - exfalso. unfold start in E. destruct (Z.eqb_spec j 0) as [Z0 | NZ].
    + rewrite E, Z.mul_0_r, cum_0 in Hupper. lia.
    + destruct (Hcp ltac:(lia)) as (Hp0 & Hpn & Hp1 & Hp2).
      pose proof (cum_mono cum cum_step (64 * x) (64 * cp) ltac:(lia)). lia.
  - split; [lia |]. split; [apply Hlow; lia | exact Hupper].
Qed.
End Bracket.

(** * The superblock that [select] chooses *)

Lemma L0_start_first q : q < SUPERBLOCKS_PER_L0 -> L0_start q = 0.
Proof.
  intros Hq. unfold L0_start. destruct (Z.ltb_spec q SUPERBLOCKS_PER_L0); [reflexivity | lia].
Qed.

Lemma ones_words_past v m : 0 <= vec_size v <= m -> ones_words v m = ones_words v (vec_size v).
Proof.
  intros Hm. pose proof (ones_between_outside v (vec_size v) m ltac:(lia) ltac:(lia)) as H.
  unfold ones_between in H. lia.
Qed.

Section SuperblockSearch.
Variable bv : bitvector.
Hypothesis Hfresh : constructed bv.
Hypothesis Hsmall : vec_size (vector bv) < 64 * SUPERBLOCKS_PER_L0.

Local Abbreviation W := (vector bv).
Local Abbreviation n := (vec_size (vector bv)).
Local Abbreviation r := (buildHelpers bv).

Lemma small_size : 1 <= n < 2 ^ 37 /\ 0 <= n / 64 < SUPERBLOCKS_PER_L0 /\ n / 64 < 2 ^ 31.
Proof.
  pose proof (n_range bv Hfresh) as Hn.
  assert (HQ : SUPERBLOCKS_PER_L0 = 2 ^ 31 - 1) by reflexivity.
  rewrite HQ in *. split; [lia |]. Z.div_mod_to_equations. lia.
Qed.

Lemma ones_total_range : 0 <= ones_words W n <= 64 * n.
Proof.
  pose proof small_size as (Hn & _).
  apply (ones_words_range W (cn_words bv Hfresh)). lia.
Qed.

Lemma ones_words_capped m : 0 <= m -> 0 <= ones_words W m <= 64 * n.
Proof. intros Hm. apply ones_words_le_size; [apply (cn_words bv Hfresh) | exact Hm]. Qed.

Lemma built_base q :
  0 <= q <= n / 64 -> vec_at (superBlocks r) (2 * q) >>> 20 = ones_words W (64 * q).
Proof.
  intros Hq. pose proof small_size as (Hn & HL & _).
  destruct (hp_meta _ _ (helpers_spec bv Hfresh) q Hq) as [H1 _]. rewrite H1.
  unfold block_base. rewrite read_base.
  rewrite L0_start_first by lia. unfold ones_between. rewrite ones_words_0, Z.sub_0_r.
  pose proof (ones_words_capped (64 * q) ltac:(lia)) as Hc.
  rewrite base_back by lia. apply Z.mod_small. lia.
Qed.

Lemma superRank_first m : 0 <= m <= n / 64 -> superRank r m = ones_words W (64 * m).
Proof.
  intros Hm. pose proof small_size as (Hn & HL & HL31).
  unfold superRank. cbv zeta. rewrite shiftl_1.
  rewrite (u64_small (m * 2)) by lia. rewrite (Z.mul_comm m 2).
  rewrite built_base by exact Hm.
  destruct (Z.gtb_spec m L0BLOCK_SIZE) as [G | G]; [unfold L0BLOCK_SIZE in G; lia |].
  pose proof (ones_words_capped (64 * m) ltac:(lia)) as Hc.
  rewrite Z.add_0_l. apply u64_small. lia.
Qed.

Lemma zero_probe m :
  0 <= m <= n / 64 -> u64 (u64 (m <<< 12) - superRank r m) = zeros_words W (64 * m).
Proof.
  intros Hm. pose proof small_size as (Hn & HL & HL31).
  rewrite superRank_first by exact Hm. rewrite shiftl_mul by lia.
  change (2 ^ 12) with 4096. rewrite (u64_small (m * 4096)) by lia.
  pose proof (ones_words_range W (cn_words bv Hfresh) (64 * m) ltac:(lia)) as Hr.
  unfold zeros_words. rewrite u64_small by lia. lia.
Qed.

Lemma built_blocks_count : vec_size (superBlocks r) = 2 * (n / 64) + 2.
Proof. apply (hp_size _ _ (helpers_spec bv Hfresh)). Qed.

Lemma cache_1_entry j :
  0 <= j < vec_size (selectCache_1 r) ->
  cache_entry (ones_words W) n j (vec_at (selectCache_1 r) j).
Proof.
  pose proof small_size as (Hn & _). apply built_cache_1; [exact Hfresh | lia].
Qed.

Lemma cache_0_entry j :
  0 <= j < vec_size (selectCache_0 r) ->
  cache_entry (zeros_words W) n j (vec_at (selectCache_0 r) j).
Proof.
  pose proof small_size as (Hn & _). apply built_cache_0; [exact Hfresh | lia].
Qed.

Lemma ones_step m : 0 <= m -> 0 <= ones_words W (m + 1) - ones_words W m <= 64.
Proof. apply ones_words_step. apply (cn_words bv Hfresh). Qed.

Lemma zeros_step m : 0 <= m -> 0 <= zeros_words W (m + 1) - zeros_words W m <= 64.
Proof. apply zeros_words_step. apply (cn_words bv Hfresh). Qed.

Lemma zeros_words_0 : zeros_words W 0 = 0.
Proof. unfold zeros_words. rewrite ones_words_0. reflexivity. Qed.

(** For the [k]-th set bit of the word array, [select_1] chooses the
    superblock in which the count of set bits reaches [k]. *)
Lemma select_1_superblock_spec k :
  1 <= k <= ones_words W n ->
  exists s, 0 <= s <= n / 64
    /\ select_1_superblock r k = Some (2 * s)
    /\ ones_words W (64 * s) < k <= ones_words W (64 * (s + 1)).
Proof.
  intros Hk. pose proof small_size as (Hn & HL & HL31).
  pose proof ones_total_range as Htot.
  assert (Hmono := cum_mono (ones_words W) ones_step).
  unfold select_1_superblock. cbv zeta. rewrite built_blocks_count.
  set (L := n / 64) in *.
  assert (Hlast : ones_words W (64 * (L + 1)) = ones_words W n).
  { apply ones_words_past. unfold L. Z.div_mod_to_equations. lia. }
  destruct (Z.eq_dec L 0) as [L0 | L1].
  - exists 0. rewrite L0 in *. change (2 * 0 + 2 <=? 2) with true. cbn [orb].
    split; [lia |]. split; [reflexivity |].
    rewrite Z.mul_0_r, ones_words_0, Hlast. lia.
  - destruct (Z.leb_spec (2 * L + 2) 2) as [Hle | _]; [lia |]. cbn [orb].
    pose proof (built_base 1 ltac:(fold L; lia)) as Hb1. change (2 * 1) with 2 in Hb1.
    rewrite Hb1.
    destruct (Z.leb_spec k (ones_words W (64 * 1))) as [K1 | K1].
    + exists 0. split; [lia |]. split; [reflexivity |].
      rewrite Z.mul_0_r, ones_words_0. change (0 + 1) with 1. lia.
    + replace (u64 (2 * L + 2 - 2)) with (2 * L) by (rewrite u64_small; lia).
      rewrite built_base by (fold L; lia).
      destruct (Z.gtb_spec k (ones_words W (64 * L))) as [KL | KL].
      * exists L. split; [lia |]. split; [reflexivity |]. lia.
      * rewrite (shiftr_div k 13) by lia. change (2 ^ 13) with 8192.
        set (j := k / 8192).
        assert (Hj0 : 0 <= j) by (apply Z.div_pos; lia).
        assert (HjL : j <= L).
        { pose proof (ones_words_range W (cn_words bv Hfresh) (64 * L) ltac:(lia)).
          unfold j. Z.div_mod_to_equations. lia. }
        assert (Hprobe : forall m, 0 <= m <= L -> superRank r m = ones_words W (64 * m)).
        { intros m Hm. apply superRank_first. fold L. exact Hm. }
        assert (Hend : u64 (((2 * L + 2) >>> 1) - 1) = L).
        { rewrite shiftr_1. replace ((2 * L + 2) / 2) with (L + 1)
            by (Z.div_mod_to_equations; lia). rewrite u64_small by lia. lia. }
        rewrite Hend.
        destruct (Z.geb_spec (u64 (j + 1)) (vec_size (selectCache_1 r))) as [Ge | Lt].
        -- cbv iota beta. unfold select_1_iterative.
           destruct (select_1_iterative_loop_spec r k 64 j L ltac:(lia) ltac:(lia)
                       ltac:(simpl; lia)) as (x & Hrun & Hx & Hlow & Hup).
           { intros m m' Hm Hm'. rewrite !Hprobe by lia.
             pose proof (Hmono (64 * m) (64 * m') ltac:(lia)). lia. }
           rewrite Hrun.
           destruct (bracket_open (ones_words W) ones_step (ones_words_0 W) k j
                       ltac:(lia) eq_refl L x ltac:(lia) ltac:(lia) Hx)
             as (Hx1 & Hbr).
           { intros m Hm. rewrite <- Hprobe by lia. apply Hlow. exact Hm. }
           { intros Hlt. rewrite <- Hprobe by lia. apply Hup. exact Hlt. }
           exists (x - 1). split; [lia |]. split.
           ++ rewrite (u64_small (x - 1)) by lia. rewrite shiftl_1.
              rewrite u64_small by lia. f_equal. lia.
           ++ replace (x - 1 + 1) with x by lia. exact Hbr.
        -- rewrite (u64_small (j + 1)) in Lt by lia.
           pose proof (cache_1_entry j ltac:(lia)) as Hcj.
           assert (Hcp : 1 <= j ->
                     cache_entry (ones_words W) n (j - 1) (vec_at (selectCache_1 r) (j - 1))).
           { intros Hj1. apply cache_1_entry. lia. }
           set (cj := vec_at (selectCache_1 r) j) in *.
           set (cp := vec_at (selectCache_1 r) (j - 1)) in *.
           destruct (bracket_cached_range (ones_words W) ones_step (ones_words_0 W) k j
                       ltac:(lia) eq_refl n cj cp Hcj Hcp) as (Hr & Hcp1 & Hcj0 & Hcjn).
           assert (HcjL : cj <= L) by (unfold L; Z.div_mod_to_equations; lia).
           assert (Hstart : (if j =? 0 then 0
                             else u32 (vec_at (selectCache_1 r) (u64 (j - 1)) - 1))
                            = (if j =? 0 then 0 else cp - 1)).
           { destruct (Z.eqb_spec j 0) as [E | E]; [reflexivity |].
             rewrite (u64_small (j - 1)) by lia. fold cp.
             destruct (Hcp ltac:(lia)) as (_ & Hpn & _).
             apply u32_small. lia. }
           rewrite Hstart. rewrite (u32_small (cj + 1)) by lia.
           cbv iota beta. unfold select_1_iterative.
           destruct (select_1_iterative_loop_spec r k 64
                       (if j =? 0 then 0 else cp - 1) (cj + 1) ltac:(lia) ltac:(lia))
             as (x & Hrun & Hx & Hlow & Hup).
           { simpl. lia. }
           { intros m m' Hm Hm'. rewrite !Hprobe by lia.
             pose proof (Hmono (64 * m) (64 * m') ltac:(lia)). lia. }
           rewrite Hrun.
           destruct (bracket_cached (ones_words W) ones_step (ones_words_0 W) k j
                       ltac:(lia) eq_refl n cj cp x Hcj Hcp Hx) as (Hx1 & Hbr).
           { intros m Hm. rewrite <- Hprobe by lia. apply Hlow. exact Hm. }
           { intros Hlt. rewrite <- Hprobe by lia. apply Hup. exact Hlt. }
           exists (x - 1). split; [lia |]. split.
           ++ rewrite (u64_small (x - 1)) by lia. rewrite shiftl_1.
              rewrite u64_small by lia. f_equal. lia.
           ++ replace (x - 1 + 1) with x by lia. exact Hbr.
Qed.
(** For the [k]-th bit of the word array that is not set, [select_0]
    chooses the superblock in which the count of such bits reaches [k]. *)
Lemma select_0_superblock_spec k :
  1 <= k <= zeros_words W n ->
  exists s, 0 <= s <= n / 64
    /\ select_0_superblock r k = Some (2 * s)
    /\ zeros_words W (64 * s) < k <= zeros_words W (64 * (s + 1)).
Proof.
  intros Hk. pose proof small_size as (Hn & HL & HL31).
  pose proof ones_total_range as Htot.
  assert (Hmono := cum_mono (zeros_words W) zeros_step).
  unfold select_0_superblock. cbv zeta. rewrite built_blocks_count.
  set (L := n / 64) in *.
  assert (Hlast : zeros_words W n <= zeros_words W (64 * (L + 1))).
  { apply Hmono. unfold L. Z.div_mod_to_equations. lia. }
  destruct (Z.eq_dec L 0) as [L0 | L1].
  - exists 0. rewrite L0 in *. change (2 * 0 + 2 <=? 2) with true. cbn [orb].
    split; [lia |]. split; [reflexivity |].
    rewrite Z.mul_0_r, zeros_words_0. lia.
  - destruct (Z.leb_spec (2 * L + 2) 2) as [Hle | _]; [lia |]. cbn [orb].
    pose proof (built_base 1 ltac:(fold L; lia)) as Hb1. change (2 * 1) with 2 in Hb1.
    rewrite Hb1.
    assert (Hz1 : u64 ((1 <<< 12) - ones_words W (64 * 1)) = zeros_words W (64 * 1)).
    { pose proof (ones_words_range W (cn_words bv Hfresh) (64 * 1) ltac:(lia)).
      unfold zeros_words. change (1 <<< 12) with 4096. rewrite u64_small by lia. lia. }
    rewrite Hz1.
    destruct (Z.leb_spec k (zeros_words W (64 * 1))) as [K1 | K1].
    + exists 0. split; [lia |]. split; [reflexivity |].
      rewrite Z.mul_0_r, zeros_words_0. change (0 + 1) with 1. lia.
    + replace (u64 (2 * L + 2 - 2)) with (2 * L) by (rewrite u64_small; lia).
      rewrite built_base by (fold L; lia).
      assert (HzL : u64 (u64 ((2 * L) <<< 11) - ones_words W (64 * L))
                    = zeros_words W (64 * L)).
      { pose proof (ones_words_range W (cn_words bv Hfresh) (64 * L) ltac:(lia)).
        rewrite shiftl_mul by lia. change (2 ^ 11) with 2048.
        rewrite (u64_small (2 * L * 2048)) by lia.
        unfold zeros_words. rewrite u64_small by lia. lia. }
      rewrite HzL.
      destruct (Z.gtb_spec k (zeros_words W (64 * L))) as [KL | KL].
      * exists L. split; [lia |]. split; [reflexivity |]. lia.
      * rewrite (shiftr_div k 13) by lia. change (2 ^ 13) with 8192.
        set (j := k / 8192).
        assert (Hj0 : 0 <= j) by (apply Z.div_pos; lia).
        assert (HjL : j <= L).
        { pose proof (ones_words_range W (cn_words bv Hfresh) (64 * L) ltac:(lia)).
          unfold zeros_words in KL. unfold j. Z.div_mod_to_equations. lia. }
        assert (Hprobe : forall m, 0 <= m <= L ->
                  u64 (u64 (m <<< 12) - superRank r m) = zeros_words W (64 * m)).
        { intros m Hm. apply zero_probe. fold L. exact Hm. }
        assert (Hend : u64 (((2 * L + 2) >>> 1) - 1) = L).
        { rewrite shiftr_1. replace ((2 * L + 2) / 2) with (L + 1)
            by (Z.div_mod_to_equations; lia). rewrite u64_small by lia. lia. }
        rewrite Hend.
        destruct (Z.geb_spec j (vec_size (selectCache_0 r))) as [Ge | Lt].
        -- cbv iota beta. unfold select_0_iterative.
           destruct (select_0_iterative_loop_spec r k 64 j L ltac:(lia) ltac:(lia)
                       ltac:(simpl; lia)) as (x & Hrun & Hx & Hlow & Hup).
           { intros m m' Hm Hm'. rewrite !Hprobe by lia.
             pose proof (Hmono (64 * m) (64 * m') ltac:(lia)). lia. }
           rewrite Hrun.
           destruct (bracket_open (zeros_words W) zeros_step zeros_words_0 k j
                       ltac:(lia) eq_refl L x ltac:(lia) ltac:(lia) Hx)
             as (Hx1 & Hbr).
           { intros m Hm. rewrite <- Hprobe by lia. apply Hlow. exact Hm. }
           { intros Hlt. rewrite <- Hprobe by lia. apply Hup. exact Hlt. }
           exists (x - 1). split; [lia |]. split.
           ++ rewrite (u64_small (x - 1)) by lia. rewrite shiftl_1.
              rewrite u64_small by lia. f_equal. lia.
           ++ replace (x - 1 + 1) with x by lia. exact Hbr.
        -- pose proof (cache_0_entry j ltac:(lia)) as Hcj.
           assert (Hcp : 1 <= j ->
                     cache_entry (zeros_words W) n (j - 1) (vec_at (selectCache_0 r) (j - 1))).
           { intros Hj1. apply cache_0_entry. lia. }
           set (cj := vec_at (selectCache_0 r) j) in *.
           set (cp := vec_at (selectCache_0 r) (j - 1)) in *.
           destruct (bracket_cached_range (zeros_words W) zeros_step zeros_words_0 k j
                       ltac:(lia) eq_refl n cj cp Hcj Hcp) as (Hr & Hcp1 & Hcj0 & Hcjn).
           assert (HcjL : cj <= L) by (unfold L; Z.div_mod_to_equations; lia).
           assert (Hstart : (if j =? 0 then 0
                             else u32 (vec_at (selectCache_0 r) (u64 (j - 1)) - 1))
                            = (if j =? 0 then 0 else cp - 1)).
           { destruct (Z.eqb_spec j 0) as [E | E]; [reflexivity |].
             rewrite (u64_small (j - 1)) by lia. fold cp.
             destruct (Hcp ltac:(lia)) as (_ & Hpn & _).
             apply u32_small. lia. }
           rewrite Hstart. rewrite (u32_small (cj + 1)) by lia.
           cbv iota beta. unfold select_0_iterative.
           destruct (select_0_iterative_loop_spec r k 64
                       (if j =? 0 then 0 else cp - 1) (cj + 1) ltac:(lia) ltac:(lia))
             as (x & Hrun & Hx & Hlow & Hup).
           { simpl. lia. }
           { intros m m' Hm Hm'. rewrite !Hprobe by lia.
             pose proof (Hmono (64 * m) (64 * m') ltac:(lia)). lia. }
           rewrite Hrun.
           destruct (bracket_cached (zeros_words W) zeros_step zeros_words_0 k j
                       ltac:(lia) eq_refl n cj cp x Hcj Hcp Hx) as (Hx1 & Hbr).
           { intros m Hm. rewrite <- Hprobe by lia. apply Hlow. exact Hm. }
           { intros Hlt. rewrite <- Hprobe by lia. apply Hup. exact Hlt. }
           exists (x - 1). split; [lia |]. split.
           ++ rewrite (u64_small (x - 1)) by lia. rewrite shiftl_1.
              rewrite u64_small by lia. f_equal. lia.
           ++ replace (x - 1 + 1) with x by lia. exact Hbr.
Qed.
End SuperblockSearch.

(** * [select_1] and [select_0] on the word array *)

Lemma zeros_before_grow v a d :
  words_ok v -> 0 <= a -> 0 <= d ->
  0 <= ones_before v (a + d) - ones_before v a <= d.
Proof.
  intros Hv Ha Hd. pattern d. apply natlike_ind; [| | exact Hd].
  - rewrite Z.add_0_r. lia.
  - intros x Hx IH. unfold Z.succ. replace (a + (x + 1)) with (a + x + 1) by lia.
    rewrite ones_before_succ by (assumption || lia).
    destruct (bit_at v (a + x)); simpl Z.b2z; lia.
Qed.

Lemma ones_before_flat v a d :
  words_ok v -> 0 <= a -> 0 <= d ->
  (forall i, a <= i < a + d -> bit_at v i = false) ->
  ones_before v (a + d) = ones_before v a.
Proof.
  intros Hv Ha Hd. pattern d. apply natlike_ind; [| | exact Hd].
  - intros _. rewrite Z.add_0_r. reflexivity.
  - intros x Hx IH Hall. unfold Z.succ. replace (a + (x + 1)) with (a + x + 1) by lia.
    rewrite ones_before_succ by (assumption || lia).
    rewrite Hall by lia. rewrite IH by (intros i Hi; apply Hall; lia). simpl. lia.
Qed.

Lemma bit_at_past v p : vec_size v <= p / 64 -> bit_at v p = false.
Proof.
  intros Hp. unfold bit_at. rewrite vec_at_outside by exact Hp. apply Z.bits_0.
Qed.

Section SelectArray.
Variable bv : bitvector.
Hypothesis Hfresh : constructed bv.
Hypothesis Hsmall : vec_size (vector bv) < 64 * SUPERBLOCKS_PER_L0.

Local Abbreviation W := (vector bv).
Local Abbreviation n := (vec_size (vector bv)).
Local Abbreviation r := (buildHelpers bv).

(** The number of set bits of superblock [s] in front of its block [t]. *)
Local Abbreviation prefix s := (fun t => ones_between W (64 * s) (64 * s + 8 * t)).

Lemma built_fields s :
  0 <= s <= n / 64 ->
  let m1 := vec_at (superBlocks r) (2 * s) in
  let m2 := vec_at (superBlocks r) (2 * s + 1) in
  (m1 >>> 8) .& 0xFFF = stored_count W n s 0
  /\ ((m1 .& 0xFF) <<< 4) .| (m2 >>> 60) = stored_count W n s 1
  /\ m2 .& 0xFFF = stored_count W n s 2
  /\ (m2 >>> 12) .& 0xFFF = stored_count W n s 3
  /\ (m2 >>> 24) .& 0xFFF = stored_count W n s 4
  /\ (m2 >>> 36) .& 0xFFF = stored_count W n s 5
  /\ (m2 >>> 48) .& 0xFFF = stored_count W n s 6.
Proof.
  intros Hs m1 m2. subst m1 m2.
  destruct (hp_meta _ _ (helpers_spec bv Hfresh) s Hs) as [H1 H2]. rewrite H1, H2.
  unfold block_base.
  rewrite read_field_0, read_field_1, read_field_2, read_field_3, read_field_4,
    read_field_5, read_field_6.
  rewrite !(stored_field bv Hfresh) by lia.
  repeat split; reflexivity.
Qed.

Lemma prefix_0 s : prefix s 0 = 0.
Proof. cbv beta. rewrite Z.mul_0_r, Z.add_0_r. apply ones_between_same. Qed.

Lemma prefix_step s t :
  0 <= s -> 0 <= t <= 7 -> 0 <= prefix s (t + 1) - prefix s t <= 512.
Proof.
  intros Hs Ht. cbv beta.
  rewrite (ones_between_split W (64 * s) (64 * s + 8 * t) (64 * s + 8 * (t + 1))).
  pose proof (ones_between_range W (cn_words bv Hfresh) (64 * s + 8 * t)
                (64 * s + 8 * (t + 1)) ltac:(lia)). lia.
Qed.

Lemma prefix_words s t :
  0 <= s -> 0 <= t ->
  ones_words W (64 * s + 8 * t) = ones_words W (64 * s) + prefix s t.
Proof. intros Hs Ht. cbv beta. unfold ones_between. lia. Qed.

Lemma stored_prefix s t :
  0 <= s <= n / 64 -> 0 <= t <= 6 ->
  stored_count W n s t = prefix s (t + 1)
  \/ (stored_count W n s t = 0 /\ prefix s t = prefix s 8 /\ n <= 64 * s + 8 * t).
Proof.
  intros Hs Ht. unfold stored_count.
  destruct (Z.ltb_spec (64 * s + 8 * t) n) as [Lt | Ge].
  - left. reflexivity.
  - right. split; [reflexivity |]. split; [| exact Ge]. cbv beta.
    rewrite (ones_between_split W (64 * s) (64 * s + 8 * t) (64 * s + 8 * 8)).
    rewrite (ones_between_outside W (64 * s + 8 * t)) by lia. lia.
Qed.

(** [select_1] finds the [k]-th set bit of the word array. *)
Theorem select_1_array k :
  1 <= k <= ones_words W n ->
  exists p, select_1 r k = Some p /\ 0 <= p < 64 * n
    /\ bit_at W p = true /\ ones_before W p = k - 1.
Proof.
  intros Hk. pose proof (small_size bv Hfresh Hsmall) as (Hn & HL & HL31).
  pose proof (cn_words bv Hfresh) as Hw.
  pose proof (helpers_spec bv Hfresh) as Hh.
  pose proof (ones_total_range bv Hfresh Hsmall) as Htot.
  unfold select_1. rewrite (hp_one _ _ Hh).
  destruct (Z.eqb_spec k (ones_words W n)) as [E | NE].
  - (* the cached position of the last set bit *)
    pose proof (built_last_one bv Hfresh) as Hinv.
    set (p := lastOnePos r) in *. exists p. split; [reflexivity |].
    pose proof (ones_before_words W n ltac:(lia)) as Hall.
    destruct Hinv as [[Hp Hnone] | (Hp & Hbit & Hnone)].
    + exfalso. rewrite (no_ones_before W (64 * n) Hw ltac:(lia) Hnone) in Hall. lia.
    + split; [exact Hp |]. split; [exact Hbit |].
      pose proof (ones_before_flat W (p + 1) (64 * n - (p + 1)) Hw ltac:(lia) ltac:(lia))
        as Hflat.
      replace (p + 1 + (64 * n - (p + 1))) with (64 * n) in Hflat by lia.
      rewrite Hflat in Hall by (intros i Hi; apply Hnone; lia).
      rewrite ones_before_succ in Hall by (assumption || lia).
      rewrite Hbit in Hall. simpl Z.b2z in Hall. lia.
  - destruct (select_1_superblock_spec bv Hfresh Hsmall k Hk) as (s & Hs & Hsel & Hbr).
    rewrite Hsel. cbv zeta.
    rewrite (u64_small (2 * s + 1)) by lia.
    rewrite (built_base bv Hfresh Hsmall s Hs).
    pose proof (ones_words_capped bv Hfresh (64 * s) ltac:(lia)) as Hbase.
    rewrite (u64_small (k - ones_words W (64 * s))) by lia.
    rewrite shiftl_mul by lia. change (2 ^ 11) with 2048.
    rewrite (u64_small (2 * s * 2048)) by lia.
    destruct (Z.gtb_spec (2 * s * 2048) L0BLOCK_SIZE) as [G | _];
      [unfold L0BLOCK_SIZE in G; lia |].
    destruct (built_fields s Hs) as (F0 & F1 & F2 & F3 & F4 & F5 & F6).
    cbv zeta in F0, F1, F2, F3, F4, F5, F6.
    destruct (select_1_blocks_spec _ _ (stored_count W n s) F0 F1 F2 F3 F4 F5 F6
                (prefix s) (prefix_0 s) (fun t => prefix_step s t (proj1 Hs))
                (k - ones_words W (64 * s)))
      as (t & Ht & Hblocks & Hbt).
    { intros t Ht. destruct (stored_prefix s t Hs Ht) as [H | (H1 & H2 & _)];
        [left; exact H | right; split; assumption]. }
    { cbv beta. unfold ones_between. replace (64 * s + 8 * 8) with (64 * (s + 1)) by lia.
      lia. }
    rewrite Hblocks. cbv iota beta. rewrite (hp_vector _ _ Hh).
    rewrite !shiftl_mul by lia. change (2 ^ 5) with 32. change (2 ^ 3) with 8.
    change (2 ^ 6) with 64.
    rewrite (u64_small (2 * s * 32)) by lia.
    rewrite (u64_small (2 * s * 32 + t * 8)) by lia.
    rewrite (u64_small ((2 * s * 32 + t * 8) * 64)) by lia.
    replace (2 * s * 32 + t * 8) with (64 * s + 8 * t) by lia.
    replace ((64 * s + 8 * t) * 64) with (64 * (64 * s + 8 * t)) by lia.
    pose proof (prefix_step s t ltac:(lia) Ht) as Hstep. cbv beta in Hbt, Hstep.
    destruct (select_1_words_spec W Hw (64 * s + 8 * t) ltac:(lia) 8 0
                (k - ones_words W (64 * s) - ones_between W (64 * s) (64 * s + 8 * t))
                ltac:(reflexivity) ltac:(lia)) as (p & Hrun & Hp & Hbit & Hcount).
    { rewrite Z.add_0_r.
      rewrite (ones_between_split W (64 * s) (64 * s + 8 * t) (64 * s + 8 * (t + 1)))
        in Hbt, Hstep.
      replace (64 * s + 8 * t + 8) with (64 * s + 8 * (t + 1)) by lia. lia. }
    exists p. split; [exact Hrun |].
    assert (Hin : p / 64 < n).
    { destruct (Z.lt_ge_cases (p / 64) n) as [Lt | Ge]; [exact Lt |].
      rewrite bit_at_past in Hbit by exact Ge. discriminate. }
    split; [split; [lia | Z.div_mod_to_equations; lia] |].
    split; [exact Hbit |].
    rewrite Hcount. rewrite Z.add_0_r. unfold ones_between. lia.
Qed.

(** [select_0] finds the [k]-th bit of the word array that is not set,
    as long as it is not the last one, which is answered from the cache. *)
Theorem select_0_array k :
  1 <= k < zeros_words W n ->
  exists p, select_0 r k = Some p /\ 0 <= p < 64 * n
    /\ bit_at W p = false /\ p - ones_before W p = k - 1.
Proof.
  intros Hk. pose proof (small_size bv Hfresh Hsmall) as (Hn & HL & HL31).
  pose proof (cn_words bv Hfresh) as Hw.
  pose proof (helpers_spec bv Hfresh) as Hh.
  pose proof (ones_total_range bv Hfresh Hsmall) as Htot.
  unfold select_0. rewrite (hp_zero _ _ Hh). fold (zeros_words W n).
  destruct (Z.eqb_spec k (zeros_words W n)) as [E | NE]; [lia |].
  destruct (select_0_superblock_spec bv Hfresh Hsmall k ltac:(lia)) as (s & Hs & Hsel & Hbr).
  rewrite Hsel. cbv zeta.
  rewrite (u64_small (2 * s + 1)) by lia.
  rewrite (built_base bv Hfresh Hsmall s Hs).
  pose proof (ones_words_range W Hw (64 * s) ltac:(lia)) as Hbase.
  rewrite shiftl_mul by lia. change (2 ^ 11) with 2048.
  rewrite (u64_small (2 * s * 2048)) by lia.
  rewrite (u64_small (2 * s * 2048 - ones_words W (64 * s))) by lia.
  replace (2 * s * 2048 - ones_words W (64 * s)) with (zeros_words W (64 * s))
    by (unfold zeros_words; lia).
  assert (Hz0 : 0 <= zeros_words W (64 * s)) by (unfold zeros_words; lia).
  assert (Hzn : zeros_words W n <= 64 * n) by (unfold zeros_words; lia).
  rewrite (u64_small (k - zeros_words W (64 * s))) by lia.
  destruct (Z.gtb_spec (2 * s * 2048) L0BLOCK_SIZE) as [G | _];
    [unfold L0BLOCK_SIZE in G; lia |].
  destruct (built_fields s Hs) as (F0 & F1 & F2 & F3 & F4 & F5 & F6).
  cbv zeta in F0, F1, F2, F3, F4, F5, F6.
  assert (Hsn : 64 * s <= n) by (Z.div_mod_to_equations; lia).
  destruct (select_0_blocks_spec _ _ (stored_count W n s) F0 F1 F2 F3 F4 F5 F6
              (prefix s) (prefix_0 s) (fun t => prefix_step s t (proj1 Hs))
              (k - zeros_words W (64 * s)))
    as (t & Ht & Hblocks & Hbt).
  { intros t Ht. destruct (stored_prefix s t Hs Ht) as [H | (H1 & H2 & H3)];
      [left; exact H | right; split; [exact H1 | split; [exact H2 |]]].
    cbv beta in H2 |- *. unfold zeros_words in *. unfold ones_between in *.
    replace (64 * s + 8 * 8) with (64 * (s + 1)) in H2 by lia.
    pose proof (ones_words_past W (64 * s + 8 * t) ltac:(lia)) as Hpast. lia. }
  { cbv beta. unfold zeros_words in *. unfold ones_between.
    replace (64 * s + 8 * 8) with (64 * (s + 1)) by lia. lia. }
  rewrite Hblocks. cbv iota beta. rewrite (hp_vector _ _ Hh).
  rewrite !shiftl_mul by lia. change (2 ^ 5) with 32. change (2 ^ 3) with 8.
  change (2 ^ 6) with 64.
  rewrite (u64_small (2 * s * 32)) by lia.
  rewrite (u64_small (2 * s * 32 + t * 8)) by lia.
  rewrite (u64_small ((2 * s * 32 + t * 8) * 64)) by lia.
  replace (2 * s * 32 + t * 8) with (64 * s + 8 * t) by lia.
  replace ((64 * s + 8 * t) * 64) with (64 * (64 * s + 8 * t)) by lia.
  pose proof (prefix_step s t ltac:(lia) Ht) as Hstep. cbv beta in Hbt, Hstep.
  destruct (select_0_words_spec W Hw (64 * s + 8 * t) ltac:(lia) 8 0
              (k - zeros_words W (64 * s)
               - (512 * t - ones_between W (64 * s) (64 * s + 8 * t)))
              ltac:(reflexivity) ltac:(lia)) as (p & Hrun & Hp & Hbit & Hcount).
  { rewrite Z.add_0_r.
    rewrite (ones_between_split W (64 * s) (64 * s + 8 * t) (64 * s + 8 * (t + 1)))
      in Hbt, Hstep.
    replace (64 * s + 8 * t + 8) with (64 * s + 8 * (t + 1)) by lia. lia. }
  exists p. split; [exact Hrun |].
  assert (Hzeros : p - ones_before W p = k - 1).
  { rewrite Hcount. rewrite Z.add_0_r. unfold zeros_words, ones_between. lia. }
  split; [| split; [exact Hbit | exact Hzeros]].
  split; [lia |].
  destruct (Z.lt_ge_cases p (64 * n)) as [Lt | Ge]; [exact Lt | exfalso].
  pose proof (zeros_before_grow W (64 * n) (p - 64 * n) Hw ltac:(lia) ltac:(lia)) as Hg.
  replace (64 * n + (p - 64 * n)) with p in Hg by lia.
  rewrite ones_before_words in Hg by lia. unfold zeros_words in Hk. lia.
Qed.
End SelectArray.

(** * [select] on built structures *)

Lemma in_first_region_fits str :
  in_first_region str ->
  string_fits str /\ word_count str < 64 * SUPERBLOCKS_PER_L0
  /\ str_length str < 4096 * SUPERBLOCKS_PER_L0.
Proof.
  unfold in_first_region, string_fits, word_count.
  assert (HQ : SUPERBLOCKS_PER_L0 = 2 ^ 31 - 1) by reflexivity. rewrite HQ.
  pose proof (str_length_nonneg str) as Hlen. intros Hreg.
  split; [lia |]. split; [Z.div_mod_to_equations; lia | lia].
Qed.

Lemma true_rank_mono str i j b :
  0 <= i <= j -> true_rank str i b <= true_rank str j b.
Proof.
  intros [Hi Hj]. replace j with (i + (j - i)) by lia.
  assert (Hd : 0 <= j - i) by lia. revert Hd. generalize (j - i). intros d Hd.
  pattern d. apply natlike_ind; [| | exact Hd].
  - rewrite Z.add_0_r. lia.
  - intros x Hx IH. unfold Z.succ. replace (i + (x + 1)) with (i + x + 1) by lia.
    rewrite true_rank_succ by lia.
    destruct ((i + x <? bit_length str) && Bool.eqb (true_bit str (i + x)) b); lia.
Qed.

Lemma true_rank_total str i b : 0 <= i -> true_rank str i b <= total_count str b.
Proof.
  intros Hi. pose proof (total_count_range str b) as Hr.
  rewrite <- (true_rank_all str (Z.max i (bit_length str)) b) by lia.
  apply true_rank_mono. lia.
Qed.

Lemma true_rank_hit str p b :
  0 <= p < bit_length str -> true_bit str p = b ->
  true_rank str (p + 1) b = true_rank str p b + 1.
Proof.
  intros Hp Hb. rewrite true_rank_succ by lia.
  destruct (Z.ltb_spec p (bit_length str)); [| lia].
  rewrite Hb. destruct b; reflexivity.
Qed.

Lemma true_bit_inside str p : true_bit str p = true -> 0 <= p < bit_length str.
Proof.
  intros H. destruct (Z.lt_ge_cases p 0) as [L | G].
  - unfold true_bit in H. destruct (Z.ltb_spec p 0); [discriminate | lia].
  - split; [exact G |]. destruct (Z.lt_ge_cases p (bit_length str)) as [L | G']; [exact L |].
    rewrite true_bit_outside in H by exact G'. discriminate.
Qed.

(** The word array of a string, as the queries see it. *)
Lemma built_array str :
  string_fits str ->
  constructed (bitvector_ctor str)
  /\ vec_size (vector (bitvector_ctor str)) = word_count str
  /\ words_ok (vector (bitvector_ctor str))
  /\ (forall p, 0 <= p -> bit_at (vector (bitvector_ctor str)) p = true_bit str p)
  /\ (forall p, 0 <= p ->
        ones_before (vector (bitvector_ctor str)) p = true_rank str p true)
  /\ ones_words (vector (bitvector_ctor str)) (word_count str) = total_count str true.
Proof.
  intros Hfit. destruct (ctor_vector_spec str Hfit) as (Hsize & Hwords & Hbits).
  split; [apply ctor_constructed; exact Hfit |]. split; [exact Hsize |].
  split; [exact Hwords |]. split; [exact Hbits |]. split.
  - intros p Hp. apply ones_before_true_rank; assumption.
  - apply built_ones_words. exact Hfit.
Qed.

Lemma select_1_built str k :
  in_first_region str -> 1 <= k <= total_count str true ->
  exists p, select_1 (built str) k = Some p /\ 0 <= p < bit_length str
    /\ true_bit str p = true /\ true_rank str p true = k - 1.
Proof.
  intros Hreg Hk. destruct (in_first_region_fits str Hreg) as (Hfit & Hw & _).
  destruct (built_array str Hfit) as (Hc & Hsize & Hwords & Hbits & Hones & Htot).
  destruct (select_1_array (bitvector_ctor str) Hc ltac:(rewrite Hsize; exact Hw) k
              ltac:(rewrite Hsize, Htot; exact Hk)) as (p & Hrun & Hp & Hbit & Hcount).
  exists p. rewrite Hbits in Hbit by lia. rewrite Hones in Hcount by lia.
  split; [exact Hrun |]. split; [apply true_bit_inside; exact Hbit |].
  split; assumption.
Qed.

Lemma zeros_words_built str :
  string_fits str ->
  zeros_words (vector (bitvector_ctor str)) (word_count str) = zeroCount (built str)
  /\ total_count str false < zeroCount (built str)
  /\ zeroCount (built str)
     = total_count str false + (64 * word_count str - bit_length str).
Proof.
  intros Hfit. destruct (built_array str Hfit) as (Hc & Hsize & Hwords & Hbits & Hones & Htot).
  rewrite built_zeroCount by exact Hfit. unfold zeros_words. rewrite Htot.
  pose proof (count_bit_both (bits str)) as Hb. fold (total_count str true) in Hb.
  fold (total_count str false) in Hb. fold (bit_length str) in Hb.
  pose proof (word_count_bits str). lia.
Qed.

(** Where [select_0] ends for every [k] up to [zeroCount]: at the [k]-th
    zero of the word array, which lies in [B] or in the padding after it. *)
Lemma select_0_built str k :
  in_first_region str -> 1 <= k <= zeroCount (built str) ->
  exists p, select_0 (built str) k = Some p /\ 0 <= p < 64 * word_count str
    /\ true_bit str p = false /\ p - true_rank str p true = k - 1.
Proof.
  intros Hreg Hk. destruct (in_first_region_fits str Hreg) as (Hfit & Hw & _).
  destruct (built_array str Hfit) as (Hc & Hsize & Hwords & Hbits & Hones & Htot).
  destruct (zeros_words_built str Hfit) as (Hz & Hzlt & Hzsum).
  pose proof (word_count_bits str) as Hn.
  pose proof (word_count_range str Hfit) as Hwr.
  destruct (Z.eq_dec k (zeroCount (built str))) as [E | NE].
  - exists (64 * word_count str - 1). unfold select_0.
    rewrite E, Z.eqb_refl. rewrite built_lastZeroPos by exact Hfit.
    split; [reflexivity |]. split; [lia |].
    split; [apply true_bit_outside; lia |].
    rewrite true_rank_all by lia.
    pose proof (count_bit_both (bits str)) as Hb. fold (total_count str true) in Hb.
    fold (total_count str false) in Hb. fold (bit_length str) in Hb. lia.
  - destruct (select_0_array (bitvector_ctor str) Hc ltac:(rewrite Hsize; exact Hw) k
                ltac:(rewrite Hsize, Hz; lia)) as (p & Hrun & Hp & Hbit & Hcount).
    exists p. rewrite Hbits in Hbit by lia. rewrite Hones in Hcount by lia.
    rewrite Hsize in Hp.
    split; [exact Hrun |]. split; [exact Hp |]. split; assumption.
Qed.

(** * Queries on strings of the first L0 region *)

Lemma first_region_fits str :
  str_length str < 4096 * SUPERBLOCKS_PER_L0 -> string_fits str.
Proof.
  unfold string_fits. assert (HQ : SUPERBLOCKS_PER_L0 = 2 ^ 31 - 1) by reflexivity.
  rewrite HQ. lia.
Qed.

Lemma rank_1_first_region str i :
  str_length str < 4096 * SUPERBLOCKS_PER_L0 -> 0 < i < 64 * word_count str ->
  rank_1 (built str) i = true_rank str i true.
Proof.
  intros Hlen Hi. pose proof (first_region_fits str Hlen) as Hfit.
  apply built_rank_1_exact; [exact Hfit | exact Hi |].
  unfold word_count in Hi. pose proof (str_length_nonneg str).
  apply Z.div_lt_upper_bound; [lia |].
  assert (HQ : SUPERBLOCKS_PER_L0 = 2 ^ 31 - 1) by reflexivity. rewrite HQ in *.
  Z.div_mod_to_equations. lia.
Qed.

Lemma total_both str : total_count str true + total_count str false = bit_length str.
Proof. apply count_bit_both. Qed.

(** X1.  For a string of fewer than [4096 * SUPERBLOCKS_PER_L0] characters
    and a position [i] of [B], [rank(i, 1)] is the number of 1-bits and
    [rank(i, 0)] the number of 0-bits in [B[0..i)]. *)
Theorem rank_counts str i :
  str_length str < 4096 * SUPERBLOCKS_PER_L0 -> 0 <= i <= bit_length str ->
  rank (built str) i 1 = true_rank str i true
  /\ rank (built str) i 0 = true_rank str i false.
Proof.
  intros Hlen Hi. apply rank_exact; [apply first_region_fits | |]; assumption.
Qed.

Lemma rank_counts_witness :
  str_length "0110100110010110" < 4096 * SUPERBLOCKS_PER_L0
  /\ 0 <= 9 <= bit_length "0110100110010110"
  /\ rank (built "0110100110010110") 9 1 = true_rank "0110100110010110" 9 true
  /\ rank (built "0110100110010110") 9 0 = true_rank "0110100110010110" 9 false.
Proof.
  assert (H : str_length "0110100110010110" < 4096 * SUPERBLOCKS_PER_L0)
    by (vm_compute; reflexivity).
  assert (H9 : 0 <= 9 <= bit_length "0110100110010110") by (vm_compute; split; discriminate).
  split; [exact H | split; [exact H9 |]].
  exact (rank_counts "0110100110010110" 9 H H9).
Defined.

Lemma rank_clamped str i b :
  string_fits str -> 0 < i ->
  rank (built str) i b = rank (built str) (Z.min i (64 * word_count str - 1)) b.
Proof.
  intros Hfit Hi. pose proof (word_count_range str Hfit) as Hw.
  destruct (Z.le_gt_cases i (64 * word_count str - 1)) as [Le | Gt].
  - rewrite Z.min_l by exact Le. reflexivity.
  - rewrite Z.min_r by lia. unfold rank. rewrite rank_top by exact Hfit.
    destruct (Z.leb_spec i 0); [lia |].
    destruct (Z.leb_spec (64 * word_count str - 1) 0); [lia |].
    destruct (Z.gtb_spec i (64 * word_count str - 1)); [| lia].
    destruct (Z.gtb_spec (64 * word_count str - 1) (64 * word_count str - 1)); [lia |].
    reflexivity.
Qed.

(** From the end of [B] on, [rank] of ones stays at their number. *)
Lemma rank_ones_beyond str i :
  str_length str < 4096 * SUPERBLOCKS_PER_L0 -> bit_length str <= i -> 0 < i ->
  rank (built str) i 1 = total_count str true.
Proof.
  intros Hlen Hi Hpos. pose proof (first_region_fits str Hlen) as Hfit.
  pose proof (word_count_range str Hfit) as Hw.
  pose proof (word_count_bits str) as Hn.
  rewrite rank_clamped by assumption. set (c := Z.min i (64 * word_count str - 1)).
  assert (Hc : 0 < c < 64 * word_count str) by (unfold c; lia).
  assert (HcN : bit_length str <= c) by (unfold c; lia).
  rewrite rank_inside by assumption. change (1 =? 1) with true. cbv iota.
  rewrite rank_1_first_region by assumption. apply true_rank_all. exact HcN.
Qed.

(** C4, as the code has it.  A position above the last bit of the word array
    is answered as that last bit, [64 * W - 1] for [W] words.  The positions
    between [N] and that bit are not clamped: [rank_1] is asked for the
    position itself, and in front of bit [4096 * SUPERBLOCKS_PER_L0], as far
    as [rank_1] is exact, the answer counts the padding behind [B] as
    0-bits: all 1-bits of [B] for the bit value 1, the 0-bits of [B] and
    the [i - N] padding bits in front of [i] for the bit value 0. *)
Theorem rank_clamp str i b :
  string_fits str ->
  (i > 64 * word_count str - 1 ->
   rank (built str) i b = rank (built str) (64 * word_count str - 1) b)
  /\ (bit_length str < i <= 64 * word_count str - 1 ->
      rank (built str) i b
      = (if b =? 1 then rank_1 (built str) i else u64 (i - rank_1 (built str) i))
      /\ (i < 4096 * SUPERBLOCKS_PER_L0 ->
          rank (built str) i 1 = total_count str true
          /\ rank (built str) i 0 = total_count str false + (i - bit_length str))).
Proof.
  intros Hfit. pose proof (word_count_range str Hfit) as Hw. split.
  - intros Hi. unfold rank. rewrite rank_top by exact Hfit.
    destruct (Z.leb_spec i 0); [lia |].
    destruct (Z.leb_spec (64 * word_count str - 1) 0); [lia |].
    destruct (Z.gtb_spec i (64 * word_count str - 1)); [| lia].
    destruct (Z.gtb_spec (64 * word_count str - 1) (64 * word_count str - 1)); [lia |].
    reflexivity.
  - intros Hi. pose proof (total_count_range str true) as Ht.
    pose proof (total_both str) as Hboth.
    assert (Hpos : 0 < i < 64 * word_count str) by lia.
    split; [apply rank_inside; assumption |]. intros Hfirst.
    assert (Hq : i / 4096 < SUPERBLOCKS_PER_L0) by (apply Z.div_lt_upper_bound; lia).
    rewrite !rank_inside by assumption.
    change (1 =? 1) with true. change (0 =? 1) with false. cbv iota.
    rewrite built_rank_1_exact by assumption.
    rewrite true_rank_all by lia. split; [reflexivity |].
    rewrite u64_small by lia. lia.
Qed.

Lemma rank_clamp_witness :
  string_fits "0110100110010110"
  /\ (64 > 64 * word_count "0110100110010110" - 1
      /\ rank (built "0110100110010110") 64 0 = rank (built "0110100110010110") 63 0)
  /\ (bit_length "0110100110010110" < 17 <= 64 * word_count "0110100110010110" - 1
      /\ 17 < 4096 * SUPERBLOCKS_PER_L0
      /\ rank (built "0110100110010110") 17 1 = total_count "0110100110010110" true
      /\ rank (built "0110100110010110") 17 0
         = total_count "0110100110010110" false + (17 - bit_length "0110100110010110")).
Proof.
  assert (H : string_fits "0110100110010110") by (unfold string_fits; vm_compute; reflexivity).
  assert (H64 : 64 > 64 * word_count "0110100110010110" - 1) by (vm_compute; reflexivity).
  assert (H17 : bit_length "0110100110010110" < 17 <= 64 * word_count "0110100110010110" - 1)
    by (vm_compute; split; [reflexivity | discriminate]).
  assert (Hfirst : 17 < 4096 * SUPERBLOCKS_PER_L0) by (vm_compute; reflexivity).
  split; [exact H | split; [split; [exact H64 |] | split; [exact H17 | split; [exact Hfirst |]]]].
  - exact (proj1 (rank_clamp "0110100110010110" 64 0 H) H64).
  - exact (proj2 (proj2 (rank_clamp "0110100110010110" 17 0 H) H17) Hfirst).
Defined.

(** C4, as the claim has it, fails: with [N = 16] the position 17 is above
    [N], and its rank of zeros is 9, not the 7 of position [N - 1]. *)
Lemma rank_clamp_counterexample :
  bit_length "0110100110010110" = 16
  /\ rank (built "0110100110010110") 17 0 = 9
  /\ rank (built "0110100110010110") (16 - 1) 0 = 7.
Proof. vm_compute. repeat split; reflexivity. Qed.

(** X2.  From the end of [B] on, [rank(i, 1)] stays at the number of 1-bits
    of [B], and [rank(i, 0)] goes on counting the padding of the last word
    as 0-bits, up to the last bit of the word array. *)
Theorem rank_past_end str i :
  str_length str < 4096 * SUPERBLOCKS_PER_L0 -> bit_length str <= i ->
  rank (built str) i 1 = total_count str true
  /\ rank (built str) i 0
     = Z.min i (64 * word_count str - 1) - total_count str true.
Proof.
  intros Hlen Hi. pose proof (first_region_fits str Hlen) as Hfit.
  pose proof (word_count_range str Hfit) as Hw.
  pose proof (word_count_bits str) as Hn.
  pose proof (total_count_range str true) as Ht.
  pose proof (bits_length_le str) as Hbl. fold (bit_length str) in Hbl.
  destruct (Z.eq_dec i 0) as [-> | Hne].
  - rewrite !rank_0. lia.
  - assert (Hclamp : forall b, rank (built str) i b
              = rank (built str) (Z.min i (64 * word_count str - 1)) b)
      by (intros b; apply rank_clamped; [exact Hfit | lia]).
    rewrite !Hclamp. set (c := Z.min i (64 * word_count str - 1)).
    assert (Hc : 0 < c < 64 * word_count str) by (unfold c; lia).
    assert (HcN : bit_length str <= c) by (unfold c; lia).
    rewrite !rank_inside by assumption.
    change (1 =? 1) with true. change (0 =? 1) with false. cbv iota.
    rewrite rank_1_first_region by assumption.
    rewrite true_rank_all by exact HcN. split; [reflexivity |].
    apply u64_small. lia.
Qed.

Lemma rank_past_end_witness :
  str_length "0110100110010110" < 4096 * SUPERBLOCKS_PER_L0
  /\ bit_length "0110100110010110" <= 40
  /\ rank (built "0110100110010110") 40 1 = total_count "0110100110010110" true
  /\ rank (built "0110100110010110") 40 0
     = Z.min 40 (64 * word_count "0110100110010110" - 1)
       - total_count "0110100110010110" true.
Proof.
  assert (H : str_length "0110100110010110" < 4096 * SUPERBLOCKS_PER_L0)
    by (vm_compute; reflexivity).
  assert (H40 : bit_length "0110100110010110" <= 40) by (vm_compute; discriminate).
  split; [exact H | split; [exact H40 |]].
  exact (rank_past_end "0110100110010110" 40 H H40).
Defined.

(** X3.  For a string of the first L0 region and [k] between 1 and the
    number of 1-bits of [B], [select(k, 1)] is the position of the [k]-th
    1-bit of [B]: the bit at that position is 1 and [k - 1] 1-bits lie in
    front of it. *)
Theorem select_one_position str k :
  in_first_region str -> 1 <= k <= total_count str true ->
  exists p, select (built str) k 1 = Some p /\ 0 <= p < bit_length str
    /\ true_bit str p = true /\ true_rank str p true = k - 1.
Proof.
  intros Hreg Hk. unfold select. change (1 =? 1) with true. cbv iota.
  apply select_1_built; assumption.
Qed.

Lemma select_one_position_witness :
  in_first_region "0110100110010110"
  /\ 1 <= 3 <= total_count "0110100110010110" true
  /\ exists p, select (built "0110100110010110") 3 1 = Some p
       /\ 0 <= p < bit_length "0110100110010110"
       /\ true_bit "0110100110010110" p = true
       /\ true_rank "0110100110010110" p true = 3 - 1.
Proof.
  assert (H : in_first_region "0110100110010110")
    by (unfold in_first_region; vm_compute; reflexivity).
  assert (H3 : 1 <= 3 <= total_count "0110100110010110" true)
    by (vm_compute; split; discriminate).
  split; [exact H | split; [exact H3 |]].
  exact (select_one_position "0110100110010110" 3 H H3).
Defined.

Lemma select_0_inside str k p :
  string_fits str -> 1 <= k <= total_count str false -> 0 <= p ->
  true_bit str p = false -> p - true_rank str p true = k - 1 ->
  0 <= p < bit_length str /\ true_rank str p false = k - 1.
Proof.
  intros Hfit Hk Hp Hbit Hcount.
  pose proof (total_both str) as Hb.
  destruct (Z.lt_ge_cases p (bit_length str)) as [L | G].
  - split; [lia |]. pose proof (true_rank_both str p ltac:(lia)). lia.
  - exfalso. rewrite true_rank_all in Hcount by exact G. lia.
Qed.

(** X4.  For a string of the first L0 region and [k] between 1 and the
    number of 0-bits of [B], [select(k, 0)] is the position of the [k]-th
    0-bit of [B]. *)
Theorem select_zero_position str k :
  in_first_region str -> 1 <= k <= total_count str false ->
  exists p, select (built str) k 0 = Some p /\ 0 <= p < bit_length str
    /\ true_bit str p = false /\ true_rank str p false = k - 1.
Proof.
  intros Hreg Hk. destruct (in_first_region_fits str Hreg) as (Hfit & _).
  destruct (zeros_words_built str Hfit) as (_ & Hlt & _).
  unfold select. change (0 =? 1) with false. cbv iota.
  destruct (select_0_built str k Hreg ltac:(lia)) as (p & Hrun & Hp & Hbit & Hcount).
  destruct (select_0_inside str k p Hfit Hk ltac:(lia) Hbit Hcount) as [Hin Hzeros].
  exists p. split; [exact Hrun |]. split; [exact Hin |]. split; assumption.
Qed.

Lemma select_zero_position_witness :
  in_first_region "0110100110010110"
  /\ 1 <= 8 <= total_count "0110100110010110" false
  /\ exists p, select (built "0110100110010110") 8 0 = Some p
       /\ 0 <= p < bit_length "0110100110010110"
       /\ true_bit "0110100110010110" p = false
       /\ true_rank "0110100110010110" p false = 8 - 1.
Proof.
  assert (H : in_first_region "0110100110010110")
    by (unfold in_first_region; vm_compute; reflexivity).
  assert (H8 : 1 <= 8 <= total_count "0110100110010110" false)
    by (vm_compute; split; discriminate).
  split; [exact H | split; [exact H8 |]].
  exact (select_zero_position "0110100110010110" 8 H H8).
Defined.

(** X5.  Past the number of 0-bits of [B], [select(k, 0)] does not fail: up
    to [zeroCount] it answers the positions of the padding after [B], one
    after the other. *)
Theorem select_zero_padding str k :
  in_first_region str ->
  total_count str false < k <= zeroCount (built str) ->
  select (built str) k 0 = Some (bit_length str + (k - total_count str false) - 1).
Proof.
  intros Hreg Hk. destruct (in_first_region_fits str Hreg) as (Hfit & _).
  pose proof (total_count_range str false) as Hr.
  pose proof (total_both str) as Hb.
  unfold select. change (0 =? 1) with false. cbv iota.
  destruct (select_0_built str k Hreg ltac:(lia)) as (p & Hrun & Hp & Hbit & Hcount).
  rewrite Hrun. f_equal.
  destruct (Z.lt_ge_cases p (bit_length str)) as [L | G].
  - exfalso. pose proof (true_rank_both str p ltac:(lia)) as Hboth.
    pose proof (true_rank_hit str p false ltac:(lia) Hbit) as Hhit.
    pose proof (true_rank_total str (p + 1) false ltac:(lia)). lia.
  - rewrite true_rank_all in Hcount by exact G. lia.
Qed.

Lemma select_zero_padding_witness :
  in_first_region "0110100110010110"
  /\ total_count "0110100110010110" false < 10 <= zeroCount (built "0110100110010110")
  /\ select (built "0110100110010110") 10 0
     = Some (bit_length "0110100110010110"
             + (10 - total_count "0110100110010110" false) - 1).
Proof.
  assert (H : in_first_region "0110100110010110")
    by (unfold in_first_region; vm_compute; reflexivity).
  assert (H10 : total_count "0110100110010110" false < 10
                <= zeroCount (built "0110100110010110"))
    by (vm_compute; split; [reflexivity | discriminate]).
  split; [exact H | split; [exact H10 |]].
  exact (select_zero_padding "0110100110010110" 10 H H10).
Defined.

(** X6.  For a string of the first L0 region, a bit value [b] and [k]
    between 1 and the number of bits [b] in [B], [rank] just after the
    position that [select(k, b)] answers is [k]. *)
Theorem rank_after_select str b k :
  in_first_region str -> 1 <= k <= total_count str b ->
  exists p, select (built str) k (bit_value b) = Some p
    /\ rank (built str) (p + 1) (bit_value b) = k.
Proof.
  intros Hreg Hk. destruct (in_first_region_fits str Hreg) as (Hfit & _ & Hlen).
  destruct b.
  - destruct (select_1_built str k Hreg Hk) as (p & Hrun & Hp & Hbit & Hcount).
    exists p. split; [exact Hrun |].
    destruct (rank_exact str (p + 1) Hfit Hlen ltac:(lia)) as [H1 _].
    simpl bit_value. rewrite H1. rewrite true_rank_hit by assumption. lia.
  - destruct (zeros_words_built str Hfit) as (_ & Hlt & _).
    destruct (select_0_built str k Hreg ltac:(lia)) as (p & Hrun & Hp & Hbit & Hcount).
    destruct (select_0_inside str k p Hfit Hk ltac:(lia) Hbit Hcount) as [Hin Hzeros].
    exists p. split; [exact Hrun |].
    destruct (rank_exact str (p + 1) Hfit Hlen ltac:(lia)) as [_ H0].
    simpl bit_value. rewrite H0. rewrite true_rank_hit by assumption. lia.
Qed.

Lemma rank_after_select_witness :
  in_first_region "0110100110010110"
  /\ 1 <= 5 <= total_count "0110100110010110" true
  /\ exists p, select (built "0110100110010110") 5 (bit_value true) = Some p
       /\ rank (built "0110100110010110") (p + 1) (bit_value true) = 5.
Proof.
  assert (H : in_first_region "0110100110010110")
    by (unfold in_first_region; vm_compute; reflexivity).
  assert (H5 : 1 <= 5 <= total_count "0110100110010110" true)
    by (vm_compute; split; discriminate).
  split; [exact H | split; [exact H5 |]].
  exact (rank_after_select "0110100110010110" true 5 H H5).
Defined.

Lemma same_rank_same_position str b p i :
  0 <= p < bit_length str -> 0 <= i < bit_length str ->
  true_bit str p = b -> true_bit str i = b ->
  true_rank str p b = true_rank str i b -> p = i.
Proof.
  intros Hp Hi Hbp Hbi Heq.
  destruct (Z.lt_trichotomy p i) as [L | [E | G]]; [exfalso | exact E | exfalso].
  - pose proof (true_rank_hit str p b Hp Hbp).
    pose proof (true_rank_mono str (p + 1) i b ltac:(lia)). lia.
  - pose proof (true_rank_hit str i b Hi Hbi).
    pose proof (true_rank_mono str (i + 1) p b ltac:(lia)). lia.
Qed.

(** X7.  For a string of the first L0 region and a position [i] of [B]
    that holds the bit [b], [select] of one more than [rank(i, b)] is [i]. *)
Theorem select_after_rank str i :
  in_first_region str -> 0 <= i < bit_length str ->
  select (built str)
    (rank (built str) i (bit_value (true_bit str i)) + 1)
    (bit_value (true_bit str i))
  = Some i.
Proof.
  intros Hreg Hi. destruct (in_first_region_fits str Hreg) as (Hfit & _ & Hlen).
  destruct (rank_exact str i Hfit Hlen ltac:(lia)) as [H1 H0].
  pose proof (true_rank_range str i (true_bit str i) ltac:(lia)) as Hr.
  pose proof (true_rank_hit str i (true_bit str i) Hi eq_refl) as Hhit.
  pose proof (true_rank_total str (i + 1) (true_bit str i) ltac:(lia)) as Htot.
  unfold select. destruct (true_bit str i) eqn:Hb; simpl bit_value.
  - change (1 =? 1) with true. cbv iota. rewrite H1.
    destruct (select_1_built str (true_rank str i true + 1) Hreg ltac:(lia))
      as (p & Hrun & Hp & Hbit & Hcount).
    rewrite Hrun. f_equal.
    apply (same_rank_same_position str true); try assumption. lia.
  - change (0 =? 1) with false. cbv iota. rewrite H0.
    destruct (zeros_words_built str Hfit) as (_ & Hlt & _).
    destruct (select_0_built str (true_rank str i false + 1) Hreg ltac:(lia))
      as (p & Hrun & Hp & Hbit & Hcount).
    destruct (select_0_inside str (true_rank str i false + 1) p Hfit ltac:(lia) ltac:(lia)
                Hbit Hcount) as [Hin Hzeros].
    rewrite Hrun. f_equal.
    apply (same_rank_same_position str false); try assumption. lia.
Qed.

Lemma select_after_rank_witness :
  in_first_region "0110100110010110"
  /\ 0 <= 11 < bit_length "0110100110010110"
  /\ select (built "0110100110010110")
       (rank (built "0110100110010110") 11
          (bit_value (true_bit "0110100110010110" 11)) + 1)
       (bit_value (true_bit "0110100110010110" 11))
     = Some 11.
Proof.
  assert (H : in_first_region "0110100110010110")
    by (unfold in_first_region; vm_compute; reflexivity).
  assert (H11 : 0 <= 11 < bit_length "0110100110010110")
    by (vm_compute; split; [discriminate | reflexivity]).
  split; [exact H | split; [exact H11 |]].
  exact (select_after_rank "0110100110010110" 11 H H11).
Defined.

(** * What the constructor and [buildHelpers] leave behind *)

(** X8.  After [buildHelpers], [access] at a position of the word array
    answers the bit of [B] there, and 0 in the padding after [B]. *)
Theorem access_built str i :
  string_fits str -> 0 <= i < 64 * word_count str ->
  access (built str) i = Z.b2z (true_bit str i)
  /\ (bit_length str <= i -> access (built str) i = 0).
Proof.
  intros Hfit Hi.
  assert (H : access (built str) i = Z.b2z (true_bit str i)).
  { rewrite access_bit by lia. rewrite built_bit by (assumption || lia). reflexivity. }
  split; [exact H |]. intros Hout. rewrite H, true_bit_outside by exact Hout. reflexivity.
Qed.

Lemma access_built_witness :
  string_fits "0110100110010110" /\ 0 <= 40 < 64 * word_count "0110100110010110"
  /\ access (built "0110100110010110") 40 = 0.
Proof.
  assert (H : string_fits "0110100110010110") by (unfold string_fits; vm_compute; reflexivity).
  assert (H40 : 0 <= 40 < 64 * word_count "0110100110010110")
    by (vm_compute; split; [discriminate | reflexivity]).
  split; [exact H | split; [exact H40 |]].
  apply (proj2 (access_built "0110100110010110" 40 H H40)).
  vm_compute. discriminate.
Defined.

(** X9.  The constructor allocates one word for every 64 characters of the
    string, skipped characters included, and one more; every word is a
    [uint64], and the bits after the last accepted character are 0. *)
Theorem constructor_layout str :
  string_fits str ->
  vec_size (vector (bitvector_ctor str)) = str_length str / 64 + 1
  /\ words_ok (vector (bitvector_ctor str))
  /\ forall i, bit_length str <= i -> bit_at (vector (bitvector_ctor str)) i = false.
Proof.
  intros Hfit. destruct (ctor_vector_spec str Hfit) as (Hsize & Hwords & Hbits).
  split; [exact Hsize |]. split; [exact Hwords |].
  intros i Hi. pose proof (total_count_range str true).
  rewrite Hbits by lia. apply true_bit_outside. exact Hi.
Qed.

Lemma constructor_layout_witness :
  string_fits "01 10" /\ vec_size (vector (bitvector_ctor "01 10")) = 1
  /\ bit_at (vector (bitvector_ctor "01 10")) 4 = false.
Proof.
  assert (H : string_fits "01 10") by (unfold string_fits; vm_compute; reflexivity).
  split; [exact H |]. split.
  - exact (proj1 (constructor_layout "01 10" H)).
  - apply (proj2 (proj2 (constructor_layout "01 10" H))). vm_compute. discriminate.
Defined.

Lemma array_prefix str m :
  string_fits str -> 0 <= m ->
  ones_words (vector (bitvector_ctor str)) m = true_rank str (64 * m) true.
Proof.
  intros Hfit Hm. destruct (built_array str Hfit) as (_ & _ & _ & _ & Hones & _).
  rewrite <- ones_before_words by exact Hm. apply Hones. lia.
Qed.

(** X10.  For a string of the first L0 region, [superBlocks] has two words
    for each of the superblocks, and [superRank] of a superblock number is
    the number of 1-bits of [B] in front of that superblock. *)
Theorem superRank_counts str m :
  in_first_region str -> 0 <= m <= word_count str / 64 ->
  vec_size (superBlocks (built str)) = 2 * (word_count str / 64) + 2
  /\ superRank (built str) m = true_rank str (4096 * m) true.
Proof.
  intros Hreg Hm. destruct (in_first_region_fits str Hreg) as (Hfit & Hw & _).
  destruct (built_array str Hfit) as (Hc & Hsize & _).
  split; [apply built_blocks_size; exact Hfit |].
  unfold built. rewrite superRank_first by (rewrite ?Hsize; assumption).
  rewrite array_prefix by (assumption || lia). f_equal. lia.
Qed.

Lemma superRank_counts_witness :
  in_first_region "0110100110010110"
  /\ 0 <= 0 <= word_count "0110100110010110" / 64
  /\ superRank (built "0110100110010110") 0 = true_rank "0110100110010110" (4096 * 0) true.
Proof.
  assert (H : in_first_region "0110100110010110")
    by (unfold in_first_region; vm_compute; reflexivity).
  assert (H0 : 0 <= 0 <= word_count "0110100110010110" / 64)
    by (vm_compute; split; discriminate).
  split; [exact H | split; [exact H0 |]].
  exact (proj2 (superRank_counts "0110100110010110" 0 H H0)).
Defined.

Lemma block_field_stored bv s t :
  constructed bv -> 0 <= s <= vec_size (vector bv) / 64 -> 0 <= t <= 6 ->
  block_field (vec_at (superBlocks (buildHelpers bv)) (2 * s))
    (vec_at (superBlocks (buildHelpers bv)) (2 * s + 1)) t
  = stored_count (vector bv) (vec_size (vector bv)) s t.
Proof.
  intros Hc Hs Ht.
  destruct (built_fields bv Hc s Hs) as (F0 & F1 & F2 & F3 & F4 & F5 & F6).
  cbv zeta in F0, F1, F2, F3, F4, F5, F6. unfold block_field.
  assert (Hcase : t = 0 \/ t = 1 \/ t = 2 \/ t = 3 \/ t = 4 \/ t = 5 \/ t = 6) by lia.
  destruct Hcase as [-> | [-> | [-> | [-> | [-> | [-> | ->]]]]]]; cbn [Z.eqb Pos.eqb];
    assumption.
Qed.

(** X11.  The block fields that [buildHelpers] packs into the two metadata
    words of a superblock read back, the way [rank_1] and [select] read them,
    as the number of 1-bits from the start of the superblock to the end of
    the block; the field of a block without a word is 0. *)
Theorem superblock_fields str q t :
  string_fits str -> 0 <= q <= word_count str / 64 -> 0 <= t <= 6 ->
  block_field (vec_at (superBlocks (built str)) (2 * q))
    (vec_at (superBlocks (built str)) (2 * q + 1)) t
  = if 64 * q + 8 * t <? word_count str
    then true_rank str (4096 * q + 512 * (t + 1)) true - true_rank str (4096 * q) true
    else 0.
Proof.
  intros Hfit Hq Ht. destruct (built_array str Hfit) as (Hc & Hsize & _).
  unfold built. rewrite block_field_stored by (rewrite ?Hsize; assumption).
  unfold stored_count. rewrite Hsize.
  destruct (Z.ltb_spec (64 * q + 8 * t) (word_count str)); [| reflexivity].
  unfold block_count, ones_between. rewrite !array_prefix by (assumption || lia).
  f_equal; f_equal; lia.
Qed.

Lemma superblock_fields_witness :
  string_fits "0110100110010110" /\ 0 <= 0 <= word_count "0110100110010110" / 64
  /\ 0 <= 0 <= 6
  /\ block_field (vec_at (superBlocks (built "0110100110010110")) (2 * 0))
       (vec_at (superBlocks (built "0110100110010110")) (2 * 0 + 1)) 0
     = if 64 * 0 + 8 * 0 <? word_count "0110100110010110"
       then true_rank "0110100110010110" (4096 * 0 + 512 * (0 + 1)) true
            - true_rank "0110100110010110" (4096 * 0) true
       else 0.
Proof.
  assert (H : string_fits "0110100110010110") by (unfold string_fits; vm_compute; reflexivity).
  assert (Hq : 0 <= 0 <= word_count "0110100110010110" / 64)
    by (vm_compute; split; discriminate).
  assert (Ht : 0 <= 0 <= 6) by lia.
  split; [exact H | split; [exact Hq | split; [exact Ht |]]].
  exact (superblock_fields "0110100110010110" 0 0 H Hq Ht).
Defined.

(** ** The select caches *)

Lemma cache_size cum v threshold cache :
  cache_inv cum v threshold cache -> vec_size cache = cum v / 8192.
Proof.
  intros [Hnext Hrange _].
  apply Z.div_unique with (r := cum v - 8192 * vec_size cache); lia.
Qed.

Lemma built_cache_sizes bv :
  constructed bv -> vec_size (vector bv) < 2 ^ 38 ->
  vec_size (selectCache_1 (buildHelpers bv))
  = ones_words (vector bv) (vec_size (vector bv)) / 8192
  /\ vec_size (selectCache_0 (buildHelpers bv))
     = zeros_words (vector bv) (vec_size (vector bv)) / 8192.
Proof.
  intros Hc Hs. pose proof (n_range bv Hc) as Hn.
  unfold buildHelpers. rewrite finish_selectCache_1, finish_selectCache_0. unfold build_loop.
  split.
  - apply (cache_size _ _ _ _ (cache_1_upto bv Hc Hs (vec_size (vector bv)) ltac:(lia))).
  - apply (cache_size _ _ _ _ (cache_0_upto bv Hc Hs (vec_size (vector bv)) ltac:(lia))).
Qed.

(** X12.  For a string of the first L0 region, [selectCache_1] has one
    entry for every 8192 1-bits of [B], none when [B] has fewer, and entry
    [j] is the number of the superblock that holds the 1-bit number
    [8192 * (j + 1)]. *)
Theorem select_cache_1_entries str :
  in_first_region str ->
  vec_size (selectCache_1 (built str)) = total_count str true / 8192
  /\ forall j, 0 <= j < total_count str true / 8192 ->
       0 <= vec_at (selectCache_1 (built str)) j <= (word_count str - 1) / 64
       /\ true_rank str (4096 * vec_at (selectCache_1 (built str)) j) true
          < 8192 * (j + 1)
       /\ 8192 * (j + 1)
          <= true_rank str (4096 * (vec_at (selectCache_1 (built str)) j + 1)) true.
Proof.
  intros Hreg. destruct (in_first_region_fits str Hreg) as (Hfit & Hw & _).
  destruct (built_array str Hfit) as (Hc & Hsize & _ & _ & _ & Htot).
  assert (Hs : vec_size (vector (bitvector_ctor str)) < 2 ^ 38).
  { rewrite Hsize. assert (HQ : SUPERBLOCKS_PER_L0 = 2 ^ 31 - 1) by reflexivity.
    rewrite HQ in Hw. lia. }
  destruct (built_cache_sizes _ Hc Hs) as [H1 _]. rewrite Hsize, Htot in H1.
  split; [exact H1 |]. intros j Hj.
  assert (Hj' : 0 <= j < vec_size (selectCache_1 (buildHelpers (bitvector_ctor str))))
    by (rewrite H1; exact Hj).
  destruct (built_cache_1 _ Hc Hs j Hj') as (Hc0 & Hcn & Hlow & Hup).
  fold (built str) in Hc0, Hcn, Hlow, Hup. rewrite Hsize in Hcn.
  set (c := vec_at (selectCache_1 (built str)) j) in *.
  rewrite !array_prefix in * by (assumption || lia).
  replace (64 * (64 * c)) with (4096 * c) in Hlow by lia.
  replace (64 * (64 * (c + 1))) with (4096 * (c + 1)) in Hup by lia.
  split; [split; [exact Hc0 | Z.div_mod_to_equations; lia] |]. split; assumption.
Qed.

(** X13.  For a string of the first L0 region, [selectCache_0] has one
    entry for every 8192 zero bits of the word array, the zeros of [B] and
    the padding behind it, none when there are fewer, and entry [j] is the
    number of the superblock that holds the zero bit number
    [8192 * (j + 1)]. *)
Theorem select_cache_0_entries str :
  in_first_region str ->
  vec_size (selectCache_0 (built str)) = zeroCount (built str) / 8192
  /\ zeroCount (built str)
     = total_count str false + (64 * word_count str - bit_length str)
  /\ forall j, 0 <= j < zeroCount (built str) / 8192 ->
       0 <= vec_at (selectCache_0 (built str)) j <= (word_count str - 1) / 64
       /\ 4096 * vec_at (selectCache_0 (built str)) j
          - true_rank str (4096 * vec_at (selectCache_0 (built str)) j) true
          < 8192 * (j + 1)
       /\ 8192 * (j + 1)
          <= 4096 * (vec_at (selectCache_0 (built str)) j + 1)
             - true_rank str (4096 * (vec_at (selectCache_0 (built str)) j + 1)) true.
Proof.
  intros Hreg. destruct (in_first_region_fits str Hreg) as (Hfit & Hw & _).
  destruct (built_array str Hfit) as (Hc & Hsize & _ & _ & _ & Htot).
  destruct (zeros_words_built str Hfit) as (Hz & _ & Hzall).
  assert (Hs : vec_size (vector (bitvector_ctor str)) < 2 ^ 38).
  { rewrite Hsize. assert (HQ : SUPERBLOCKS_PER_L0 = 2 ^ 31 - 1) by reflexivity.
    rewrite HQ in Hw. lia. }
  destruct (built_cache_sizes _ Hc Hs) as [_ H0]. rewrite Hsize, Hz in H0.
  split; [exact H0 |]. split; [exact Hzall |]. intros j Hj.
  assert (Hj' : 0 <= j < vec_size (selectCache_0 (buildHelpers (bitvector_ctor str))))
    by (rewrite H0; exact Hj).
  destruct (built_cache_0 _ Hc Hs j Hj') as (Hc0 & Hcn & Hlow & Hup).
  fold (built str) in Hc0, Hcn, Hlow, Hup. rewrite Hsize in Hcn.
  set (c := vec_at (selectCache_0 (built str)) j) in *.
  unfold zeros_words in Hlow, Hup.
  rewrite !array_prefix in * by (assumption || lia).
  replace (64 * (64 * c)) with (4096 * c) in Hlow by lia.
  replace (64 * (64 * (c + 1))) with (4096 * (c + 1)) in Hup by lia.
  split; [split; [exact Hc0 | Z.div_mod_to_equations; lia] |]. split; lia.
Qed.

(** ** The binary searches *)

(** Whatever the probed values are, the search ends within as many rounds
    as the distance of the bounds has bits, and where it ends the probe
    changes sides: it is below [num] just in front of the answer, if the
    answer is not [start], and not below [num] at the answer, if the answer
    is not [end]. *)
Lemma select_1_iterative_loop_ends bv num : forall fuel start end_,
  0 <= start <= end_ -> end_ < 2 ^ 63 -> end_ - start < 2 ^ Z.of_nat fuel ->
  exists x, select_1_iterative_loop fuel bv num start end_ = Some (u64 (x - 1))
    /\ start <= x <= end_
    /\ (start < x -> superRank bv (x - 1) < num)
    /\ (x < end_ -> num <= superRank bv x).
Proof.
  induction fuel as [| f IH]; intros s e Hs He Hd.
  - simpl in Hd. assert (e = s) by lia. subst e. exists s. simpl.
    destruct (Z.gtb_spec s s); [lia |]. split; [reflexivity |]. split; [lia |].
    split; intros; lia.
  - cbn [select_1_iterative_loop]. destruct (Z.gtb_spec e s) as [G | G].
    + destruct (middle_range s e ltac:(lia) He) as [Hmid Hr]. rewrite Hmid.
      destruct (half_distance s e f ltac:(lia) Hd) as [Hd1 Hd2].
      destruct (Z.ltb_spec (superRank bv ((s + e) / 2)) num) as [L | L].
      * rewrite u64_small by lia.
        destruct (IH ((s + e) / 2 + 1) e ltac:(lia) He Hd1) as (x & Hrun & Hx & Hlow & Hup).
        exists x. split; [exact Hrun |]. split; [lia |]. split; [| exact Hup].
        intros Hsx. destruct (Z.eq_dec x ((s + e) / 2 + 1)) as [-> | Hne].
        -- replace ((s + e) / 2 + 1 - 1) with ((s + e) / 2) by lia. exact L.
        -- apply Hlow. lia.
      * destruct (IH s ((s + e) / 2) ltac:(lia) ltac:(lia) Hd2) as (x & Hrun & Hx & Hlow & Hup).
        exists x. split; [exact Hrun |]. split; [lia |]. split; [exact Hlow |].
        intros Hxe. destruct (Z.eq_dec x ((s + e) / 2)) as [-> | Hne]; [exact L |].
        apply Hup. lia.
    + assert (e = s) by lia. subst e. exists s. split; [reflexivity |]. split; [lia |].
      split; intros; lia.
Qed.

Lemma select_0_iterative_loop_ends bv num : forall fuel start end_,
  0 <= start <= end_ -> end_ < 2 ^ 63 -> end_ - start < 2 ^ Z.of_nat fuel ->
  exists x, select_0_iterative_loop fuel bv num start end_ = Some (u64 (x - 1))
    /\ start <= x <= end_
    /\ (start < x -> u64 (u64 ((x - 1) <<< 12) - superRank bv (x - 1)) < num)
    /\ (x < end_ -> num <= u64 (u64 (x <<< 12) - superRank bv x)).
Proof.
  induction fuel as [| f IH]; intros s e Hs He Hd.
  - simpl in Hd. assert (e = s) by lia. subst e. exists s. simpl.
    destruct (Z.gtb_spec s s); [lia |]. split; [reflexivity |]. split; [lia |].
    split; intros; lia.
  - cbn [select_0_iterative_loop]. destruct (Z.gtb_spec e s) as [G | G].
    + destruct (middle_range s e ltac:(lia) He) as [Hmid Hr]. rewrite Hmid.
      destruct (half_distance s e f ltac:(lia) Hd) as [Hd1 Hd2].
      destruct (Z.ltb_spec (u64 (u64 (((s + e) / 2) <<< 12) - superRank bv ((s + e) / 2))) num)
        as [L | L].
      * rewrite (u64_small ((s + e) / 2 + 1)) by lia.
        destruct (IH ((s + e) / 2 + 1) e ltac:(lia) He Hd1) as (x & Hrun & Hx & Hlow & Hup).
        exists x. split; [exact Hrun |]. split; [lia |]. split; [| exact Hup].
        intros Hsx. destruct (Z.eq_dec x ((s + e) / 2 + 1)) as [-> | Hne].
        -- replace ((s + e) / 2 + 1 - 1) with ((s + e) / 2) by lia. exact L.
        -- apply Hlow. lia.
      * destruct (IH s ((s + e) / 2) ltac:(lia) ltac:(lia) Hd2) as (x & Hrun & Hx & Hlow & Hup).
        exists x. split; [exact Hrun |]. split; [lia |]. split; [exact Hlow |].
        intros Hxe. destruct (Z.eq_dec x ((s + e) / 2)) as [-> | Hne]; [exact L |].
        apply Hup. lia.
    + assert (e = s) by lia. subst e. exists s. split; [reflexivity |]. split; [lia |].
      split; intros; lia.
Qed.

(** X14.  Between bounds [start <= end] whose sum does not wrap,
    [select_1_iterative] ends within its 64 rounds whatever the structure
    holds, and answers one less than a number [x] of the range at which
    [superRank] changes sides: below [num] at [x - 1], not below [num] at
    [x].  When [superRank] does not fall from one superblock of the range to
    the next, [x] is the first number of the range whose [superRank] is not
    below [num], or [end] when there is none. *)
Theorem select_1_iterative_first bv num start end_ :
  0 <= start <= end_ -> end_ < 2 ^ 63 ->
  exists x, select_1_iterative bv num start end_ = Some (u64 (x - 1))
    /\ start <= x <= end_
    /\ (start < x -> superRank bv (x - 1) < num)
    /\ (x < end_ -> num <= superRank bv x)
    /\ ((forall m m', start <= m <= m' -> m' < end_ ->
           superRank bv m' < num -> superRank bv m < num) ->
        forall m, start <= m < x -> superRank bv m < num).
Proof.
  intros Hs He. unfold select_1_iterative.
  destruct (select_1_iterative_loop_ends bv num 64 start end_ Hs He ltac:(simpl; lia))
    as (x & Hrun & Hx & Hlow & Hup).
  exists x. split; [exact Hrun |]. split; [exact Hx |]. split; [exact Hlow |].
  split; [exact Hup |].
  intros Hmono m Hm. apply (Hmono m (x - 1)); [lia | lia | apply Hlow; lia].
Qed.

Lemma select_1_iterative_first_witness :
  0 <= 0 <= 3 /\ 3 < 2 ^ 63
  /\ exists x, select_1_iterative (built (ones_string (Z.to_nat 9000))) 5000 0 3
               = Some (u64 (x - 1))
       /\ 0 <= x <= 3
       /\ forall m, 0 <= m < x -> superRank (built (ones_string (Z.to_nat 9000))) m < 5000.
Proof.
  assert (H1 : 0 <= 0 <= 3) by lia. assert (H2 : 3 < 2 ^ 63) by lia.
  split; [exact H1 | split; [exact H2 |]].
  destruct (select_1_iterative_first (built (ones_string (Z.to_nat 9000))) 5000 0 3 H1 H2)
    as (x & Hrun & Hx & _ & _ & Hfirst).
  exists x. split; [exact Hrun |]. split; [exact Hx |]. apply Hfirst.
  intros m m' Hm Hm' Hlt.
  assert (Hcase : m = 0 \/ m = 1 \/ m = 2) by lia.
  destruct Hcase as [-> | [-> | ->]].
  - vm_compute. reflexivity.
  - vm_compute. reflexivity.
  - assert (m' = 2) by lia. subst m'. exact Hlt.
Defined.

(** X15.  The same for [select_0_iterative] and its probe, the number of
    bits in front of a superblock minus its [superRank]. *)
Theorem select_0_iterative_first bv num start end_ :
  0 <= start <= end_ -> end_ < 2 ^ 63 ->
  exists x, select_0_iterative bv num start end_ = Some (u64 (x - 1))
    /\ start <= x <= end_
    /\ (start < x -> u64 (u64 ((x - 1) <<< 12) - superRank bv (x - 1)) < num)
    /\ (x < end_ -> num <= u64 (u64 (x <<< 12) - superRank bv x))
    /\ ((forall m m', start <= m <= m' -> m' < end_ ->
           u64 (u64 (m' <<< 12) - superRank bv m') < num ->
           u64 (u64 (m <<< 12) - superRank bv m) < num) ->
        forall m, start <= m < x -> u64 (u64 (m <<< 12) - superRank bv m) < num).
Proof.
  intros Hs He. unfold select_0_iterative.
  destruct (select_0_iterative_loop_ends bv num 64 start end_ Hs He ltac:(simpl; lia))
    as (x & Hrun & Hx & Hlow & Hup).
  exists x. split; [exact Hrun |]. split; [exact Hx |]. split; [exact Hlow |].
  split; [exact Hup |].
  intros Hmono m Hm. apply (Hmono m (x - 1)); [lia | lia | apply Hlow; lia].
Qed.

Lemma select_0_iterative_first_witness :
  0 <= 0 <= 3 /\ 3 < 2 ^ 63
  /\ exists x, select_0_iterative (built (zeros_string (Z.to_nat 9000))) 5000 0 3
               = Some (u64 (x - 1))
       /\ 0 <= x <= 3
       /\ forall m, 0 <= m < x ->
            u64 (u64 (m <<< 12) - superRank (built (zeros_string (Z.to_nat 9000))) m) < 5000.
Proof.
  assert (H1 : 0 <= 0 <= 3) by lia. assert (H2 : 3 < 2 ^ 63) by lia.
  split; [exact H1 | split; [exact H2 |]].
  destruct (select_0_iterative_first (built (zeros_string (Z.to_nat 9000))) 5000 0 3 H1 H2)
    as (x & Hrun & Hx & _ & _ & Hfirst).
  exists x. split; [exact Hrun |]. split; [exact Hx |]. apply Hfirst.
  intros m m' Hm Hm' Hlt.
  assert (Hcase : m = 0 \/ m = 1 \/ m = 2) by lia.
  destruct Hcase as [-> | [-> | ->]].
  - vm_compute. reflexivity.
  - vm_compute. reflexivity.
  - assert (m' = 2) by lia. subst m'. exact Hlt.
Defined.

(** ** A second call of [buildHelpers] *)

Lemma build_counts_from bv v :
  words_ok (vector bv) -> 0 <= v ->
  0 <= oneCount bv -> oneCount bv + 64 * v < 2 ^ 64 ->
  0 <= zeroCount bv -> zeroCount bv + 64 * v < 2 ^ 64 ->
  oneCount (this (build_upto bv v)) = oneCount bv + ones_words (vector bv) v
  /\ zeroCount (this (build_upto bv v)) = zeroCount bv + zeros_words (vector bv) v.
Proof.
  intros Hw Hv H1 H1b H0 H0b. revert H1b H0b. pattern v.
  apply natlike_ind; [| | exact Hv].
  - intros _ _. rewrite build_upto_0. unfold zeros_words. rewrite ones_words_0.
    simpl. lia.
  - intros x Hx IH H1b H0b. unfold Z.succ in *.
    destruct (IH ltac:(lia) ltac:(lia)) as [IH1 IH0].
    rewrite build_upto_succ by lia. rewrite step_oneCount, step_zeroCount.
    unfold step_ones. rewrite build_upto_vector by lia.
    pose proof (popcount_word _ (vec_at_range (vector bv) x Hw)) as Hpc.
    pose proof (ones_words_range (vector bv) Hw x Hx) as Hr.
    rewrite (u8_small (popcount _)) by lia. rewrite IH1, IH0.
    unfold zeros_words in *. rewrite ones_words_succ by lia.
    rewrite !u64_small by lia. lia.
Qed.

(** X16.  [buildHelpers] adds to the counters it finds: called a second
    time on the structure of a string of the first L0 region, it leaves the
    words as they are and doubles [oneCount] and [zeroCount]. *)
Theorem buildHelpers_again str :
  in_first_region str ->
  vector (buildHelpers (built str)) = vector (built str)
  /\ oneCount (buildHelpers (built str)) = 2 * oneCount (built str)
  /\ zeroCount (buildHelpers (built str)) = 2 * zeroCount (built str).
Proof.
  intros Hreg. destruct (in_first_region_fits str Hreg) as (Hfit & Hw37 & _).
  assert (HQ : SUPERBLOCKS_PER_L0 = 2 ^ 31 - 1) by reflexivity. rewrite HQ in Hw37.
  destruct (built_array str Hfit) as (Hc & Hsize & Hwords & _ & _ & Htot).
  pose proof (word_count_range str Hfit) as Hw.
  pose proof (built_vector str Hfit) as Hvec.
  pose proof (built_oneCount str Hfit) as H1.
  pose proof (built_zeroCount str Hfit) as H0.
  pose proof (total_count_range str true) as Ht.
  pose proof (word_count_bits str) as Hn.
  assert (Hn2 : vec_size (vector (built str)) = word_count str) by (rewrite Hvec; exact Hsize).
  split.
  - unfold buildHelpers at 1. rewrite finish_vector. unfold build_loop.
    apply build_upto_vector. rewrite Hn2. lia.
  - unfold buildHelpers at 1 2. rewrite finish_oneCount, finish_zeroCount. unfold build_loop.
    assert (Hwb : words_ok (vector (built str))) by (rewrite Hvec; exact Hwords).
    destruct (build_counts_from (built str) (vec_size (vector (built str))) Hwb
                ltac:(lia) ltac:(lia) ltac:(lia) ltac:(lia) ltac:(lia)) as [R1 R0].
    rewrite R1, R0. unfold zeros_words. rewrite Hn2, Hvec, Htot, H1, H0. lia.
Qed.

Lemma buildHelpers_again_witness :
  in_first_region "0110100110010110"
  /\ oneCount (buildHelpers (built "0110100110010110"))
     = 2 * oneCount (built "0110100110010110").
Proof.
  assert (H : in_first_region "0110100110010110")
    by (unfold in_first_region; vm_compute; reflexivity).
  split; [exact H |].
  exact (proj1 (proj2 (buildHelpers_again "0110100110010110" H))).
Defined.

Lemma select_cache_1_entries_witness :
  in_first_region (ones_string (Z.to_nat 8192))
  /\ vec_size (selectCache_1 (built (ones_string (Z.to_nat 8192))))
     = total_count (ones_string (Z.to_nat 8192)) true / 8192
  /\ 0 <= 0 < total_count (ones_string (Z.to_nat 8192)) true / 8192
  /\ 8192 * (0 + 1)
     <= true_rank (ones_string (Z.to_nat 8192))
          (4096 * (vec_at (selectCache_1 (built (ones_string (Z.to_nat 8192)))) 0 + 1))
          true.
Proof.
  assert (H : in_first_region (ones_string (Z.to_nat 8192)))
    by (unfold in_first_region; vm_compute; reflexivity).
  assert (Hj : 0 <= 0 < total_count (ones_string (Z.to_nat 8192)) true / 8192)
    by (vm_compute; split; [discriminate | reflexivity]).
  destruct (select_cache_1_entries (ones_string (Z.to_nat 8192)) H) as [Hsize Hentry].
  split; [exact H | split; [exact Hsize | split; [exact Hj |]]].
  exact (proj2 (proj2 (Hentry 0 Hj))).
Defined.

Lemma select_cache_0_entries_witness :
  in_first_region (zeros_string (Z.to_nat 8190))
  /\ vec_size (selectCache_0 (built (zeros_string (Z.to_nat 8190))))
     = zeroCount (built (zeros_string (Z.to_nat 8190))) / 8192
  /\ 0 <= 0 < zeroCount (built (zeros_string (Z.to_nat 8190))) / 8192
  /\ 4096 * vec_at (selectCache_0 (built (zeros_string (Z.to_nat 8190)))) 0
     - true_rank (zeros_string (Z.to_nat 8190))
         (4096 * vec_at (selectCache_0 (built (zeros_string (Z.to_nat 8190)))) 0) true
     < 8192 * (0 + 1).
Proof.
  assert (H : in_first_region (zeros_string (Z.to_nat 8190)))
    by (unfold in_first_region; vm_compute; reflexivity).
  assert (Hj : 0 <= 0 < zeroCount (built (zeros_string (Z.to_nat 8190))) / 8192)
    by (vm_compute; split; [discriminate | reflexivity]).
  destruct (select_cache_0_entries (zeros_string (Z.to_nat 8190)) H)
    as (Hsize & _ & Hentry).
  split; [exact H | split; [exact Hsize | split; [exact Hj |]]].
  exact (proj1 (proj2 (Hentry 0 Hj))).
Defined.

(** * The command lines of the driver *)

Lemma is_digit_code c : is_digit c = true -> 0 <= char_code c - 48 <= 9.
Proof.
  unfold is_digit. intros H. apply andb_true_iff in H. destruct H as [H1 H2].
  apply Z.leb_le in H1, H2. lia.
Qed.

Lemma span_digits_number d r :
  all_digits d = true ->
  (forall c r', r = String c r' -> is_digit c = false) ->
  span_digits (d ++ r)%string = (d, r).
Proof.
  intros Hd Hr. induction d as [| c d IH].
  - simpl. destruct r as [| c r']; [reflexivity |].
    simpl. rewrite (Hr c r' eq_refl). reflexivity.
  - simpl in Hd. apply andb_true_iff in Hd. destruct Hd as [Hc Hd].
    simpl. rewrite Hc, (IH Hd). reflexivity.
Qed.

Lemma line_end_no_digit cr c r' : line_end cr = String c r' -> is_digit c = false.
Proof. destruct cr; simpl; intros H; inversion H. reflexivity. Qed.

Lemma space_no_digit x c r' : (" " ++ x)%string = String c r' -> is_digit c = false.
Proof. simpl. intros H. inversion H. reflexivity. Qed.

Lemma line_end_ends cr :
  is_empty (line_end cr) || String.eqb (line_end cr) carriage_return = true.
Proof. destruct cr; reflexivity. Qed.

Lemma line_end_no_space cr : after_prefix " " (line_end cr) = None.
Proof. destruct cr; reflexivity. Qed.

Lemma digits_value_from_range s : forall acc,
  all_digits s = true -> 0 <= acc -> acc <= digits_value_from acc s.
Proof.
  induction s as [| c s IH]; intros acc Hs Hacc; [simpl; lia |].
  simpl in Hs. apply andb_true_iff in Hs. destruct Hs as [Hc Hs].
  pose proof (is_digit_code c Hc). simpl.
  pose proof (IH (10 * acc + (char_code c - 48)) Hs ltac:(lia)). lia.
Qed.

Lemma digits_value_nonneg s : all_digits s = true -> 0 <= digits_value s.
Proof. intros H. apply (digits_value_from_range s 0 H). lia. Qed.

(** The groups of a line with one number. *)
Lemma regex_search_one keyword d cr :
  (forall x, match_keyword (keyword ++ " " ++ x)%string = Some (keyword, x)) ->
  number d ->
  regex_search (keyword ++ " " ++ d ++ line_end cr)%string = Some (keyword, d, None).
Proof.
  intros Hkw [Hd Hne]. unfold regex_search. rewrite Hkw. cbv beta iota.
  rewrite span_digits_number by (exact Hd || apply line_end_no_digit).
  rewrite Hne. rewrite line_end_no_space. rewrite line_end_ends. reflexivity.
Qed.

(** The groups of a line with two numbers. *)
Lemma regex_search_two keyword d1 d2 cr :
  (forall x, match_keyword (keyword ++ " " ++ x)%string = Some (keyword, x)) ->
  number d1 -> number d2 ->
  regex_search (keyword ++ " " ++ d1 ++ " " ++ d2 ++ line_end cr)%string
  = Some (keyword, d1, Some d2).
Proof.
  intros Hkw [Hd1 Hne1] [Hd2 Hne2]. unfold regex_search. rewrite Hkw. cbv beta iota.
  rewrite span_digits_number by (exact Hd1 || apply space_no_digit).
  rewrite Hne1. change (after_prefix " " (" " ++ d2 ++ line_end cr)%string)
    with (Some (d2 ++ line_end cr)%string).
  cbv beta iota. rewrite span_digits_number by (exact Hd2 || apply line_end_no_digit).
  rewrite Hne2. rewrite line_end_ends. reflexivity.
Qed.

Lemma keyword_access x : match_keyword ("access" ++ " " ++ x)%string = Some ("access"%string, x).
Proof. reflexivity. Qed.

Lemma keyword_rank x : match_keyword ("rank" ++ " " ++ x)%string = Some ("rank"%string, x).
Proof. reflexivity. Qed.

Lemma keyword_select x : match_keyword ("select" ++ " " ++ x)%string = Some ("select"%string, x).
Proof. reflexivity. Qed.

Lemma stoll_value d : digits_value d < 2 ^ 63 -> stoll d = Some (digits_value d).
Proof. intros H. unfold stoll. destruct (Z.leb_spec (digits_value d) (2 ^ 63 - 1)); [reflexivity | lia]. Qed.

Lemma stoi_value d : digits_value d < 2 ^ 31 -> stoi d = Some (digits_value d).
Proof. intros H. unfold stoi. destruct (Z.leb_spec (digits_value d) (2 ^ 31 - 1)); [reflexivity | lia]. Qed.

Lemma int_of_small p : 0 <= p < 2 ^ 31 -> u64 (int_of p) = p.
Proof.
  intros Hp. unfold int_of. rewrite Z.mod_small by lia. rewrite u64_small by lia. lia.
Qed.

Lemma int_of_value p :
  0 <= p ->
  u64 (int_of p)
  = if p mod 2 ^ 32 <? 2 ^ 31 then p mod 2 ^ 32 else p mod 2 ^ 32 + (2 ^ 64 - 2 ^ 32).
Proof.
  intros Hp. unfold int_of, u64, wrap.
  pose proof (Z.mod_pos_bound p (2 ^ 32) ltac:(lia)) as Hm.
  pose proof (Z.div_mod p (2 ^ 32) ltac:(lia)) as Hdm.
  destruct (Z.ltb_spec (p mod 2 ^ 32) (2 ^ 31)) as [L | G].
  - assert (H : (p + 2 ^ 31) mod 2 ^ 32 = p mod 2 ^ 32 + 2 ^ 31).
    { symmetry. apply Z.mod_unique with (q := p / 2 ^ 32); lia. }
    rewrite H. rewrite Z.mod_small by lia. lia.
  - assert (H : (p + 2 ^ 31) mod 2 ^ 32 = p mod 2 ^ 32 - 2 ^ 31).
    { symmetry. apply Z.mod_unique with (q := p / 2 ^ 32 + 1); lia. }
    rewrite H. symmetry. apply Z.mod_unique with (q := -1); lia.
Qed.

(** X17.  A line [access <number>], with or without a carriage return at
    its end, is read as the command a with that position, for every number
    that a [long long] holds. *)
Theorem getCommand_access d cr :
  number d -> digits_value d < 2 ^ 63 ->
  getCommand ("access" ++ " " ++ d ++ line_end cr)%string
  = Some {| cmd := "a"; bitValue := 0; position := digits_value d; reply := 0 |}.
Proof.
  intros Hd Hv. unfold getCommand.
  rewrite (regex_search_one "access" d cr keyword_access Hd).
  cbn [first_char]. change (Ascii.eqb "a" "a") with true. cbv iota.
  rewrite stoll_value by exact Hv.
  rewrite u64_small by (pose proof (digits_value_nonneg d (proj1 Hd)); lia).
  reflexivity.
Qed.

Lemma getCommand_access_witness :
  number "14" /\ digits_value "14" < 2 ^ 63
  /\ getCommand ("access" ++ " " ++ "14" ++ line_end true)%string
     = Some {| cmd := "a"; bitValue := 0; position := digits_value "14"; reply := 0 |}.
Proof.
  assert (H : number "14") by (split; reflexivity).
  assert (Hv : digits_value "14" < 2 ^ 63) by (vm_compute; reflexivity).
  split; [exact H | split; [exact Hv |]].
  exact (getCommand_access "14" true H Hv).
Defined.

(** X18.  A line [rank <bit> <position>] or [select <bit> <number>] is
    read as the command r or s with the bit value taken modulo 256 and the
    second number converted to [int] on its way to the [uint64] position:
    only its low 32 bits count, and from bit 31 set the position becomes a
    number above [2 ^ 64 - 2 ^ 31]. *)
Theorem getCommand_rank_select keyword b d cr :
  keyword = "rank"%string \/ keyword = "select"%string ->
  number b -> number d -> digits_value b < 2 ^ 31 -> digits_value d < 2 ^ 63 ->
  getCommand (keyword ++ " " ++ b ++ " " ++ d ++ line_end cr)%string
  = Some {| cmd := first_char keyword;
            bitValue := digits_value b mod 256;
            position := if digits_value d mod 2 ^ 32 <? 2 ^ 31
                        then digits_value d mod 2 ^ 32
                        else digits_value d mod 2 ^ 32 + (2 ^ 64 - 2 ^ 32);
            reply := 0 |}.
Proof.
  intros Hkw Hb Hd Hvb Hvd. unfold getCommand.
  assert (Hsearch : regex_search (keyword ++ " " ++ b ++ " " ++ d ++ line_end cr)%string
                    = Some (keyword, b, Some d)).
  { destruct Hkw as [-> | ->];
      [apply (regex_search_two "rank" b d cr keyword_rank Hb Hd)
      | apply (regex_search_two "select" b d cr keyword_select Hb Hd)]. }
  rewrite Hsearch.
  assert (Hchar : Ascii.eqb (first_char keyword) "a" = false)
    by (destruct Hkw as [-> | ->]; reflexivity).
  rewrite Hchar. rewrite stoi_value by exact Hvb. rewrite stoll_value by exact Hvd.
  rewrite int_of_value by (apply digits_value_nonneg; apply Hd). reflexivity.
Qed.

Lemma getCommand_rank_select_witness :
  ("rank"%string = "rank"%string \/ "rank"%string = "select"%string)
  /\ number "1" /\ number "4294967301"
  /\ digits_value "1" < 2 ^ 31 /\ digits_value "4294967301" < 2 ^ 63
  /\ getCommand ("rank" ++ " " ++ "1" ++ " " ++ "4294967301" ++ line_end false)%string
     = Some {| cmd := "r"; bitValue := 1; position := 5; reply := 0 |}.
Proof.
  assert (Hk : "rank"%string = "rank"%string \/ "rank"%string = "select"%string)
    by (left; reflexivity).
  assert (Hb : number "1") by (split; reflexivity).
  assert (Hd : number "4294967301") by (split; reflexivity).
  assert (Hvb : digits_value "1" < 2 ^ 31) by (vm_compute; reflexivity).
  assert (Hvd : digits_value "4294967301" < 2 ^ 63) by (vm_compute; reflexivity).
  split; [exact Hk | split; [exact Hb | split; [exact Hd | split; [exact Hvb |
    split; [exact Hvd |]]]]].
  exact (getCommand_rank_select "rank" "1" "4294967301" false Hk Hb Hd Hvb Hvd).
Defined.

(** X19.  A line [rank <bit>] or [select <bit>] without a second number is
    read with the position 0. *)
Theorem getCommand_missing_position keyword b cr :
  keyword = "rank"%string \/ keyword = "select"%string ->
  number b -> digits_value b < 2 ^ 31 ->
  getCommand (keyword ++ " " ++ b ++ line_end cr)%string
  = Some {| cmd := first_char keyword; bitValue := digits_value b mod 256;
            position := 0; reply := 0 |}.
Proof.
  intros Hkw Hb Hvb. unfold getCommand.
  assert (Hsearch : regex_search (keyword ++ " " ++ b ++ line_end cr)%string
                    = Some (keyword, b, None)).
  { destruct Hkw as [-> | ->];
      [apply (regex_search_one "rank" b cr keyword_rank Hb)
      | apply (regex_search_one "select" b cr keyword_select Hb)]. }
  rewrite Hsearch.
  assert (Hchar : Ascii.eqb (first_char keyword) "a" = false)
    by (destruct Hkw as [-> | ->]; reflexivity).
  rewrite Hchar. rewrite stoi_value by exact Hvb. reflexivity.
Qed.

Lemma getCommand_missing_position_witness :
  ("select"%string = "rank"%string \/ "select"%string = "select"%string)
  /\ number "1" /\ digits_value "1" < 2 ^ 31
  /\ getCommand ("select" ++ " " ++ "1" ++ line_end false)%string
     = Some {| cmd := "s"; bitValue := 1; position := 0; reply := 0 |}.
Proof.
  assert (Hk : "select"%string = "rank"%string \/ "select"%string = "select"%string)
    by (right; reflexivity).
  assert (Hb : number "1") by (split; reflexivity).
  assert (Hvb : digits_value "1" < 2 ^ 31) by (vm_compute; reflexivity).
  split; [exact Hk | split; [exact Hb | split; [exact Hvb |]]].
  exact (getCommand_missing_position "select" "1" false Hk Hb Hvb).
Defined.

(** X20.  A second number after [access <number>] is accepted and
    ignored. *)
Theorem getCommand_access_second d1 d2 cr :
  number d1 -> number d2 ->
  getCommand ("access" ++ " " ++ d1 ++ " " ++ d2 ++ line_end cr)%string
  = getCommand ("access" ++ " " ++ d1 ++ line_end cr)%string.
Proof.
  intros H1 H2. unfold getCommand.
  rewrite (regex_search_two "access" d1 d2 cr keyword_access H1 H2).
  rewrite (regex_search_one "access" d1 cr keyword_access H1).
  reflexivity.
Qed.

Lemma getCommand_access_second_witness :
  number "3" /\ number "77"
  /\ getCommand ("access" ++ " " ++ "3" ++ " " ++ "77" ++ line_end false)%string
     = getCommand ("access" ++ " " ++ "3" ++ line_end false)%string.
Proof.
  assert (H1 : number "3") by (split; reflexivity).
  assert (H2 : number "77") by (split; reflexivity).
  split; [exact H1 | split; [exact H2 |]].
  exact (getCommand_access_second "3" "77" false H1 H2).
Defined.

(** X21.  Numbers that the conversions do not hold end the run with
    [std::out_of_range]: a position of [access] from [2 ^ 63] on, a bit value
    of [rank] or [select] from [2 ^ 31] on, and a position of [rank] or
    [select] from [2 ^ 63] on. *)
Theorem getCommand_out_of_range keyword b d cr :
  keyword = "rank"%string \/ keyword = "select"%string ->
  number b -> number d ->
  (2 ^ 63 <= digits_value d ->
   getCommand ("access" ++ " " ++ d ++ line_end cr)%string = None)
  /\ (2 ^ 31 <= digits_value b ->
      getCommand (keyword ++ " " ++ b ++ " " ++ d ++ line_end cr)%string = None)
  /\ (2 ^ 63 <= digits_value d ->
      getCommand (keyword ++ " " ++ b ++ " " ++ d ++ line_end cr)%string = None).
Proof.
  intros Hkw Hb Hd.
  assert (Hsearch : regex_search (keyword ++ " " ++ b ++ " " ++ d ++ line_end cr)%string
                    = Some (keyword, b, Some d)).
  { destruct Hkw as [-> | ->];
      [apply (regex_search_two "rank" b d cr keyword_rank Hb Hd)
      | apply (regex_search_two "select" b d cr keyword_select Hb Hd)]. }
  assert (Hchar : Ascii.eqb (first_char keyword) "a" = false)
    by (destruct Hkw as [-> | ->]; reflexivity).
  split; [| split]; intros Hbig; unfold getCommand.
  - rewrite (regex_search_one "access" d cr keyword_access Hd).
    cbn [first_char]. change (Ascii.eqb "a" "a") with true. cbv iota.
    unfold stoll. destruct (Z.leb_spec (digits_value d) (2 ^ 63 - 1)); [lia | reflexivity].
  - rewrite Hsearch, Hchar. unfold stoi.
    destruct (Z.leb_spec (digits_value b) (2 ^ 31 - 1)); [lia | reflexivity].
  - rewrite Hsearch, Hchar. unfold stoi, stoll.
    destruct (Z.leb_spec (digits_value b) (2 ^ 31 - 1)); [| reflexivity].
    destruct (Z.leb_spec (digits_value d) (2 ^ 63 - 1)); [lia | reflexivity].
Qed.

Lemma getCommand_out_of_range_witness :
  ("rank"%string = "rank"%string \/ "rank"%string = "select"%string)
  /\ number "1" /\ number "9223372036854775808"
  /\ getCommand ("access" ++ " " ++ "9223372036854775808" ++ line_end false)%string = None.
Proof.
  assert (Hk : "rank"%string = "rank"%string \/ "rank"%string = "select"%string)
    by (left; reflexivity).
  assert (Hb : number "1") by (split; reflexivity).
  assert (Hd : number "9223372036854775808") by (split; reflexivity).
  split; [exact Hk | split; [exact Hb | split; [exact Hd |]]].
  apply (proj1 (getCommand_out_of_range "rank" "1" "9223372036854775808" false Hk Hb Hd)).
  vm_compute. discriminate.
Defined.

Lemma match_keyword_first line keyword r :
  match_keyword line = Some (keyword, r) ->
  keyword = "access"%string \/ keyword = "rank"%string \/ keyword = "select"%string.
Proof.
  unfold match_keyword.
  destruct (after_prefix "access " line); [intros H; inversion H; auto |].
  destruct (after_prefix "rank " line); [intros H; inversion H; auto |].
  destruct (after_prefix "select " line); [intros H; inversion H; auto |].
  discriminate.
Qed.

(** X22.  Whatever the line, a command that [getCommand] returns has one of
    the characters a, r and s, so that the [switch] of [processCommand] never
    falls through; its fields are in the range of their types and its reply
    is 0. *)
Theorem getCommand_shape line c :
  getCommand line = Some c ->
  (cmd c = "a"%char \/ cmd c = "r"%char \/ cmd c = "s"%char)
  /\ 0 <= bitValue c < 2 ^ 8 /\ 0 <= position c < 2 ^ 64 /\ reply c = 0.
Proof.
  unfold getCommand, regex_search.
  destruct (match_keyword line) as [[keyword r] |] eqn:Hkw.
  2:{ intros H. inversion H. simpl. repeat split; try lia. left. reflexivity. }
  destruct (span_digits r) as [first r1].
  destruct (is_empty first).
  { intros H. inversion H. simpl. repeat split; try lia. left. reflexivity. }
  destruct (match after_prefix " " r1 with
            | Some r1' => let '(d, r') := span_digits r1' in
                          if is_empty d then (None, r1) else (Some d, r')
            | None => (None, r1)
            end) as [second r2].
  destruct (is_empty r2 || String.eqb r2 carriage_return).
  2:{ intros H. inversion H. simpl. repeat split; try lia. left. reflexivity. }
  pose proof (match_keyword_first line keyword r Hkw) as Hcases.
  destruct (Ascii.eqb (first_char keyword) "a") eqn:Ha.
  - destruct (stoll first); [| discriminate]. intros H. inversion H. simpl.
    pose proof (u64_range z).
    split; [left; apply Ascii.eqb_eq; exact Ha |]. repeat split; lia.
  - destruct (stoi first); [| discriminate].
    destruct (match second with Some d => stoll d | None => Some 0 end); [| discriminate].
    intros H. inversion H. simpl.
    pose proof (u64_range (int_of z0)). pose proof (wrap_range 8 z ltac:(lia)).
    split; [| repeat split; unfold u8; lia].
    destruct Hcases as [-> | [-> | ->]]; [discriminate | right; left | right; right];
      reflexivity.
Qed.

Lemma getCommand_shape_witness :
  getCommand "select 1 3"
  = Some {| cmd := "s"; bitValue := 1; position := 3; reply := 0 |}
  /\ 0 <= bitValue {| cmd := "s"; bitValue := 1; position := 3; reply := 0 |} < 2 ^ 8.
Proof.
  assert (H : getCommand "select 1 3"
              = Some {| cmd := "s"; bitValue := 1; position := 3; reply := 0 |})
    by reflexivity.
  split; [exact H |].
  exact (proj1 (proj2 (getCommand_shape "select 1 3" _ H))).
Defined.

(** * The replies of the driver *)

Lemma digit_bit b : number b -> digits_value b <= 1 -> digits_value b mod 256 = digits_value b.
Proof.
  intros [Hb _] H1. pose proof (digits_value_nonneg b Hb). apply Z.mod_small. lia.
Qed.

(** X23.  A line that the pattern does not match is answered like
    [access 0]: with the first bit of [B], or with 0 when [B] is empty. *)
Theorem main_reply_malformed str line :
  string_fits str -> regex_search line = None ->
  main_reply str line = Some (Z.b2z (true_bit str 0)).
Proof.
  intros Hfit Hno. unfold main_reply, getCommand. rewrite Hno.
  unfold processCommand. cbn [cmd position bitValue].
  change (Ascii.eqb "a" "a") with true. cbv iota. cbn [reply].
  rewrite access_bit by lia. rewrite built_bit by (assumption || lia). reflexivity.
Qed.

Lemma main_reply_malformed_witness :
  string_fits "1011" /\ regex_search "rank one 2" = None
  /\ main_reply "1011" "rank one 2" = Some (Z.b2z (true_bit "1011" 0)).
Proof.
  assert (H : string_fits "1011") by (unfold string_fits; vm_compute; reflexivity).
  assert (Hno : regex_search "rank one 2" = None) by reflexivity.
  split; [exact H | split; [exact Hno |]].
  exact (main_reply_malformed "1011" "rank one 2" H Hno).
Defined.

(** X24.  The reply to [access <i>] for a position of the word array is
    the bit [B[i]], and 0 in the padding after [B]. *)
Theorem main_reply_access str d cr :
  string_fits str -> number d -> digits_value d < 64 * word_count str ->
  main_reply str ("access" ++ " " ++ d ++ line_end cr)%string
  = Some (Z.b2z (true_bit str (digits_value d))).
Proof.
  intros Hfit Hd Hv. pose proof (digits_value_nonneg d (proj1 Hd)) as H0.
  pose proof (word_count_range str Hfit) as Hw.
  unfold main_reply, getCommand.
  rewrite (regex_search_one "access" d cr keyword_access Hd).
  cbn [first_char]. change (Ascii.eqb "a" "a") with true. cbv iota.
  rewrite stoll_value by lia. rewrite u64_small by lia.
  unfold processCommand. cbn [cmd position bitValue].
  change (Ascii.eqb "a" "a") with true. cbv iota. cbn [reply].
  rewrite access_bit by lia. rewrite built_bit by (assumption || lia). reflexivity.
Qed.

Lemma main_reply_access_witness :
  string_fits "1011" /\ number "2" /\ digits_value "2" < 64 * word_count "1011"
  /\ main_reply "1011" ("access" ++ " " ++ "2" ++ line_end true)%string
     = Some (Z.b2z (true_bit "1011" (digits_value "2"))).
Proof.
  assert (H : string_fits "1011") by (unfold string_fits; vm_compute; reflexivity).
  assert (Hd : number "2") by (split; reflexivity).
  assert (Hv : digits_value "2" < 64 * word_count "1011") by (vm_compute; reflexivity).
  split; [exact H | split; [exact Hd | split; [exact Hv |]]].
  exact (main_reply_access "1011" "2" true H Hd Hv).
Defined.

Lemma rank_line str b d cr :
  number b -> number d -> digits_value b <= 1 -> digits_value d < 2 ^ 63 ->
  main_reply str ("rank" ++ " " ++ b ++ " " ++ d ++ line_end cr)%string
  = Some (rank (built str) (u64 (int_of (digits_value d))) (digits_value b)).
Proof.
  intros Hb Hd Hvb Hvd. unfold main_reply, getCommand.
  rewrite (regex_search_two "rank" b d cr keyword_rank Hb Hd).
  cbn [first_char]. change (Ascii.eqb "r" "a") with false. cbv iota.
  rewrite stoi_value by lia. rewrite stoll_value by lia.
  unfold processCommand. cbn [cmd position bitValue].
  change (Ascii.eqb "r" "a") with false. change (Ascii.eqb "r" "r") with true.
  cbv iota. cbn [reply]. unfold u8, wrap. change (2 ^ 8) with 256.
  rewrite digit_bit by assumption. reflexivity.
Qed.

(** X25.  For a string of fewer than [4096 * SUPERBLOCKS_PER_L0]
    characters, the reply to [rank <b> <i>] with [b] 0 or 1 and a position
    [i] of [B] below [2 ^ 31] is the number of bits [b] in [B[0..i)]. *)
Theorem main_reply_rank str b d cr :
  str_length str < 4096 * SUPERBLOCKS_PER_L0 ->
  number b -> number d -> digits_value b <= 1 ->
  digits_value d <= bit_length str -> digits_value d < 2 ^ 31 ->
  main_reply str ("rank" ++ " " ++ b ++ " " ++ d ++ line_end cr)%string
  = Some (true_rank str (digits_value d) (digits_value b =? 1)).
Proof.
  intros Hlen Hb Hd Hvb Hin Hvd.
  pose proof (digits_value_nonneg d (proj1 Hd)) as H0.
  pose proof (digits_value_nonneg b (proj1 Hb)) as Hb0.
  rewrite rank_line by (assumption || lia). rewrite int_of_small by lia.
  destruct (rank_exact str (digits_value d) (first_region_fits str Hlen) Hlen ltac:(lia))
    as [R1 R0].
  f_equal. destruct (Z.eqb_spec (digits_value b) 1) as [E | NE].
  - rewrite E. exact R1.
  - replace (digits_value b) with 0 by lia. exact R0.
Qed.

Lemma main_reply_rank_witness :
  str_length "1011" < 4096 * SUPERBLOCKS_PER_L0
  /\ number "1" /\ number "3" /\ digits_value "1" <= 1
  /\ digits_value "3" <= bit_length "1011" /\ digits_value "3" < 2 ^ 31
  /\ main_reply "1011" ("rank" ++ " " ++ "1" ++ " " ++ "3" ++ line_end false)%string
     = Some (true_rank "1011" (digits_value "3") (digits_value "1" =? 1)).
Proof.
  assert (H : str_length "1011" < 4096 * SUPERBLOCKS_PER_L0) by (vm_compute; reflexivity).
  assert (Hb : number "1") by (split; reflexivity).
  assert (Hd : number "3") by (split; reflexivity).
  assert (Hvb : digits_value "1" <= 1) by (vm_compute; discriminate).
  assert (Hin : digits_value "3" <= bit_length "1011") by (vm_compute; discriminate).
  assert (Hvd : digits_value "3" < 2 ^ 31) by (vm_compute; reflexivity).
  split; [exact H | split; [exact Hb | split; [exact Hd | split; [exact Hvb |
    split; [exact Hin | split; [exact Hvd |]]]]]].
  exact (main_reply_rank "1011" "1" "3" false H Hb Hd Hvb Hin Hvd).
Defined.

(** X26.  A position of [rank] from [2 ^ 31] up to [2 ^ 32] reaches
    [rank] as a number above [2 ^ 64 - 2 ^ 31]: whatever the length of [B],
    the reply to [rank 1 <i>] is then the number of all 1-bits of [B]. *)
Theorem main_reply_rank_wrapped str d cr :
  str_length str < 4096 * SUPERBLOCKS_PER_L0 ->
  number d -> 2 ^ 31 <= digits_value d < 2 ^ 32 ->
  main_reply str ("rank" ++ " " ++ "1" ++ " " ++ d ++ line_end cr)%string
  = Some (total_count str true).
Proof.
  intros Hlen Hd Hv. assert (Hb : number "1") by (split; reflexivity).
  assert (Hone : digits_value "1" <= 1) by (vm_compute; discriminate).
  rewrite (rank_line str "1" d cr Hb Hd Hone ltac:(lia)).
  rewrite int_of_value by lia. rewrite (Z.mod_small (digits_value d)) by lia.
  destruct (Z.ltb_spec (digits_value d) (2 ^ 31)) as [L | _]; [lia |].
  change (digits_value "1") with 1. f_equal.
  pose proof (bits_length_le str) as Hbl. fold (bit_length str) in Hbl.
  assert (HQ : SUPERBLOCKS_PER_L0 = 2 ^ 31 - 1) by reflexivity. rewrite HQ in Hlen.
  apply rank_ones_beyond; [rewrite HQ; exact Hlen | lia | lia].
Qed.

Lemma main_reply_rank_wrapped_witness :
  str_length "1011" < 4096 * SUPERBLOCKS_PER_L0
  /\ number "2147483648" /\ 2 ^ 31 <= digits_value "2147483648" < 2 ^ 32
  /\ main_reply "1011" ("rank" ++ " " ++ "1" ++ " " ++ "2147483648" ++ line_end false)%string
     = Some (total_count "1011" true).
Proof.
  assert (H : str_length "1011" < 4096 * SUPERBLOCKS_PER_L0) by (vm_compute; reflexivity).
  assert (Hd : number "2147483648") by (split; reflexivity).
  assert (Hv : 2 ^ 31 <= digits_value "2147483648" < 2 ^ 32)
    by (vm_compute; split; [discriminate | reflexivity]).
  split; [exact H | split; [exact Hd | split; [exact Hv |]]].
  exact (main_reply_rank_wrapped "1011" "2147483648" false H Hd Hv).
Defined.

(** X27.  For a string of the first L0 region, the reply to
    [select <b> <k>] with [b] 0 or 1 and [k] between 1 and the number of
    bits [b] in [B], below [2 ^ 31], is the position of the [k]-th bit [b]
    of [B]. *)
Theorem main_reply_select str b d cr :
  in_first_region str -> number b -> number d -> digits_value b <= 1 ->
  1 <= digits_value d <= total_count str (digits_value b =? 1) ->
  digits_value d < 2 ^ 31 ->
  exists p,
    main_reply str ("select" ++ " " ++ b ++ " " ++ d ++ line_end cr)%string = Some p
    /\ 0 <= p < bit_length str
    /\ true_bit str p = (digits_value b =? 1)
    /\ true_rank str p (digits_value b =? 1) = digits_value d - 1.
Proof.
  intros Hreg Hb Hd Hvb Hk Hvd.
  destruct (in_first_region_fits str Hreg) as (Hfit & _).
  pose proof (digits_value_nonneg b (proj1 Hb)) as Hb0.
  unfold main_reply, getCommand.
  rewrite (regex_search_two "select" b d cr keyword_select Hb Hd).
  cbn [first_char]. change (Ascii.eqb "s" "a") with false. cbv iota.
  rewrite stoi_value by lia. rewrite stoll_value by lia.
  rewrite int_of_small by lia.
  unfold processCommand. cbn [cmd position bitValue].
  change (Ascii.eqb "s" "a") with false. change (Ascii.eqb "s" "r") with false.
  change (Ascii.eqb "s" "s") with true. cbv iota.
  unfold u8, wrap. change (2 ^ 8) with 256. rewrite digit_bit by assumption.
  unfold select. destruct (Z.eqb_spec (digits_value b) 1) as [E | NE].
  - destruct (select_1_built str (digits_value d) Hreg Hk) as (p & Hrun & Hp & Hbit & Hcount).
    rewrite Hrun. exists p. cbn [reply].
    split; [reflexivity |]. split; [exact Hp |]. split; [exact Hbit | exact Hcount].
  - destruct (zeros_words_built str Hfit) as (_ & Hlt & _).
    destruct (select_0_built str (digits_value d) Hreg ltac:(lia))
      as (p & Hrun & Hp & Hbit & Hcount).
    destruct (select_0_inside str (digits_value d) p Hfit Hk ltac:(lia) Hbit Hcount)
      as [Hin Hzeros].
    rewrite Hrun. exists p. cbn [reply].
    split; [reflexivity |]. split; [exact Hin |]. split; [exact Hbit | exact Hzeros].
Qed.

Lemma main_reply_select_witness :
  in_first_region "1011" /\ number "0" /\ number "1" /\ digits_value "0" <= 1
  /\ 1 <= digits_value "1" <= total_count "1011" (digits_value "0" =? 1)
  /\ digits_value "1" < 2 ^ 31
  /\ exists p,
       main_reply "1011" ("select" ++ " " ++ "0" ++ " " ++ "1" ++ line_end false)%string
       = Some p
       /\ 0 <= p < bit_length "1011".
Proof.
  assert (H : in_first_region "1011") by (unfold in_first_region; vm_compute; reflexivity).
  assert (Hb : number "0") by (split; reflexivity).
  assert (Hd : number "1") by (split; reflexivity).
  assert (Hvb : digits_value "0" <= 1) by (vm_compute; discriminate).
  assert (Hk : 1 <= digits_value "1" <= total_count "1011" (digits_value "0" =? 1))
    by (vm_compute; split; discriminate).
  assert (Hvd : digits_value "1" < 2 ^ 31) by (vm_compute; reflexivity).
  split; [exact H | split; [exact Hb | split; [exact Hd | split; [exact Hvb |
    split; [exact Hk | split; [exact Hvd |]]]]]].
  destruct (main_reply_select "1011" "0" "1" false H Hb Hd Hvb Hk Hvd)
    as (p & Hrun & Hp & _).
  exists p. split; [exact Hrun | exact Hp].
Defined.

(** * Skipped characters *)

Lemma same_bits s1 s2 :
  bits s1 = bits s2 ->
  bit_length s1 = bit_length s2
  /\ (forall b, total_count s1 b = total_count s2 b)
  /\ (forall i b, true_rank s1 i b = true_rank s2 i b)
  /\ (forall i, true_bit s1 i = true_bit s2 i).
Proof.
  intros H. unfold bit_length, total_count, true_rank, true_bit. rewrite H.
  repeat split; reflexivity.
Qed.

Lemma select_position str b k :
  in_first_region str -> 1 <= k <= total_count str b ->
  exists p, select (built str) k (bit_value b) = Some p /\ 0 <= p < bit_length str
    /\ true_bit str p = b /\ true_rank str p b = k - 1.
Proof.
  intros Hreg Hk. destruct (in_first_region_fits str Hreg) as (Hfit & _).
  unfold select. destruct b; simpl bit_value.
  - change (1 =? 1) with true. cbv iota. apply select_1_built; assumption.
  - change (0 =? 1) with false. cbv iota.
    destruct (zeros_words_built str Hfit) as (_ & Hlt & _).
    destruct (select_0_built str k Hreg ltac:(lia)) as (p & Hrun & Hp & Hbit & Hcount).
    destruct (select_0_inside str k p Hfit Hk ltac:(lia) Hbit Hcount) as [Hin Hzeros].
    exists p. split; [exact Hrun |]. split; [exact Hin |]. split; assumption.
Qed.

(** X28.  The characters that the constructor skips do not show in the
    answers: two strings of the first L0 region with the same accepted
    characters give the same [rank] at every position of [B], the same
    [select] for every [k] up to the number of bits in [B], and the same
    [access] at every position of [B]. *)
Theorem queries_depend_on_bits s1 s2 :
  in_first_region s1 -> in_first_region s2 -> bits s1 = bits s2 ->
  (forall i b, 0 <= i <= bit_length s1 ->
     rank (built s1) i (bit_value b) = rank (built s2) i (bit_value b))
  /\ (forall k b, 1 <= k <= total_count s1 b ->
        select (built s1) k (bit_value b) = select (built s2) k (bit_value b))
  /\ (forall i, 0 <= i < bit_length s1 -> access (built s1) i = access (built s2) i).
Proof.
  intros H1 H2 Hbits.
  destruct (in_first_region_fits s1 H1) as (Hfit1 & _ & Hlen1).
  destruct (in_first_region_fits s2 H2) as (Hfit2 & _ & Hlen2).
  destruct (same_bits s1 s2 Hbits) as (HN & Htot & Hrank & Hbit).
  split; [| split].
  - intros i b Hi.
    destruct (rank_exact s1 i Hfit1 Hlen1 Hi) as [A1 A0].
    destruct (rank_exact s2 i Hfit2 Hlen2 ltac:(lia)) as [B1 B0].
    destruct b; simpl bit_value; [rewrite A1, B1 | rewrite A0, B0]; apply Hrank.
  - intros k b Hk.
    destruct (select_position s1 b k H1 Hk) as (p & Hrun & Hp & Hb & Hc).
    destruct (select_position s2 b k H2 ltac:(rewrite <- Htot; exact Hk))
      as (q & Hrun' & Hq & Hb' & Hc').
    rewrite Hrun, Hrun'. f_equal.
    apply (same_rank_same_position s1 b); try assumption.
    + lia.
    + rewrite Hbit. exact Hb'.
    + rewrite (Hrank q b). lia.
  - intros i Hi. rewrite !access_bit by lia.
    rewrite !built_bit by (assumption || lia). rewrite Hbit. reflexivity.
Qed.

Lemma queries_depend_on_bits_witness :
  in_first_region "1011" /\ in_first_region ("10 11" ++ carriage_return)
  /\ bits "1011" = bits ("10 11" ++ carriage_return)
  /\ forall i, 0 <= i < bit_length "1011" ->
       access (built "1011") i = access (built ("10 11" ++ carriage_return)) i.
Proof.
  assert (H1 : in_first_region "1011") by (unfold in_first_region; vm_compute; reflexivity).
  assert (H2 : in_first_region ("10 11" ++ carriage_return))
    by (unfold in_first_region; vm_compute; reflexivity).
  assert (Hb : bits "1011" = bits ("10 11" ++ carriage_return)) by reflexivity.
  split; [exact H1 | split; [exact H2 | split; [exact Hb |]]].
  exact (proj2 (proj2 (queries_depend_on_bits "1011" ("10 11" ++ carriage_return) H1 H2 Hb))).
Defined.
